(** * The incremental, deduplicated, quota-balanced review collector

    A shallow embedding of the collection logic of the repository's scrapers
    and of the fallback logic of its translation pipelines:

    - [Steam3]       ENGLISH/steam_scrapping/steam_scr3.py
    - [Steam1]       ENGLISH/steam_scrapping/steam_scr.py
    - [Metacritic]   ENGLISH/metacritic/scrapper.py
    - [TranslateOnly] ARABIC/DataCleaning/TranslatingToEnglish/translate_only.py
    - [Pipeline]     ARABIC/DataCleaning/TranslatingToEnglish/pipeline.py

    Python [dict]s are finite maps, Python [set]s are finite sets, a CSV
    file is the list of its rows and a file system a finite map from paths
    to files.  A table in memory is the list of its rows as
    [pd.read_csv] returns them: a cell of a text column is a [str], the
    float [nan] where the file has a missing-value token, or a number
    where pandas reads the column as numbers ([Pandas]).  The remote
    services are oracles: a function from the requests made so far and
    the current request to a response, so that a statement quantified
    over the oracle covers every sequence of pages the source can
    return. *)

From Stdlib Require Import ZArith String Ascii List Lia Bool.
From stdpp Require Import base option list gmap strings.
From Stdlib Require Sorted.
From stdpp Require sorting.

Set Warnings "-clear-no-such-hyp".

Local Open Scope string_scope.
Local Open Scope list_scope.
Local Open Scope Z_scope.

(** ** Python primitives *)

Module Py.

(** [str.isspace] on the ASCII range: tab, line feed, vertical tab, form
    feed, carriage return, the four separators 28..31, and space.  Texts
    are sequences of characters; a character above 127 is not white. *)
Definition isspace (c : ascii) : bool :=
  let n := N_of_ascii c in
  ((9 <=? n) && (n <=? 13) || (28 <=? n) && (n <=? 32))%N.

(** The scanner behind [str.split()]: [w] is the word being read, in
    reading order. *)
Fixpoint split_chars (w : list ascii) (cs : list ascii) : list (list ascii) :=
  match cs with
  | [] => match w with [] => [] | _ :: _ => [w] end
  | c :: cs' =>
      if isspace c
      then match w with
           | [] => split_chars [] cs'
           | _ :: _ => w :: split_chars [] cs'
           end
      else split_chars (w ++ [c]) cs'
  end.

(** [s.split()] *)
Definition split (s : string) : list string :=
  map string_of_list_ascii (split_chars [] (list_ascii_of_string s)).

(** [sep.join(ws)] *)
Definition join (sep : string) (ws : list string) : string :=
  String.concat sep ws.

(** [len(s.split())] *)
Definition count_words (s : string) : Z := Z.of_nat (length (split s)).

(** [xs[:n]]: the first [n] elements, and for a negative [n] all but the
    last [-n]. *)
Definition slice_to {A} (n : Z) (xs : list A) : list A :=
  if 0 <=? n then take (Z.to_nat n) xs
  else take (length xs - Z.to_nat (- n))%nat xs.

(** [s.strip()] is empty: [s] holds white space only. *)
Definition blank (s : string) : bool :=
  forallb isspace (list_ascii_of_string s).

(** [len(xs)] *)
Definition len {A} (xs : list A) : Z := Z.of_nat (length xs).

(** A dict literal read top to bottom: a repeated key keeps its first
    position and takes the last value. *)
Fixpoint dict_set (k : Z) (v : string) (d : list (Z * string)) : list (Z * string) :=
  match d with
  | [] => [(k, v)]
  | (k', v') :: d' => if decide (k = k') then (k, v) :: d' else (k', v') :: dict_set k v d'
  end.

Definition dict_of_items (items : list (Z * string)) : list (Z * string) :=
  foldl (fun d kv => dict_set (fst kv) (snd kv) d) [] items.

End Py.

(** ** pandas, as the collectors use it *)

Module Pandas.

(** The texts that [pd.read_csv] takes for a missing value: its default
    [na_values], none of the scripts passing its own. *)
Definition NA_VALUES : list string :=
  [ ""; "#N/A"; "#N/A N/A"; "#NA"; "-1.#IND"; "-1.#QNAN"; "-NaN"; "-nan";
    "1.#IND"; "1.#QNAN"; "<NA>"; "N/A"; "NA"; "NULL"; "NaN"; "None"; "n/a";
    "nan"; "null" ].

Definition isna (cell : string) : bool := bool_decide (cell ∈ NA_VALUES).

(** A value of a column that the scripts keep as text, after
    [pd.read_csv]: a [str], the float [nan] of a missing value, or a value
    of another type (a number, a truth value), kept here by the text of
    its cell. *)
Inductive Value :=
| Str (s : string)
| NaN
| Typed (cell : string).

#[global] Instance Value_eq_dec : EqDecision Value.
Proof. solve_decision. Defined.

(** What is left to pandas.  [as_text column]: [read_csv] leaves the
    cells of a column with these texts as [str]s; it does not when it can
    read every cell that is not a missing value as a number, or every one
    as a truth value.  pandas decides this for the column as a whole when
    it reads the file in one piece, which it does for a file of fewer
    rows than its read buffer holds, some tens of thousands; the tables
    of the collectors have some 11,000 rows at most.
    [to_text column cell]: what [to_csv] writes for the value
    read from [cell], in a column that holds the values [column].
    [str_of column cell]: [str(v)] for the value [v] read from [cell], in
    a column read from the texts [column]. *)
Record Reader := {
  as_text : list string -> bool;
  to_text : list Value -> string -> string;
  str_of : list string -> string -> string }.

(** One cell as [read_csv] returns it, in a column that it leaves as
    text ([text]) or not. *)
Definition read_cell (text : bool) (cell : string) : Value :=
  if isna cell then NaN
  else if text then Str cell
  else Typed cell.

(** One value of a column as [to_csv] writes it: a [str] as it is, a
    missing value as the empty cell. *)
Definition write_cell (pd : Reader) (column : list Value) (v : Value) : string :=
  match v with
  | Str s => s
  | NaN => ""
  | Typed cell => to_text pd column cell
  end.

(** [str(v)] for a value of a column read from the texts [column]. *)
Definition str (pd : Reader) (column : list string) (v : Value) : string :=
  match v with
  | Str s => s
  | NaN => "nan"
  | Typed cell => str_of pd column cell
  end.

End Pandas.

(** ** The Steam review API, as both Steam scrapers see it *)

Module SteamAPI.

(** One entry of the [reviews] array of a response.  A field is [None] when
    its key is missing from the JSON object ([rr_steamid] also when
    [author] is), so that subscripting it raises [KeyError]. *)
Record RawReview := {
  rr_review : option string;
  rr_steamid : option string;
  rr_voted_up : option bool;
  rr_votes_up : option Z;
  rr_votes_funny : option Z;
  rr_timestamp_created : option Z }.

(** The parameters of a GET on [appreviews/<app_id>] that vary. *)
Record Request := {
  q_app_id : Z;
  q_review_type : string;
  q_cursor : string }.

(** [Failed]: [requests.get] or [response.json()] raised, or the status
    code is not 200.  [Page success reviews cursor]: a JSON body with the
    truth value of [success], the [reviews] array (empty when the key is
    missing) and [cursor] ([None] when the key is missing). *)
Inductive Response :=
| Failed
| Page (success : bool) (batch_reviews : list RawReview) (next_cursor : option string).

(** What [fetch_game_metadata] / [fetch_game_details] return: [None] is the
    empty dict. *)
Record Metadata := {
  m_price_usd : string;
  m_age_rating : string;
  m_game_mode : string;
  m_genres : string }.

(** The remote source.  Each oracle sees the review requests made so far. *)
Record Remote := {
  appreviews : list Request -> Request -> Response;
  appdetails : list Request -> Z -> option Metadata }.

(** An oracle that ignores the history: the remote data does not change. *)
Definition stateless (srv : Request -> Response) (meta : Z -> option Metadata) : Remote :=
  {| appreviews := fun _ q => srv q; appdetails := fun _ a => meta a |}.

(** [metadata.get(key, 'N/A')] *)
Definition meta_get (f : Metadata -> string) (metadata : option Metadata) : string :=
  match metadata with Some m => f m | None => "N/A" end.

End SteamAPI.

(** ** steam_scr3.py: SmartSteamScraper *)

Module Steam3.
Import Py Pandas SteamAPI.

Definition max_pages : Z := 50.

(** A row of the reviews table, and the dict appended by [_scrape_by_type]. *)
Record Review := {
  game_name : string;
  app_id : Z;
  price_usd : string;
  age_rating : string;
  game_mode : string;
  genres : string;
  user_id : string;
  review_text : string;
  voted_up : bool;
  votes_helpful : Z;
  votes_funny : Z;
  created : Z }.

(** A row of the table as [pd.read_csv] returns it.  The numbers and the
    vote are those of the file; the other columns are read by pandas. *)
Record Loaded := {
  l_game_name : Value;
  l_app_id : Z;
  l_price_usd : Value;
  l_age_rating : Value;
  l_game_mode : Value;
  l_genres : Value;
  l_user_id : Value;
  l_review_text : Value;
  l_voted_up : bool;
  l_votes_helpful : Z;
  l_votes_funny : Z;
  l_created : Z }.

(** [pd.read_csv(path)], from the rows of the file. *)
Definition read_csv (pd : Reader) (rows : list Review) : list Loaded :=
  let game_name_text := as_text pd (game_name <$> rows) in
  let price_usd_text := as_text pd (price_usd <$> rows) in
  let age_rating_text := as_text pd (age_rating <$> rows) in
  let game_mode_text := as_text pd (game_mode <$> rows) in
  let genres_text := as_text pd (genres <$> rows) in
  let user_id_text := as_text pd (user_id <$> rows) in
  let review_text_text := as_text pd (review_text <$> rows) in
  (fun r =>
     {| l_game_name := read_cell game_name_text (game_name r);
        l_app_id := app_id r;
        l_price_usd := read_cell price_usd_text (price_usd r);
        l_age_rating := read_cell age_rating_text (age_rating r);
        l_game_mode := read_cell game_mode_text (game_mode r);
        l_genres := read_cell genres_text (genres r);
        l_user_id := read_cell user_id_text (user_id r);
        l_review_text := read_cell review_text_text (review_text r);
        l_voted_up := voted_up r;
        l_votes_helpful := votes_helpful r;
        l_votes_funny := votes_funny r;
        l_created := created r |}) <$> rows.

(** A row of [pd.DataFrame(all_new_reviews)]: the values of the dict. *)
Definition loaded_of (r : Review) : Loaded :=
  {| l_game_name := Str (game_name r);
     l_app_id := app_id r;
     l_price_usd := Str (price_usd r);
     l_age_rating := Str (age_rating r);
     l_game_mode := Str (game_mode r);
     l_genres := Str (genres r);
     l_user_id := Str (user_id r);
     l_review_text := Str (review_text r);
     l_voted_up := voted_up r;
     l_votes_helpful := votes_helpful r;
     l_votes_funny := votes_funny r;
     l_created := created r |}.

(** [df.to_csv(path, index=False)]: the rows of the file written. *)
Definition to_csv (pd : Reader) (df : list Loaded) : list Review :=
  let game_names := l_game_name <$> df in
  let prices := l_price_usd <$> df in
  let age_ratings := l_age_rating <$> df in
  let game_modes := l_game_mode <$> df in
  let genre_lists := l_genres <$> df in
  let user_ids := l_user_id <$> df in
  let review_texts := l_review_text <$> df in
  (fun r =>
     {| game_name := write_cell pd game_names (l_game_name r);
        app_id := l_app_id r;
        price_usd := write_cell pd prices (l_price_usd r);
        age_rating := write_cell pd age_ratings (l_age_rating r);
        game_mode := write_cell pd game_modes (l_game_mode r);
        genres := write_cell pd genre_lists (l_genres r);
        user_id := write_cell pd user_ids (l_user_id r);
        review_text := write_cell pd review_texts (l_review_text r);
        voted_up := l_voted_up r;
        votes_helpful := l_votes_helpful r;
        votes_funny := l_votes_funny r;
        created := l_created r |}) <$> df.

Record Stats := { positive : Z; negative : Z }.

(** The scraper.  The set [existing_reviews] and the dict [game_stats]
    are kept by their keys made of [str]s: the program looks both up by
    [str]s only, so a key with a number or [nan] in it, which [__init__]
    can put there, is never found. *)
Record Scraper := {
  target_per_game : Z;
  df_existing : list Loaded;
  existing_reviews : gset (string * string);
  game_stats : gmap string Stats }.

(** [df['game_name'].unique()]: first occurrences, in order. *)
Fixpoint unique (l : list string) : list string :=
  match l with
  | [] => []
  | x :: l' => x :: filter (fun y => y <> x) (unique l')
  end.

(** The body of the loop that builds the duplicate detection set: the
    test [row['user_id'] != 'N/A'] and the pair added. *)
Definition track (tr : gset (string * string)) (row : Loaded) : gset (string * string) :=
  match l_user_id row, l_game_name row with
  | Str user, Str game =>
      if decide (user = "N/A") then tr else {[ (user, game) ]} ∪ tr
  | _, _ => tr
  end.

(** The game names of the table that are [str]s. *)
Definition names (df : list Loaded) : list string :=
  omap (fun r => match l_game_name r with Str game => Some game | _ => None end) df.

(** [game_data['voted_up'].sum()] and [len(game_data) - pos_count]. *)
Definition stats_of (df : list Loaded) (game : string) : Stats :=
  let game_data := filter (fun r => l_game_name r = Str game) df in
  let pos_count := len (filter (fun r => l_voted_up r = true) game_data) in
  {| positive := pos_count; negative := len game_data - pos_count |}.

(** [SmartSteamScraper.__init__]; [None] is [FileNotFoundError]. *)
Definition init (existing_file : option (list Loaded)) (target : Z) : Scraper :=
  match existing_file with
  | Some df =>
      {| target_per_game := target;
         df_existing := df;
         existing_reviews := foldl track ∅ df;
         game_stats :=
           foldl (fun stats game => <[game := stats_of df game]> stats) ∅
                 (unique (names df)) |}
  | None =>
      {| target_per_game := target;
         df_existing := [];
         existing_reviews := ∅;
         game_stats := ∅ |}
  end.

Definition is_duplicate (tr : gset (string * string)) (user game : string) : bool :=
  bool_decide ((user, game) ∈ tr).

Record Needed := {
  need_positive : Z;
  need_negative : Z;
  current_positive : Z;
  current_negative : Z }.

(** The two per-category targets of [calculate_needed]. *)
Definition target_pos (s : Scraper) : Z := target_per_game s / 2.
Definition target_neg (s : Scraper) : Z := target_per_game s / 2.

(** The counts of [game] in [game_stats], zero for an unknown game. *)
Definition current (s : Scraper) (game : string) : Z * Z :=
  match game_stats s !! game with
  | Some st => (positive st, negative st)
  | None => (0, 0)
  end.

Definition calculate_needed (s : Scraper) (game : string) : Needed :=
  let current_pos := fst (current s game) in
  let current_neg := snd (current s game) in
  let needed_pos := Z.max 0 (target_pos s - current_pos) in
  let needed_neg := Z.max 0 (target_neg s - current_neg) in
  {| need_positive := needed_pos;
     need_negative := needed_neg;
     current_positive := current_pos;
     current_negative := current_neg |}.

(** The variables of [_scrape_by_type], with the duplicate tracker of the
    scraper and the requests made so far. *)
Record Loop := {
  reviews : list Review;
  cursor : string;
  pages_checked : Z;
  duplicates_found : Z;
  tracker : gset (string * string);
  log : list Request }.

Inductive Flow := Normal | Raised.

(** [for review in batch_reviews: ...].  [Raised] is a [KeyError] from a
    missing field, which leaves the loop for the handler of the page. *)
Fixpoint process_batch (game : string) (app : Z) (metadata : option Metadata)
    (target_count : Z) (batch : list RawReview) (st : Loop) : Loop * Flow :=
  match batch with
  | [] => (st, Normal)
  | review :: rest =>
      let text := default "" (rr_review review) in
      match rr_steamid review with
      | None => (st, Raised)
      | Some user =>
          if is_duplicate (tracker st) user game then
            process_batch game app metadata target_count rest
              {| reviews := reviews st; cursor := cursor st;
                 pages_checked := pages_checked st;
                 duplicates_found := duplicates_found st + 1;
                 tracker := tracker st; log := log st |}
          else if count_words text <? 5 then
            process_batch game app metadata target_count rest st
          else
            match rr_voted_up review, rr_votes_up review,
                  rr_votes_funny review, rr_timestamp_created review with
            | Some up, Some helpful, Some funny, Some stamp =>
                let row :=
                  {| game_name := game; app_id := app;
                     price_usd := meta_get m_price_usd metadata;
                     age_rating := meta_get m_age_rating metadata;
                     game_mode := meta_get m_game_mode metadata;
                     genres := meta_get m_genres metadata;
                     user_id := user; review_text := text;
                     voted_up := up; votes_helpful := helpful;
                     votes_funny := funny; created := stamp |} in
                let st' :=
                  {| reviews := reviews st ++ [row]; cursor := cursor st;
                     pages_checked := pages_checked st;
                     duplicates_found := duplicates_found st;
                     tracker := {[ (user, game) ]} ∪ tracker st;
                     log := log st |} in
                if target_count <=? len (reviews st') then (st', Normal)
                else process_batch game app metadata target_count rest st'
            | _, _, _, _ => (st, Raised)
            end
      end
  end.

(** [while len(reviews) < target_count and pages_checked < max_pages: ...].
    [None]: the fuel ran out before the loop did. *)
Fixpoint scrape_pages (fuel : nat) (remote : Remote) (app : Z) (game rtype : string)
    (target_count : Z) (metadata : option Metadata) (st : Loop) : option Loop :=
  if (len (reviews st) <? target_count) && (pages_checked st <? max_pages) then
    match fuel with
    | O => None
    | S fuel' =>
        let q := {| q_app_id := app; q_review_type := rtype; q_cursor := cursor st |} in
        let st0 :=
          {| reviews := reviews st; cursor := cursor st;
             pages_checked := pages_checked st;
             duplicates_found := duplicates_found st;
             tracker := tracker st; log := log st ++ [q] |} in
        match appreviews remote (log st) q with
        | Failed => Some st0
        | Page false _ _ => Some st0
        | Page true [] _ => Some st0
        | Page true batch next =>
            match process_batch game app metadata target_count batch st0 with
            | (st1, Raised) => Some st1
            | (st1, Normal) =>
                let c := default "" next in
                let st2 :=
                  {| reviews := reviews st1; cursor := c;
                     pages_checked := pages_checked st1 + 1;
                     duplicates_found := duplicates_found st1;
                     tracker := tracker st1; log := log st1 |} in
                if bool_decide (c = "") || bool_decide (c = "*") then Some st2
                else scrape_pages fuel' remote app game rtype target_count metadata st2
            end
        end
    end
  else Some st.

(** [_scrape_by_type]: the loop from its initial variables.  The fuel is
    one more than the page ceiling; [scrape_pages] is shown below never to
    use it up. *)
Definition scrape_by_type (remote : Remote) (app : Z) (game rtype : string)
    (target_count : Z) (metadata : option Metadata)
    (tr : gset (string * string)) (lg : list Request)
  : option (list Review * gset (string * string) * list Request) :=
  st ← scrape_pages (S (Z.to_nat max_pages)) remote app game rtype target_count metadata
         {| reviews := []; cursor := "*"; pages_checked := 0;
            duplicates_found := 0; tracker := tr; log := lg |};
  Some (reviews st, tracker st, log st).

(** [scrape_game].  The result holds the new reviews, the scraper with its
    tracker and statistics updated, and the requests made so far. *)
Definition scrape_game (remote : Remote) (app : Z) (game : string)
    (s : Scraper) (lg : list Request)
  : option (list Review * Scraper * list Request) :=
  let needed := calculate_needed s game in
  let needed_pos := need_positive needed in
  let needed_neg := need_negative needed in
  if bool_decide (needed_pos = 0) && bool_decide (needed_neg = 0) then Some ([], s, lg)
  else
    let metadata := appdetails remote lg app in
    '(pos_reviews, tr1, lg1) ←
       (if 0 <? needed_pos
        then scrape_by_type remote app game "positive" needed_pos metadata
               (existing_reviews s) lg
        else Some ([], existing_reviews s, lg));
    '(neg_reviews, tr2, lg2) ←
       (if 0 <? needed_neg
        then scrape_by_type remote app game "negative" needed_neg metadata tr1 lg1
        else Some ([], tr1, lg1));
    let new_reviews := pos_reviews ++ neg_reviews in
    let collected_pos := len pos_reviews in
    let collected_neg := len neg_reviews in
    let old := default {| positive := 0; negative := 0 |} (game_stats s !! game) in
    let stats :=
      <[game := {| positive := positive old + collected_pos;
                   negative := negative old + collected_neg |}]> (game_stats s) in
    Some (new_reviews,
          {| target_per_game := target_per_game s;
             df_existing := df_existing s;
             existing_reviews := tr2;
             game_stats := stats |},
          lg2).

(** [scrape_all_games]: [game_ids.items()] in dict order. *)
Fixpoint scrape_all_games (remote : Remote) (game_ids : list (Z * string))
    (s : Scraper) (lg : list Request)
  : option (list Review * Scraper * list Request) :=
  match game_ids with
  | [] => Some ([], s, lg)
  | (app, game) :: rest =>
      '(new_reviews, s1, lg1) ← scrape_game remote app game s lg;
      '(more, s2, lg2) ← scrape_all_games remote rest s1 lg1;
      Some (new_reviews ++ more, s2, lg2)
  end.

Definition GAME_IDS : list (Z * string) := dict_of_items [
  (251570, "7 Days to Die"); (1044720, "A Short Hike");
  (945360, "Among Us"); (2198510, "Anger Foot");
  (1172470, "Apex Legends"); (2379780, "Balatro");
  (1086940, "Baldur's Gate 3"); (813780, "Before Your Eyes");
  (250900, "Binding of Isaac Rebirth"); (1966900, "Brotato");
  (504230, "Celeste"); (1903340, "Clair Obscur Expedition 33");
  (1158310, "Crusader Kings III"); (462770, "Crypt of the NecroDancer");
  (1205140, "Cult of the Lamb"); (268910, "Cuphead");
  (1091500, "Cyberpunk 2077"); (374320, "Dark Souls III");
  (588650, "Dead Cells"); (1061090, "Demon Turf");
  (1085660, "Destiny 2"); (632470, "Disco Elysium");
  (230230, "Divinity Original Sin"); (435150, "Divinity Original Sin 2");
  (1283400, "Dolmen"); (219740, "Dont Starve");
  (570, "Dota 2"); (1100600, "Dusk");
  (1245620, "Elden Ring"); (311690, "Enter the Gungeon");
  (263340, "FTL Faster Than Light"); (1296610, "Gordian Quest");
  (1942280, "Griftlands"); (774361, "Gris");
  (553850, "HELLDIVERS 2"); (1145360, "Hades");
  (1240440, "Hades II"); (1817070, "Hogwarts Legacy");
  (367520, "Hollow Knight"); (1151640, "Horizon Zero Dawn");
  (1092790, "Inscryption"); (412020, "Insurgency Sandstorm");
  (774781, "Just Shapes and Beats"); (1284410, "Legends of Runeterra");
  (1966720, "Lethal Company"); (1888160, "Lies of P");
  (319630, "Life is Strange"); (532210, "Life is Strange 2");
  (1222690, "Life is Strange True Colors"); (1051510, "Little Misfortune");
  (1599340, "Lost Ark"); (2357570, "Marvel Rivals");
  (1328670, "Mass Effect Legendary"); (1548850, "Monster Train");
  (1203620, "Mortal Shell"); (1677740, "Neon White");
  (524220, "Nier Automata"); (1315690, "Nightmare Reaper");
  (1490720, "Noita"); (242680, "Nuclear Throne");
  (1057090, "Octopath Traveler"); (1096530, "Octopath Traveler II");
  (1150690, "Omori"); (420530, "OneShot");
  (282140, "Oxenfree"); (1274570, "Oxenfree II");
  (444090, "Paladins"); (238960, "Path of Exile");
  (1637730, "Peglin"); (555160, "Phasmophobia");
  (1070560, "Pizza Tower"); (620, "Portal 2");
  (736220, "Post Void"); (1200570, "Prodeus");
  (418370, "Rising Storm 2 Vietnam"); (632360, "Risk of Rain 2");
  (1145350, "Rogue Legacy 2"); (252490, "Rust");
  (322500, "SUPERHOT"); (937010, "Salt and Sanctuary");
  (1449850, "Sea of Stars"); (1172620, "Sea of Thieves");
  (814380, "Sekiro"); (1089350, "Shovel Knight Dig");
  (646570, "Slay the Spire"); (1091500, "Smite 2");
  (1113560, "Spiritfarer"); (1494830, "Stacklands");
  (1151340, "Steelrising"); (1332010, "Stray");
  (774361, "TROUBLESHOOTER"); (286160, "Tabletop Simulator");
  (1276390, "The Messenger"); (207610, "The Walking Dead");
  (261030, "The Wolf Among Us"); (1245430, "Thymesia");
  (394510, "Tower Defense Simulator"); (394690, "Tower Unite");
  (1250410, "Turbo Overkill"); (1229490, "Ultrakill");
  (1116740, "Unrailed"); (438100, "VRChat");
  (1794680, "Vampire Survivors"); (1102190, "Vault of the Void");
  (230410, "Warframe"); (1121910, "Yakuza Like a Dragon");
  (1182480, "Yu-Gi-Oh Master Duel") ].

Definition EXISTING_FILE : string :=
  "C:\Users\User\OneDrive\Desktop\Data Science\DataScienceDataset\DataCleaning\cleaned_reviews.csv".
Definition OUTPUT_FILE : string := "steam_additional_reviews.csv".
Definition UPDATED_FILE : string :=
  "C:\Users\User\OneDrive\Desktop\Data Science\DataScienceDataset\DataCleaning\cleaned_reviews_updated.csv".
Definition TARGET_PER_GAME : Z := 104.

(** [main], over the CSV files [fs] and the operator's answer to the
    combine prompt (after [strip().lower()]).  The result is the new file
    system, with [Raised] when [pd.read_csv] fails on the way. *)
Definition main_with (pd : Reader) (game_ids : list (Z * string)) (target : Z)
    (remote : Remote) (answer : string) (fs : gmap string (list Review))
  : option (gmap string (list Review) * Flow) :=
  let scraper := init (read_csv pd <$> fs !! EXISTING_FILE) target in
  '(df_new, _, _) ← scrape_all_games remote game_ids scraper [];
  if 0 <? len df_new then
    let fs1 := <[OUTPUT_FILE := to_csv pd (loaded_of <$> df_new)]> fs in
    if bool_decide (answer = "yes") then
      match fs1 !! EXISTING_FILE with
      | None => Some (fs1, Raised)
      | Some rows =>
          let df_existing := read_csv pd rows in
          let df_combined := df_existing ++ (loaded_of <$> df_new) in
          Some (<[UPDATED_FILE := to_csv pd df_combined]> fs1, Normal)
      end
    else Some (fs1, Normal)
  else Some (fs, Normal).

Definition main (pd : Reader) := main_with pd GAME_IDS TARGET_PER_GAME.

End Steam3.

(** ** steam_scr.py: the first scraper *)

Module Steam1.
Import Py SteamAPI.

(** The dict appended by [fetch_reviews_by_type]. *)
Record Review := {
  app_id : Z;
  user_id : string;
  review_text : string;
  voted_up : bool;
  votes_helpful : Z;
  votes_funny : Z;
  created : Z }.

Record Loop := {
  reviews : list Review;
  cursor : string;
  log : list Request }.

Inductive Flow := Normal | Raised.

(** [for review in batch_reviews: ...] *)
Fixpoint process_batch (app : Z) (num_reviews : Z) (batch : list RawReview) (st : Loop)
  : Loop * Flow :=
  match batch with
  | [] => (st, Normal)
  | review :: rest =>
      let text := default "" (rr_review review) in
      if 10 <? Z.of_nat (String.length text) then
        match rr_steamid review, rr_voted_up review, rr_votes_up review,
              rr_votes_funny review, rr_timestamp_created review with
        | Some user, Some up, Some helpful, Some funny, Some stamp =>
            let row :=
              {| app_id := app; user_id := user; review_text := text;
                 voted_up := up; votes_helpful := helpful;
                 votes_funny := funny; created := stamp |} in
            let st' :=
              {| reviews := reviews st ++ [row]; cursor := cursor st; log := log st |} in
            if num_reviews <=? len (reviews st') then (st', Normal)
            else process_batch app num_reviews rest st'
        | _, _, _, _, _ => (st, Raised)
        end
      else process_batch app num_reviews rest st
  end.

(** [while len(reviews) < num_reviews: ...]; [None]: out of fuel. *)
Fixpoint fetch_pages (fuel : nat) (remote : Remote) (app : Z) (rtype : string)
    (num_reviews : Z) (st : Loop) : option Loop :=
  if len (reviews st) <? num_reviews then
    match fuel with
    | O => None
    | S fuel' =>
        let q := {| q_app_id := app; q_review_type := rtype; q_cursor := cursor st |} in
        let st0 := {| reviews := reviews st; cursor := cursor st; log := log st ++ [q] |} in
        match appreviews remote (log st) q with
        | Failed => Some st0
        | Page false _ _ => Some st0
        | Page true [] _ => Some st0
        | Page true batch next =>
            match process_batch app num_reviews batch st0 with
            | (st1, Raised) => Some st1
            | (st1, Normal) =>
                let c := default "" next in
                let st2 := {| reviews := reviews st1; cursor := c; log := log st1 |} in
                if bool_decide (c = "") then Some st2
                else fetch_pages fuel' remote app rtype num_reviews st2
            end
        end
    end
  else Some st.

(** [fetch_reviews_by_type], run for [fuel] pages at most. *)
Definition fetch_reviews_by_type (fuel : nat) (remote : Remote) (app : Z)
    (rtype : string) (num_reviews : Z) (lg : list Request) : option Loop :=
  fetch_pages fuel remote app rtype num_reviews
    {| reviews := []; cursor := "*"; log := lg |}.

(** The planning lines of [main]. *)
Definition TOTAL_REVIEWS : Z := 2500.
Definition reviews_per_game (total num_games : Z) : Z := total / num_games.
Definition positive_per_game (per_game : Z) : Z := per_game / 2.
Definition negative_per_game (per_game : Z) : Z := per_game - positive_per_game per_game.

End Steam1.

(** ** ENGLISH/metacritic/scrapper.py *)

Module Metacritic.
Import Py Pandas.

(** What the page parser extracts from one [div.c-siteReview].
    [rd_score] is [None] when the score div or its span is missing or
    [int()] raises; [rd_quote] when the quote div or its span is missing;
    [rd_author] and [rd_date] when the element is missing. *)
Record ReviewDiv := {
  rd_score : option Z;
  rd_quote : option string;
  rd_author : option string;
  rd_date : option string }.

(** The dict appended by [scrape_reviews_by_sentiment]. *)
Record Scraped := {
  s_review_text : string;
  s_user_score : Z;
  s_voted_up : bool;
  s_author : string;
  s_date : string }.

(** A row of the reviews table. *)
Record Row := {
  game_name : string;
  app_id : Z;
  author : string;
  review_text : string;
  user_score : Z;
  voted_up : bool;
  date : string }.

(** A GET, by its URL. *)
Inductive Request := Get (url : string).

(** The site: whether the game page answers 200, and the review divs of a
    user-reviews page ([None]: the request raised or the status is not
    200).  Each oracle sees the requests made so far. *)
Record Remote := {
  game_page : list Request -> string -> bool;
  user_reviews : list Request -> string -> option (list ReviewDiv) }.

(** A row of the table as [pd.read_csv] returns it.  The numbers and the
    vote are those of the file; the other columns are read by pandas. *)
Record Loaded := {
  l_game_name : Value;
  l_app_id : Z;
  l_author : Value;
  l_review_text : Value;
  l_user_score : Z;
  l_voted_up : bool;
  l_date : Value }.

(** [pd.read_csv(path)], from the rows of the file. *)
Definition read_csv (pd : Reader) (rows : list Row) : list Loaded :=
  let game_name_text := as_text pd (game_name <$> rows) in
  let author_text := as_text pd (author <$> rows) in
  let review_text_text := as_text pd (review_text <$> rows) in
  let date_text := as_text pd (date <$> rows) in
  (fun r =>
     {| l_game_name := read_cell game_name_text (game_name r);
        l_app_id := app_id r;
        l_author := read_cell author_text (author r);
        l_review_text := read_cell review_text_text (review_text r);
        l_user_score := user_score r;
        l_voted_up := voted_up r;
        l_date := read_cell date_text (date r) |}) <$> rows.

(** A row of [pd.DataFrame(all_new_reviews)[columns]]. *)
Definition loaded_of (r : Row) : Loaded :=
  {| l_game_name := Str (game_name r);
     l_app_id := app_id r;
     l_author := Str (author r);
     l_review_text := Str (review_text r);
     l_user_score := user_score r;
     l_voted_up := voted_up r;
     l_date := Str (date r) |}.

(** [df.to_csv(path, index=False)]: the rows of the file written. *)
Definition to_csv (pd : Reader) (df : list Loaded) : list Row :=
  let game_names := l_game_name <$> df in
  let authors := l_author <$> df in
  let review_texts := l_review_text <$> df in
  let dates := l_date <$> df in
  (fun r =>
     {| game_name := write_cell pd game_names (l_game_name r);
        app_id := l_app_id r;
        author := write_cell pd authors (l_author r);
        review_text := write_cell pd review_texts (l_review_text r);
        user_score := l_user_score r;
        voted_up := l_voted_up r;
        date := write_cell pd dates (l_date r) |}) <$> df.

(** The module globals [existing_reviews] and [existing_df], with the
    requests made so far. *)
Record Globals := {
  existing_reviews : gset (string * string);
  existing_df : option (list Loaded);
  log : list Request }.

Definition INPUT_FILE : string := "metacritic_reviews.csv".
Definition OUTPUT_FILE : string := "metacritic_reviews_2500.csv".
Definition TARGET_TOTAL : Z := 2500.

(** The pair that [load_existing_reviews] adds for a row:
    [(str(row.get('author', 'Anonymous')), str(row.get('game_name', '')))]. *)
Definition tracked_pair (pd : Reader) (authors game_names : list string) (row : Loaded)
  : string * string :=
  (str pd authors (l_author row), str pd game_names (l_game_name row)).

(** [load_existing_reviews]: the globals after the call and the count
    returned. *)
Definition load_existing_reviews (pd : Reader) (fs : gmap string (list Row)) : Globals * Z :=
  match fs !! INPUT_FILE with
  | Some rows =>
      let df := read_csv pd rows in
      let authors := author <$> rows in
      let game_names := game_name <$> rows in
      ({| existing_reviews :=
            foldl (fun tr row => {[ tracked_pair pd authors game_names row ]} ∪ tr) ∅ df;
          existing_df := Some df;
          log := [] |},
       len df)
  | None => ({| existing_reviews := ∅; existing_df := None; log := [] |}, 0)
  end.

Definition is_duplicate (tr : gset (string * string)) (who game : string) : bool :=
  bool_decide ((who, game) ∈ tr).

(** [game_name.lower().replace(' ', '-').replace("'", "")] followed by
    the removal of every character outside [a-z0-9-]. *)
Definition slug_char (c : ascii) : list ascii :=
  let n := N_of_ascii c in
  if ((65 <=? n) && (n <=? 90))%N then [ascii_of_N (n + 32)]
  else if ((97 <=? n) && (n <=? 122) || (48 <=? n) && (n <=? 57) || (n =? 45))%N then [c]
  else if (n =? 32)%N then ["-"%char]
  else [].

Definition game_url_of (game : string) : string :=
  "https://www.metacritic.com/game/"
    +:+ string_of_list_ascii (flat_map slug_char (list_ascii_of_string game)) +:+ "/".

(** [search_metacritic]: the URL when the page answers 200. *)
Definition search_metacritic (remote : Remote) (game : string) (lg : list Request)
  : option string * list Request :=
  let url := game_url_of game in
  (if game_page remote lg url then Some url else None, lg ++ [Get url]).

Definition contains_char (c : ascii) (s : string) : bool :=
  existsb (fun d => bool_decide (d = c)) (list_ascii_of_string s).

Definition reviews_url_of (game_url : string) : string :=
  if negb (contains_char "?"%char game_url)
  then game_url +:+ "user-reviews/?platform=pc"
  else game_url +:+ "&platform=pc".

(** The variables of [scrape_reviews_by_sentiment]. *)
Record Scan := {
  reviews : list Scraped;
  duplicates_skipped : Z;
  tracker : gset (string * string) }.

(** [for review in review_divs: ...] *)
Fixpoint scan_divs (game sentiment : string) (num_reviews : Z)
    (review_divs : list ReviewDiv) (st : Scan) : Scan :=
  match review_divs with
  | [] => st
  | review :: rest =>
      match rd_score review with
      | None => scan_divs game sentiment num_reviews rest st
      | Some score =>
          if bool_decide (sentiment = "positive") && (score <? 7) then
            scan_divs game sentiment num_reviews rest st
          else if bool_decide (sentiment = "negative") && (4 <? score) then
            scan_divs game sentiment num_reviews rest st
          else
            match rd_quote review with
            | None => scan_divs game sentiment num_reviews rest st
            | Some text =>
                if Z.of_nat (String.length text) <=? 10 then
                  scan_divs game sentiment num_reviews rest st
                else
                  let who := default "Anonymous" (rd_author review) in
                  if is_duplicate (tracker st) who game then
                    scan_divs game sentiment num_reviews rest
                      {| reviews := reviews st;
                         duplicates_skipped := duplicates_skipped st + 1;
                         tracker := tracker st |}
                  else
                    let when := default "N/A" (rd_date review) in
                    let st' :=
                      {| reviews :=
                           reviews st ++
                             [ {| s_review_text := text; s_user_score := score;
                                  s_voted_up := 7 <=? score;
                                  s_author := who; s_date := when |} ];
                         duplicates_skipped := duplicates_skipped st;
                         tracker := {[ (who, game) ]} ∪ tracker st |} in
                    if num_reviews <=? len (reviews st') then st'
                    else scan_divs game sentiment num_reviews rest st'
            end
      end
  end.

(** [scrape_reviews_by_sentiment]: the reviews, the duplicates skipped,
    and the tracker and request log after the call. *)
Definition scrape_reviews_by_sentiment (remote : Remote)
    (game_url game sentiment : string) (num_reviews : Z)
    (tr : gset (string * string)) (lg : list Request)
  : list Scraped * Z * gset (string * string) * list Request :=
  let reviews_url := reviews_url_of game_url in
  match user_reviews remote lg reviews_url with
  | None => ([], 0, tr, lg ++ [Get reviews_url])
  | Some review_divs =>
      let st := scan_divs game sentiment num_reviews review_divs
                  {| reviews := []; duplicates_skipped := 0; tracker := tr |} in
      (reviews st, duplicates_skipped st, tracker st, lg ++ [Get reviews_url])
  end.

(** [review["game_name"] = game_name; review["app_id"] = app_id], in the
    column order of [df_new[columns]]. *)
Definition add_metadata (game : string) (app : Z) (r : Scraped) : Row :=
  {| game_name := game; app_id := app; author := s_author r;
     review_text := s_review_text r; user_score := s_user_score r;
     voted_up := s_voted_up r; date := s_date r |}.

(** The loop of [main] over [GAME_IDS.items()]. *)
Fixpoint games_loop (remote : Remote) (target_new positive_per_game negative_per_game : Z)
    (games : list (Z * string)) (all_new_reviews : list Row) (total_duplicates : Z)
    (tr : gset (string * string)) (lg : list Request)
  : list Row * Z * gset (string * string) * list Request :=
  match games with
  | [] => (all_new_reviews, total_duplicates, tr, lg)
  | (app, game) :: rest =>
      match search_metacritic remote game lg with
      | (None, lg0) =>
          games_loop remote target_new positive_per_game negative_per_game rest
            all_new_reviews total_duplicates tr lg0
      | (Some game_url, lg0) =>
          let '(pos_reviews, pos_dups, tr1, lg1) :=
            scrape_reviews_by_sentiment remote game_url game "positive"
              positive_per_game tr lg0 in
          let '(neg_reviews, neg_dups, tr2, lg2) :=
            scrape_reviews_by_sentiment remote game_url game "negative"
              negative_per_game tr1 lg1 in
          let total := total_duplicates + (pos_dups + neg_dups) in
          let all_new :=
            all_new_reviews ++ (add_metadata game app <$> (pos_reviews ++ neg_reviews)) in
          if target_new <=? len all_new then (all_new, total, tr2, lg2)
          else games_loop remote target_new positive_per_game negative_per_game rest
                 all_new total tr2 lg2
      end
  end.

Inductive Flow := Normal | Raised.

(** The per-category quotas of [main]. *)
Definition positive_per_game (reviews_per_game : Z) : Z := reviews_per_game / 2.
Definition negative_per_game (reviews_per_game : Z) : Z :=
  reviews_per_game - positive_per_game reviews_per_game.

(** [main], over the CSV files [fs]: the file system after the run, the
    newly accepted rows, and [Raised] for the division by an empty
    [GAME_IDS]. *)
Definition main_with (pd : Reader) (game_ids : list (Z * string)) (remote : Remote)
    (fs : gmap string (list Row)) : gmap string (list Row) * list Row * Flow :=
  let '(g, existing_count) := load_existing_reviews pd fs in
  let target_new := TARGET_TOTAL - existing_count in
  if target_new <=? 0 then (fs, [], Normal)
  else
    let num_games := len game_ids in
    if bool_decide (num_games = 0) then (fs, [], Raised)
    else
      let reviews_per_game := target_new / num_games in
      let '(all_new_reviews, _, _, _) :=
        games_loop remote target_new (positive_per_game reviews_per_game)
          (negative_per_game reviews_per_game) game_ids
          [] 0 (existing_reviews g) (log g) in
      if 0 <? len all_new_reviews then
        let df_new := loaded_of <$> all_new_reviews in
        let df_final :=
          match existing_df g with
          | Some df => df ++ df_new
          | None => df_new
          end in
        (<[OUTPUT_FILE := to_csv pd df_final]> fs, all_new_reviews, Normal)
      else (fs, [], Normal).

Definition GAME_IDS : list (Z * string) := dict_of_items [
  (412020, "Insurgency Sandstorm"); (1966720, "Lethal Company");
  (553850, "HELLDIVERS 2"); (632360, "Risk of Rain 2");
  (394690, "Tower Unite"); (418370, "Rising Storm 2 Vietnam");
  (736220, "Post Void"); (1250410, "Turbo Overkill");
  (1100600, "Dusk"); (2198510, "Anger Foot");
  (1229490, "Ultrakill"); (1200570, "Prodeus");
  (1315690, "Nightmare Reaper"); (322500, "SUPERHOT");
  (1284410, "Roboquest"); (1903340, "Clair Obscur Expedition 33");
  (1086940, "Baldur's Gate 3"); (1145360, "Hades");
  (251570, "7 Days to Die"); (632470, "Disco Elysium");
  (1449850, "Sea of Stars"); (1113560, "Ni no Kuni");
  (1158310, "Crusader Kings III"); (230230, "Divinity Original Sin");
  (435150, "Divinity Original Sin 2"); (1151640, "Horizon Zero Dawn");
  (1817070, "Hogwarts Legacy"); (1057090, "Octopath Traveler");
  (1096530, "Octopath Traveler II"); (774361, "TROUBLESHOOTER");
  (1121910, "Yakuza Like a Dragon"); (524220, "Nier Automata");
  (1113560, "Spiritfarer"); (1332010, "Stray");
  (620, "Portal 2"); (219740, "Dont Starve");
  (367520, "Hollow Knight"); (1150690, "Omori");
  (813780, "Before Your Eyes"); (1677740, "Neon White");
  (1091500, "Cyberpunk 2077"); (319630, "Life is Strange");
  (1222690, "Life is Strange True Colors"); (532210, "Life is Strange 2");
  (1328670, "Mass Effect Legendary"); (207610, "The Walking Dead");
  (261030, "The Wolf Among Us"); (282140, "Oxenfree");
  (1274570, "Oxenfree II"); (1044720, "A Short Hike");
  (1051510, "Little Misfortune"); (2379780, "Balatro");
  (1092790, "Inscryption"); (646570, "Slay the Spire");
  (1182480, "Yu-Gi-Oh Master Duel"); (286160, "Tabletop Simulator");
  (1942280, "Griftlands"); (1284410, "Legends of Runeterra");
  (1296610, "Gordian Quest"); (1102190, "Vault of the Void");
  (1494830, "Stacklands"); (504230, "Celeste");
  (268910, "Cuphead"); (774361, "Gris");
  (420530, "OneShot"); (1070560, "Pizza Tower");
  (1276390, "The Messenger"); (1061090, "Demon Turf");
  (1089350, "Shovel Knight Dig"); (774781, "Just Shapes and Beats");
  (1116740, "Unrailed"); (588650, "Dead Cells");
  (976730, "Hades"); (250900, "Binding of Isaac Rebirth");
  (263340, "FTL Faster Than Light"); (242680, "Nuclear Throne");
  (311690, "Enter the Gungeon"); (1145350, "Rogue Legacy 2");
  (1548850, "Monster Train"); (1794680, "Vampire Survivors");
  (1966900, "Brotato"); (1490720, "Noita");
  (1240440, "Hades II"); (462770, "Crypt of the NecroDancer");
  (1205140, "Cult of the Lamb"); (1637730, "Peglin");
  (1245620, "Elden Ring"); (374320, "Dark Souls III");
  (1888160, "Lies of P"); (814380, "Sekiro");
  (1203620, "Mortal Shell"); (937010, "Salt and Sanctuary");
  (2053170, "Lords of the Fallen 2023"); (1245430, "Thymesia");
  (1283400, "Dolmen"); (1151340, "Steelrising");
  (945360, "Among Us"); (1172620, "Sea of Thieves");
  (252490, "Rust"); (438100, "VRChat");
  (555160, "Phasmophobia"); (394510, "Tower Defense Simulator");
  (2357570, "Marvel Rivals"); (1599340, "Lost Ark");
  (570, "Dota 2"); (230410, "Warframe");
  (1172470, "Apex Legends"); (238960, "Path of Exile");
  (444090, "Paladins"); (1091500, "Smite 2");
  (1085660, "Destiny 2") ].

Definition main (pd : Reader) := main_with pd GAME_IDS.

End Metacritic.

(** ** translate_only.py: TranslationPipeline *)

Module TranslateOnly.
Import Py.

Section Pipeline.

(** The columns of a row other than the review column. *)
Context {Other : Type}.

(** [html.unescape], a library function. *)
Variable unescape : string -> string.

(** The translation model behind [translate_batch]: given the batches
    translated so far and a batch, the translations, or [None] when the
    call raises. *)
Variable model : list (list string) -> list string -> option (list string).

(** A row; [review_text] is [None] for a missing value ([pd.isna]). *)
Record Row := {
  other : Other;
  review_text : option string }.

(** [re.sub(r"<[^>]+>", " ", s)], one character at a time: [tag] is
    [Some buf] while the characters [buf] follow an unmatched ["<"]. *)
Fixpoint sub_tags (tag : option (list ascii)) (cs : list ascii) : list ascii :=
  match cs, tag with
  | [], None => []
  | [], Some buf => "<"%char :: buf
  | c :: cs', None =>
      if bool_decide (c = "<"%char) then sub_tags (Some []) cs'
      else c :: sub_tags None cs'
  | c :: cs', Some buf =>
      if bool_decide (c = ">"%char) then
        match buf with
        | [] => "<"%char :: ">"%char :: sub_tags None cs'
        | _ :: _ => " "%char :: sub_tags None cs'
        end
      else sub_tags (Some (buf ++ [c])) cs'
  end.

Definition strip_html (text : string) : string :=
  let s := string_of_list_ascii (sub_tags None (list_ascii_of_string text)) in
  let s := unescape s in
  join " " (split s).

(** The body of the loop of [process_dataframe] for one row: the row
    appended to [results], and the batch sent to the model, if any. *)
Definition process_row (calls : list (list string)) (row : Row)
  : Row * list (list string) :=
  match review_text row with
  | None => (row, calls)
  | Some original_text =>
      if blank original_text then (row, calls)
      else
        let cleaned_input := strip_html original_text in
        let translated :=
          match model calls [cleaned_input] with
          | Some (t :: _) => t
          | Some [] => cleaned_input
          | None => cleaned_input
          end in
        ({| other := other row; review_text := Some translated |},
         calls ++ [[cleaned_input]])
  end.

(** [process_dataframe]: the rows of the result. *)
Fixpoint process_rows (calls : list (list string)) (df : list Row) : list Row :=
  match df with
  | [] => []
  | row :: rest =>
      let '(new_row, calls') := process_row calls row in
      new_row :: process_rows calls' rest
  end.

Definition process_dataframe (df : list Row) : list Row := process_rows [] df.

End Pipeline.

End TranslateOnly.

(** ** pipeline.py: TranslationExtractionPipeline *)

Module Pipeline.
Import Py.

Section Pipeline.

(** The constructor's word count constraints and batch size. *)
Variable min_words max_words batch_size : Z.

(** The translation model behind [translate_batch], as in
    [TranslateOnly]. *)
Variable model : list (list string) -> list string -> option (list string).

(** The summarisation model: given the texts summarised so far and a
    text, [summary[0]['summary_text']], or [None] when the call or the
    subscripting raises.  The generation arguments are the model's own. *)
Variable summarizer : list string -> string -> option string.

(** The [try] block of [extract_opinions_batch] for a text longer than
    [max_words]: the summary, truncated when still too long, or the text
    truncated when the summariser raises. *)
Definition long_opinion (sent : list string) (text : string) : string :=
  match summarizer sent text with
  | Some extracted =>
      let extracted_words := count_words extracted in
      if max_words <? extracted_words
      then join " " (slice_to max_words (split extracted))
      else extracted
  | None => join " " (slice_to max_words (split text))
  end.

(** [extract_opinions_batch], threading the texts sent to the summariser. *)
Fixpoint extract_opinions (sent : list string) (texts : list string)
  : list string * list string :=
  match texts with
  | [] => ([], sent)
  | text :: rest =>
      let word_count := count_words text in
      if (min_words <=? word_count) && (word_count <=? max_words) then
        let '(opinions, sent') := extract_opinions sent rest in (text :: opinions, sent')
      else if word_count <? min_words then
        let '(opinions, sent') := extract_opinions sent rest in (text :: opinions, sent')
      else if max_words <? word_count then
        let opinion := long_opinion sent text in
        let '(opinions, sent') := extract_opinions (sent ++ [text]) rest in
        (opinion :: opinions, sent')
      else
        let '(opinions, sent') := extract_opinions sent rest in (text :: opinions, sent')
  end.

Definition extract_opinions_batch (sent : list string) (texts : list string) : list string :=
  fst (extract_opinions sent texts).

(** One line of the JSONL output. *)
Record Result := {
  index : Z;
  original : string;
  translated : string;
  final_opinion : string;
  word_count : Z }.

Definition TRANSLATION_ERROR : string := "[TRANSLATION_ERROR]".

(** [zip(batch, translations, opinions)] with [enumerate], from [i]. *)
Fixpoint results_of (i : Z) (j : Z) (batch translations opinions : list string)
  : list Result :=
  match batch, translations, opinions with
  | o :: batch', t :: translations', p :: opinions' =>
      {| index := i + j; original := o; translated := t;
         final_opinion := p; word_count := count_words p |}
        :: results_of i (j + 1) batch' translations' opinions'
  | _, _, _ => []
  end.

(** The loop of [process_reviews] over [range(0, total, batch_size)], for
    a positive [batch_size]; [fuel] bounds the number of batches. *)
Fixpoint process_batches (fuel : nat) (i : Z) (reviews : list string)
    (calls : list (list string)) (sent : list string) : list Result :=
  match fuel, reviews with
  | O, _ => []
  | _, [] => []
  | S fuel', _ :: _ =>
      let batch := take (Z.to_nat batch_size) reviews in
      let translations :=
        match model calls batch with
        | Some ts => ts
        | None => replicate (length batch) TRANSLATION_ERROR
        end in
      let '(opinions, sent') := extract_opinions sent translations in
      results_of i 0 batch translations opinions
        ++ process_batches fuel' (i + batch_size) (drop (Z.to_nat batch_size) reviews)
             (calls ++ [batch]) sent'
  end.

(** [process_reviews]: the results list.  [None] is an exception that
    leaves the function: a zero [batch_size] makes [range] raise, and an
    empty results list makes the average of the statistics divide by
    zero.  A negative [batch_size] gives no batch at all. *)
Definition process_reviews (reviews : list string) : option (list Result) :=
  if bool_decide (batch_size = 0) then None
  else
    let results :=
      if batch_size <? 0 then []
      else process_batches (length reviews) 0 reviews [] [] in
    match results with
    | [] => None
    | _ :: _ => Some results
    end.

End Pipeline.

End Pipeline.

(** ** steam_scr.py: [main] *)

Module Steam1Main.
Import Py SteamAPI.

(** A row of [steam_reviews.csv]: the dict of [fetch_reviews_by_type]
    with the game's name and the four values of [details.get(key, None)]. *)
Record Row := {
  game_name : string;
  app_id : Z;
  price_usd : option string;
  age_rating : option string;
  game_mode : option string;
  genres : option string;
  user_id : string;
  review_text : string;
  voted_up : bool;
  votes_helpful : Z;
  votes_funny : Z;
  created : Z }.

Definition add_details (game : string) (details : option Metadata) (r : Steam1.Review)
  : Row :=
  {| game_name := game; app_id := Steam1.app_id r;
     price_usd := m_price_usd <$> details; age_rating := m_age_rating <$> details;
     game_mode := m_game_mode <$> details; genres := m_genres <$> details;
     user_id := Steam1.user_id r; review_text := Steam1.review_text r;
     voted_up := Steam1.voted_up r; votes_helpful := Steam1.votes_helpful r;
     votes_funny := Steam1.votes_funny r; created := Steam1.created r |}.

(** The loop of [main] over [GAME_IDS.items()]; each fetch may use [fuel]
    pages, and [None] says that one of them needed more. *)
Fixpoint games_loop (fuel : nat) (remote : Remote) (positive_per_game negative_per_game : Z)
    (games : list (Z * string)) (all_reviews : list Row) (lg : list Request)
  : option (list Row * list Request) :=
  match games with
  | [] => Some (all_reviews, lg)
  | (app, game) :: rest =>
      let details := appdetails remote lg app in
      pos ← Steam1.fetch_reviews_by_type fuel remote app "positive" positive_per_game lg;
      neg ← Steam1.fetch_reviews_by_type fuel remote app "negative" negative_per_game
               (Steam1.log pos);
      games_loop fuel remote positive_per_game negative_per_game rest
        (all_reviews ++ (add_details game details <$> (Steam1.reviews pos ++ Steam1.reviews neg)))
        (Steam1.log neg)
  end.

Definition OUTPUT_FILE : string := "steam_reviews.csv".

Inductive Flow := Normal | Raised.

(** [main]: the file system after the run.  [Raised] is the division by
    an empty [GAME_IDS], or the [KeyError] of [df[columns]] on the frame
    without columns that an empty [all_reviews] gives. *)
Definition main_with (fuel : nat) (game_ids : list (Z * string)) (remote : Remote)
    (fs : gmap string (list Row)) : option (gmap string (list Row) * Flow) :=
  let num_games := len game_ids in
  if bool_decide (num_games = 0) then Some (fs, Raised)
  else
    let reviews_per_game := Steam1.reviews_per_game Steam1.TOTAL_REVIEWS num_games in
    '(all_reviews, _) ←
       games_loop fuel remote (Steam1.positive_per_game reviews_per_game)
         (Steam1.negative_per_game reviews_per_game) game_ids [] [];
    match all_reviews with
    | [] => Some (fs, Raised)
    | _ :: _ => Some (<[OUTPUT_FILE := all_reviews]> fs, Normal)
    end.

(** The table of steam_scr.py is that of the Metacritic scraper. *)
Definition GAME_IDS : list (Z * string) := Metacritic.GAME_IDS.

Definition main (fuel : nat) := main_with fuel GAME_IDS.

End Steam1Main.

(** ** pipeline.py: [process_csv] *)

Module PipelineCsv.
Import Py.

Section Csv.

(** The columns of a row other than the review column. *)
Context {Other : Type}.

Variable model : list (list string) -> list string -> option (list string).
Variable summarizer : list string -> string -> option string.

(** A row of the table read; [review_text] is [None] for a missing value. *)
Record Row := {
  other : Other;
  review_text : option string }.

(** A row of the table written: the review column replaced, and the
    columns [review_text_original] and [word_count] added. *)
Record Updated := {
  kept : Other;
  new_review_text : string;
  review_text_original : option string;
  word_count : Z }.

(** The arguments that [process_csv] gives the pipeline. *)
Definition BATCH_SIZE : Z := 8.
Definition MIN_WORDS : Z := 5.
Definition MAX_WORDS : Z := 300.

(** [process_csv], from the table read: the results, and the table
    written when [output_csv] is given.  [None] is an exception that
    leaves the function: [process_reviews] raises, or the assignment to
    the review column gets a list that is not as long as the table. *)
Definition process_csv (df : list Row) (output_csv : bool)
  : option (list Pipeline.Result * option (list Updated)) :=
  let reviews := (fun row => default "" (review_text row)) <$> df in
  results ← Pipeline.process_reviews MIN_WORDS MAX_WORDS BATCH_SIZE model summarizer reviews;
  if output_csv then
    if bool_decide (length results = length df) then
      Some (results,
            Some (zip_with
                    (fun row r =>
                       {| kept := other row;
                          new_review_text := Pipeline.final_opinion r;
                          review_text_original := review_text row;
                          word_count := Pipeline.word_count r |})
                    df results))
    else None
  else Some (results, None).

End Csv.

End PipelineCsv.

(** * Properties *)

(** ** Words of a text *)

Section Words.
Import Py.

(** A word: not empty and free of white space. *)
Definition word (w : list ascii) : Prop :=
  w <> [] /\ Forall (fun c => isspace c = false) w.

Lemma split_chars_words cs : forall w,
  Forall (fun c => isspace c = false) w ->
  Forall word (split_chars w cs).
Proof.
  induction cs as [|c cs IH]; intros w Hw; simpl.
  - destruct w; constructor; [split; [done | done] | constructor].
  - destruct (isspace c) eqn:Hc.
    + destruct w as [|a w]; [apply IH; constructor|].
      constructor; [split; [done | done] | apply IH; constructor].
    + apply IH. apply Forall_app; split; [done | by constructor].
Qed.

Lemma split_chars_read w : forall acc rest,
  Forall (fun c => isspace c = false) w ->
  split_chars acc (w ++ rest) = split_chars (acc ++ w) rest.
Proof.
  induction w as [|c w IH]; intros acc rest Hw; simpl.
  - by rewrite app_nil_r.
  - inversion Hw as [|? ? Hc Hw']; subst. rewrite Hc, IH by done.
    by rewrite <- app_assoc.
Qed.

Lemma split_chars_space w c cs :
  isspace c = true -> w <> [] -> split_chars w (c :: cs) = w :: split_chars [] cs.
Proof. intros Hc Hw. simpl. rewrite Hc. by destruct w. Qed.

(** The characters of [" ".join(ws)]. *)
Fixpoint joined (ws : list (list ascii)) : list ascii :=
  match ws with
  | [] => []
  | [w] => w
  | w :: ws' => w ++ " "%char :: joined ws'
  end.

Lemma split_chars_joined ws :
  Forall word ws -> split_chars [] (joined ws) = ws.
Proof.
  induction ws as [|w ws IH]; intros Hws; [done|].
  inversion Hws as [|? ? [Hne Hw] Hws']; subst.
  destruct ws as [|w' ws].
  - simpl. rewrite <- (app_nil_r w) at 1. rewrite split_chars_read by done.
    simpl. by destruct w.
  - change (joined (w :: w' :: ws)) with (w ++ " "%char :: joined (w' :: ws)).
    rewrite split_chars_read, app_nil_l by done.
    rewrite split_chars_space by done. by rewrite IH.
Qed.

Lemma list_ascii_of_string_app s1 s2 :
  list_ascii_of_string (s1 +:+ s2) = list_ascii_of_string s1 ++ list_ascii_of_string s2.
Proof. induction s1 as [|c s1 IH]; simpl; [done | by rewrite IH]. Qed.

Lemma chars_of_join ws :
  list_ascii_of_string (join " " ws) = joined (list_ascii_of_string <$> ws).
Proof.
  unfold join. induction ws as [|w ws IH]; [done|].
  destruct ws as [|w' ws]; [done|].
  change (String.concat " " (w :: w' :: ws))
    with (w +:+ " " +:+ String.concat " " (w' :: ws)).
  rewrite !list_ascii_of_string_app, IH. done.
Qed.

Lemma chars_of_strings (ws : list (list ascii)) :
  list_ascii_of_string <$> (string_of_list_ascii <$> ws) = ws.
Proof.
  induction ws as [|w ws IH]; [done|].
  rewrite !fmap_cons, IH. by rewrite list_ascii_of_string_of_list_ascii.
Qed.

(** The words of a text read back from their [join]. *)
Lemma split_join_split (text : string) (n : nat) :
  split (join " " (take n (split text))) = take n (split text).
Proof.
  unfold split at 1. rewrite chars_of_join.
  set (ws := split_chars [] (list_ascii_of_string text)).
  assert (Hws : Forall word ws) by (apply split_chars_words; constructor).
  unfold split. fold ws.
  change (map string_of_list_ascii ws) with (string_of_list_ascii <$> ws).
  rewrite <- fmap_take, chars_of_strings, split_chars_joined; [done|].
  by apply Forall_take.
Qed.

Lemma count_words_truncated (text : string) (n : Z) :
  0 <= n -> count_words (join " " (slice_to n (split text))) <= n.
Proof.
  intros Hn. unfold slice_to. rewrite (proj2 (Z.leb_le 0 n)) by done.
  unfold count_words. rewrite split_join_split, length_take. lia.
Qed.

End Words.

(** ** A reader for the examples *)

Section Readers.
Import Py Pandas.

Definition is_digit (c : ascii) : bool :=
  let n := N_of_ascii c in ((48 <=? n) && (n <=? 57))%N.

(** A decimal numeral. *)
Definition is_numeral (cell : string) : bool :=
  match list_ascii_of_string cell with
  | [] => false
  | c :: cs => forallb is_digit (c :: cs)
  end.

Definition is_truth (cell : string) : bool :=
  bool_decide (cell = "True") || bool_decide (cell = "False").

(** The numeral without its leading zeros. *)
Fixpoint canonical (cs : list ascii) : list ascii :=
  match cs with
  | c :: (_ :: _) as cs' => if bool_decide (c = "0"%char) then canonical cs' else cs
  | _ => cs
  end.

(** pandas on the tables of the examples, whose cells are numerals short
    enough for a machine integer, truth values, missing values and texts
    that are none of these: a column of numerals is read as integers, or
    as floats when a value is missing; a column of truth values as such. *)
Definition plain_reader : Reader :=
  {| as_text := fun column =>
       negb (forallb (fun c => isna c || is_numeral c) column)
       && negb (forallb (fun c => isna c || is_truth c) column);
     to_text := fun column cell =>
       if is_numeral cell then
         string_of_list_ascii (canonical (list_ascii_of_string cell))
           +:+ (if bool_decide (NaN ∈ column) then ".0" else "")
       else cell;
     str_of := fun column cell =>
       if is_numeral cell then
         string_of_list_ascii (canonical (list_ascii_of_string cell))
           +:+ (if existsb isna column then ".0" else "")
       else cell |}.

End Readers.

(** ** The quota planner *)

Section Planner.
Import Py Pandas SteamAPI Steam3.

(** A persisted row of [game] by [user], voted up or down. *)
Definition row_of (game user : string) (up : bool) : Review :=
  {| game_name := game; app_id := 1; price_usd := "N/A"; age_rating := "N/A";
     game_mode := "N/A"; genres := "N/A"; user_id := user;
     review_text := "a fine game with plenty to do"; voted_up := up;
     votes_helpful := 0; votes_funny := 0; created := 0 |}.

Lemma scrape_by_type_zero remote app game rtype md tr lg :
  scrape_by_type remote app game rtype 0 md tr lg = Some ([], tr, lg).
Proof. reflexivity. Qed.

(** C3.  The planner of steam_scr3.py computes, per category,
    [needed = max(0, target - current)] with the category target
    [target_per_game // 2]: the result is never negative, a game at or
    above its target gets 0, a game needing nothing in both categories is
    skipped without a request, and so is a fetch whose quota is 0.  With
    target 10 and three positive, no negative rows persisted, the planner
    answers positive 2, negative 5. *)
Theorem calculate_needed_spec (s : Scraper) (game : string) :
  let n := calculate_needed s game in
  need_positive n = Z.max 0 (target_pos s - current_positive n) /\
  need_negative n = Z.max 0 (target_neg s - current_negative n) /\
  (current_positive n, current_negative n) = current s game /\
  0 <= need_positive n /\ 0 <= need_negative n /\
  (target_pos s <= current_positive n -> need_positive n = 0) /\
  (target_neg s <= current_negative n -> need_negative n = 0) /\
  (need_positive n = 0 -> need_negative n = 0 ->
   forall remote app lg, scrape_game remote app game s lg = Some ([], s, lg)) /\
  (forall remote app rtype md tr lg,
     scrape_by_type remote app game rtype 0 md tr lg = Some ([], tr, lg)) /\
  calculate_needed
    (init (Some (read_csv plain_reader
                   [row_of "Hades" "u1" true; row_of "Hades" "u2" true;
                    row_of "Hades" "u3" true])) 10) "Hades"
  = {| need_positive := 2; need_negative := 5;
       current_positive := 3; current_negative := 0 |}.
Proof.
  cbv zeta. unfold calculate_needed; simpl.
  destruct (current s game) as [p q] eqn:Hc; simpl.
  split; [done|]. split; [done|]. split; [done|].
  split; [lia|]. split; [lia|]. split; [lia|]. split; [lia|].
  split; [|split; [intros; apply scrape_by_type_zero | by vm_compute]].
  intros Hp Hn remote app lg. unfold scrape_game, calculate_needed; simpl.
  rewrite Hc; simpl. rewrite Hp, Hn. reflexivity.
Qed.

(** C6, as the code has it.  steam_scr.py and the Metacritic scraper give
    the positive category [total // 2] and the negative one the rest, so
    the two quotas sum back to the total; steam_scr3.py gives both
    categories [total // 2], which sums to the total less its remainder
    modulo 2. *)
Theorem split_of_total (total : Z) :
  Steam1.positive_per_game total = total / 2 /\
  Steam1.negative_per_game total = total - total / 2 /\
  Steam1.positive_per_game total + Steam1.negative_per_game total = total /\
  Metacritic.positive_per_game total + Metacritic.negative_per_game total = total /\
  forall existing,
    let s := init existing total in
    target_pos s = total / 2 /\ target_neg s = total / 2 /\
    target_pos s + target_neg s = total - total mod 2.
Proof.
  unfold Steam1.negative_per_game, Steam1.positive_per_game,
    Metacritic.negative_per_game, Metacritic.positive_per_game.
  split; [done|]. split; [done|]. split; [lia|]. split; [lia|].
  intros existing. cbv zeta. unfold target_pos, target_neg.
  replace (target_per_game (init existing total)) with total by (by destruct existing).
  pose proof (Z.div_mod total 2 ltac:(lia)) as H. lia.
Qed.

(** C6, as stated, fails for steam_scr3.py: with total 11 the two category
    targets are 5 and 5. *)
Lemma split_of_total_odd_cex :
  target_pos (init None 11) + target_neg (init None 11) <> 11 /\
  need_positive (calculate_needed (init None 11) "Hades")
    + need_negative (calculate_needed (init None 11) "Hades") = 10.
Proof. split; [by vm_compute | reflexivity]. Qed.

End Planner.

(** ** Opinion extraction and translation fallbacks *)

Section Opinions.
Import Py Pipeline.

Lemma long_opinion_bound max_words summarizer sent text :
  0 <= max_words ->
  count_words (long_opinion max_words summarizer sent text) <= max_words.
Proof.
  intros Hmax. unfold long_opinion.
  destruct (summarizer sent text) as [extracted|].
  - destruct (max_words <? count_words extracted) eqn:Hlong.
    + by apply count_words_truncated.
    + by apply Z.ltb_ge.
  - by apply count_words_truncated.
Qed.

Lemma extract_opinions_each min_words max_words summarizer texts : forall sent,
  0 <= max_words -> min_words <= max_words ->
  Forall2
    (fun text opinion =>
       count_words opinion <= max_words /\
       (count_words text <= max_words -> opinion = text) /\
       (max_words < count_words text ->
        exists sent', opinion = long_opinion max_words summarizer sent' text))
    texts (fst (extract_opinions min_words max_words summarizer sent texts)).
Proof.
  intros sent Hmax Hmin. revert sent.
  induction texts as [|text rest IH]; intros sent; [constructor|].
  simpl.
  destruct ((min_words <=? count_words text) && (count_words text <=? max_words))
    eqn:Hin.
  { specialize (IH sent).
    destruct (extract_opinions min_words max_words summarizer sent rest) as [os sent'].
    apply andb_true_iff in Hin as [_ Hle%Z.leb_le].
    constructor; [|exact IH]. split; [done|]. split; [done | lia]. }
  destruct (count_words text <? min_words) eqn:Hshort.
  { specialize (IH sent).
    destruct (extract_opinions min_words max_words summarizer sent rest) as [os sent'].
    apply Z.ltb_lt in Hshort.
    constructor; [|exact IH]. split; [lia|]. split; [done | lia]. }
  destruct (max_words <? count_words text) eqn:Hlong.
  { specialize (IH (sent ++ [text])).
    destruct (extract_opinions min_words max_words summarizer (sent ++ [text]) rest)
      as [os sent'].
    apply Z.ltb_lt in Hlong.
    constructor; [|exact IH]. split; [by apply long_opinion_bound|].
    split; [lia | by exists sent]. }
  apply Z.ltb_ge in Hshort, Hlong.
  apply andb_false_iff in Hin as [Hin%Z.leb_gt | Hin%Z.leb_gt]; lia.
Qed.

(** C10, as the code has it.  When [max_words] is not negative and
    [min_words] does not exceed it, every text returned by
    [extract_opinions_batch] has at most [max_words] words: a text of at
    most [max_words] words is returned unchanged, a longer one is replaced
    by its summary, cut to its first [max_words] words when still too
    long, or by its own first [max_words] words when the summariser
    raises. *)
Theorem extract_opinions_bounded min_words max_words summarizer sent texts :
  0 <= max_words -> min_words <= max_words ->
  Forall2
    (fun text opinion =>
       count_words opinion <= max_words /\
       (count_words text <= max_words -> opinion = text) /\
       (max_words < count_words text ->
        exists sent', opinion = long_opinion max_words summarizer sent' text))
    texts (extract_opinions_batch min_words max_words summarizer sent texts).
Proof. intros. by apply extract_opinions_each. Qed.

(** The bound of C10 at [min_words = 1], [max_words = 2], with a summariser
    that always raises. *)
Lemma extract_opinions_bounded_witness :
  Forall2
    (fun text opinion =>
       count_words opinion <= 2 /\
       (count_words text <= 2 -> opinion = text) /\
       (2 < count_words text ->
        exists sent', opinion = long_opinion 2 (fun _ _ => None) sent' text))
    ["good game"; "far too long a review"]
    (extract_opinions_batch 1 2 (fun _ _ => None) [] ["good game"; "far too long a review"]).
Proof. apply (extract_opinions_bounded 1 2 (fun _ _ => None) []); lia. Defined.

(** C10, as stated, fails when [min_words] exceeds [max_words]: with
    [min_words = 10] and [max_words = 5] a text of seven words is below
    the minimum, so it is kept as it is, seven words long. *)
Lemma extract_opinions_bounded_cex :
  extract_opinions_batch 10 5 (fun _ _ => None) [] ["one two three four five six seven"]
    = ["one two three four five six seven"] /\
  ~ Forall (fun opinion => count_words opinion <= 5)
      (extract_opinions_batch 10 5 (fun _ _ => None) []
         ["one two three four five six seven"]).
Proof.
  split; [reflexivity|]. intros H. inversion H as [|? ? Hc _]; subst.
  vm_compute in Hc. by apply Hc.
Qed.

End Opinions.

(** ** The identity tracker *)

Section Fresh.

(** [fresh tr ks tr']: the keys [ks] were added to the tracker [tr] one
    after the other, each absent when it was added, giving [tr']. *)
Definition fresh (tr : gset (string * string)) (ks : list (string * string))
    (tr' : gset (string * string)) : Prop :=
  tr' = list_to_set ks ∪ tr /\ NoDup ks /\ forall k, k ∈ ks -> k ∉ tr.

Lemma fresh_nil tr : fresh tr [] tr.
Proof. split; [set_solver | split; [constructor | set_solver]]. Qed.

Lemma fresh_one tr k : k ∉ tr -> fresh tr [k] ({[ k ]} ∪ tr).
Proof.
  intros Hk. split; [set_solver|]. split; [apply NoDup_singleton|].
  intros k' Hk'. apply list_elem_of_singleton in Hk'. by subst.
Qed.

Lemma fresh_app tr ks1 tr1 ks2 tr2 :
  fresh tr ks1 tr1 -> fresh tr1 ks2 tr2 -> fresh tr (ks1 ++ ks2) tr2.
Proof.
  intros (-> & Hn1 & Hf1) (-> & Hn2 & Hf2). split; [|split].
  - rewrite list_to_set_app_L. set_solver.
  - apply NoDup_app. split; [done|]. split; [|done].
    intros k Hk1 Hk2. apply (Hf2 k Hk2). set_solver.
  - intros k [Hk|Hk]%elem_of_app; [by apply Hf1|].
    specialize (Hf2 k Hk). set_solver.
Qed.

Lemma fresh_subseteq tr ks tr' : fresh tr ks tr' -> tr ⊆ tr'.
Proof. intros (-> & _). set_solver. Qed.

Lemma fresh_elem tr ks tr' k : fresh tr ks tr' -> k ∈ ks -> k ∈ tr'.
Proof. intros (-> & _) Hk. set_solver. Qed.

(** Rows whose keys are all tracked, followed by fresh ones, have no
    repeated key. *)
Lemma fresh_NoDup tr ks tr' old :
  fresh tr ks tr' -> NoDup old -> (forall k, k ∈ old -> k ∈ tr) ->
  forall sub, sublist sub ks -> NoDup (old ++ sub).
Proof.
  intros (_ & Hn & Hf) Hold Hin sub Hsub. apply NoDup_app.
  split; [done|]. split; [|exact (sublist_NoDup _ _ Hn Hsub)].
  intros k Hk1 Hk2. apply (Hf k); [|by apply Hin].
  by eapply elem_of_sublist.
Qed.

End Fresh.

(** ** The Metacritic collector *)

Section MetacriticFacts.
Import Py Pandas Metacritic.

(** The identity key of a scraped review of [game], and of a row. *)
Definition skey (game : string) (r : Scraped) : string * string := (s_author r, game).
Definition rkey (r : Row) : string * string := (author r, game_name r).

(** What the sentiment filter lets through. *)
Definition accepted_as (sentiment : string) (r : Scraped) : Prop :=
  (sentiment = "positive" -> 7 <= s_user_score r) /\
  (sentiment = "negative" -> s_user_score r <= 4).

Lemma scan_divs_skip game sentiment num d rest st score :
  sentiment = "positive" \/ sentiment = "negative" ->
  rd_score d = Some score -> 4 < score < 7 ->
  scan_divs game sentiment num (d :: rest) st = scan_divs game sentiment num rest st.
Proof.
  intros Hs Hd Hband. simpl. rewrite Hd.
  destruct Hs as [-> | ->]; simpl.
  - by rewrite (proj2 (Z.ltb_lt score 7)) by lia.
  - by rewrite (proj2 (Z.ltb_lt 4 score)) by lia.
Qed.

Lemma scan_divs_ext game sentiment num divs : forall st,
  exists new,
    reviews (scan_divs game sentiment num divs st) = reviews st ++ new /\
    fresh (tracker st) (skey game <$> new) (tracker (scan_divs game sentiment num divs st)) /\
    Forall (accepted_as sentiment) new.
Proof.
  induction divs as [|d rest IH]; intros st; simpl.
  { exists []. rewrite app_nil_r. split; [done|]. split; [apply fresh_nil | constructor]. }
  destruct (rd_score d) as [score|]; [|apply IH].
  destruct (bool_decide (sentiment = "positive") && (score <? 7)) eqn:Hpos; [apply IH|].
  destruct (bool_decide (sentiment = "negative") && (4 <? score)) eqn:Hneg; [apply IH|].
  destruct (rd_quote d) as [text|]; [|apply IH].
  destruct (Z.of_nat (String.length text) <=? 10); [apply IH|].
  set (who := default "Anonymous" (rd_author d)).
  destruct (is_duplicate (tracker st) who game) eqn:Hdup.
  { destruct (IH {| reviews := reviews st;
                    duplicates_skipped := duplicates_skipped st + 1;
                    tracker := tracker st |}) as (new & Hr & Hf & Ha).
    by exists new. }
  apply bool_decide_eq_false in Hdup.
  set (r := {| s_review_text := text; s_user_score := score; s_voted_up := 7 <=? score;
               s_author := who; s_date := default "N/A" (rd_date d) |}).
  assert (Hacc : accepted_as sentiment r).
  { split; intros ->; simpl in *.
    - by apply Z.ltb_ge in Hpos.
    - by apply Z.ltb_ge in Hneg. }
  match goal with |- context [scan_divs _ _ _ rest ?s] => set (st' := s) end.
  destruct (num <=? len (reviews st ++ [r])).
  - exists [r]. split; [done|]. split; [by apply fresh_one | by constructor].
  - destruct (IH st') as (new & Hr & Hf & Ha). exists (r :: new). split; [|split].
    + rewrite Hr. simpl. by rewrite <- app_assoc.
    + change (skey game <$> r :: new) with ([skey game r] ++ (skey game <$> new)).
      eapply fresh_app; [by apply fresh_one | exact Hf].
    + by constructor.
Qed.

Lemma scrape_reviews_ext remote url game sentiment num tr lg :
  exists new dups tr' lg',
    scrape_reviews_by_sentiment remote url game sentiment num tr lg = (new, dups, tr', lg') /\
    fresh tr (skey game <$> new) tr' /\ Forall (accepted_as sentiment) new.
Proof.
  unfold scrape_reviews_by_sentiment.
  destruct (user_reviews remote lg (reviews_url_of url)) as [divs|].
  - destruct (scan_divs_ext game sentiment num divs
                {| reviews := []; duplicates_skipped := 0; tracker := tr |})
      as (new & Hr & Hf & Ha).
    simpl in Hr, Hf. rewrite Hr. by eexists new, _, _, _.
  - exists [], 0, tr, (lg ++ [Get (reviews_url_of url)]).
    split; [done|]. split; [apply fresh_nil | constructor].
Qed.

(** No accepted row has a score of 5 or 6. *)
Definition off_band (r : Row) : Prop := ~ (4 < user_score r < 7).

Lemma games_loop_ext remote target_new pos neg games : forall all_new dups tr lg,
  exists new dups' tr' lg',
    games_loop remote target_new pos neg games all_new dups tr lg
      = (all_new ++ new, dups', tr', lg') /\
    fresh tr (rkey <$> new) tr' /\ Forall off_band new.
Proof.
  induction games as [|[app game] rest IH]; intros all_new dups tr lg; simpl.
  { exists [], dups, tr, lg. rewrite app_nil_r.
    split; [done|]. split; [apply fresh_nil | constructor]. }
  destruct (game_page remote lg (game_url_of game)); [|apply IH].
  destruct (scrape_reviews_ext remote (game_url_of game) game "positive" pos tr
              (lg ++ [Get (game_url_of game)]))
    as (ps & pd & tr1 & lg1 & -> & Hf1 & Ha1).
  destruct (scrape_reviews_ext remote (game_url_of game) game "negative" neg tr1 lg1)
    as (ns & nd & tr2 & lg2 & -> & Hf2 & Ha2).
  set (new := add_metadata game app <$> (ps ++ ns)).
  assert (Hk : rkey <$> new = (skey game <$> ps) ++ (skey game <$> ns)).
  { unfold new. rewrite <- list_fmap_compose, fmap_app. done. }
  assert (Hf : fresh tr (rkey <$> new) tr2).
  { rewrite Hk. by eapply fresh_app. }
  assert (Hb : Forall off_band new).
  { unfold new. rewrite Forall_fmap, Forall_app. split.
    - eapply Forall_impl; [exact Ha1|]. intros r [H _]. unfold off_band; simpl.
      specialize (H eq_refl). lia.
    - eapply Forall_impl; [exact Ha2|]. intros r [_ H]. unfold off_band; simpl.
      specialize (H eq_refl). lia. }
  destruct (target_new <=? len (all_new ++ new)).
  - by exists new, (dups + (pd + nd)), tr2, lg2.
  - destruct (IH (all_new ++ new) (dups + (pd + nd)) tr2 lg2)
      as (more & dups' & tr' & lg' & -> & Hf' & Hb').
    exists (new ++ more), dups', tr', lg'. split; [by rewrite app_assoc|].
    split; [rewrite fmap_app; by eapply fresh_app | by apply Forall_app].
Qed.

(** The pairs that [load_existing_reviews] tracks for the rows of a file. *)
Definition loaded_keys (pd : Reader) (rows : list Row) : list (string * string) :=
  tracked_pair pd (author <$> rows) (game_name <$> rows) <$> read_csv pd rows.

(** The table that [main] writes over a prior file and new rows. *)
Definition merged (pd : Reader) (prior : option (list Row)) (new : list Row) : list Row :=
  to_csv pd (default [] (read_csv pd <$> prior) ++ (loaded_of <$> new)).

Lemma load_existing_tracker pd fs :
  forall k, k ∈ existing_reviews (fst (load_existing_reviews pd fs))
            <-> k ∈ loaded_keys pd (default [] (fs !! INPUT_FILE)).
Proof.
  intros k. unfold load_existing_reviews, loaded_keys.
  destruct (fs !! INPUT_FILE) as [rows|]; simpl; [|set_solver].
  generalize (read_csv pd rows). intros df.
  set (pair := tracked_pair pd (author <$> rows) (game_name <$> rows)).
  assert (H : forall tr : gset (string * string),
             k ∈ foldl (fun tr row => {[ pair row ]} ∪ tr) tr df
             <-> k ∈ tr \/ k ∈ pair <$> df).
  { induction df as [|r df IH]; intros tr; simpl; [set_solver|].
    rewrite IH. set_solver. }
  rewrite H. set_solver.
Qed.

(** What [main] leaves behind: nothing is written unless a row was
    accepted, and then the output file holds the merged table; the keys
    of the new rows are fresh. *)
Lemma metacritic_main_shape pd game_ids remote fs :
  exists new flow,
    main_with pd game_ids remote fs
      = (if decide (new = []) then fs
         else <[OUTPUT_FILE := merged pd (fs !! INPUT_FILE) new]> fs, new, flow) /\
    (exists tr',
       fresh (existing_reviews (fst (load_existing_reviews pd fs))) (rkey <$> new) tr') /\
    Forall off_band new.
Proof.
  unfold main_with.
  destruct (load_existing_reviews pd fs) as [g n] eqn:Hload.
  assert (Hdf : existing_df g = read_csv pd <$> fs !! INPUT_FILE).
  { unfold load_existing_reviews in Hload.
    destruct (fs !! INPUT_FILE); by inversion Hload. }
  simpl fst.
  destruct (TARGET_TOTAL - n <=? 0).
  { exists [], Normal. split; [done|].
    split; [exists (existing_reviews g); apply fresh_nil | constructor]. }
  destruct (bool_decide (len game_ids = 0)).
  { exists [], Raised. split; [done|].
    split; [exists (existing_reviews g); apply fresh_nil | constructor]. }
  match goal with |- context [games_loop ?r ?t ?p ?q ?gs [] 0 ?tr ?lg] =>
    destruct (games_loop_ext r t p q gs [] 0 tr lg) as (new & d' & tr' & lg' & -> & Hf & Hb)
  end.
  simpl app. destruct new as [|r new].
  - exists [], Normal. split; [done|]. split; [by exists tr' | done].
  - exists (r :: new), Normal.
    replace (0 <? len (r :: new)) with true
      by (symmetry; apply Z.ltb_lt; unfold len; simpl; lia).
    split; [|split; [by exists tr' | done]].
    destruct (decide (r :: new = [])) as [?|_]; [done|].
    unfold merged. rewrite Hdf. by destruct (fs !! INPUT_FILE).
Qed.

End MetacriticFacts.

Section MetacriticClaims.
Import Py Pandas Metacritic.

(** C5.  In a "positive" or a "negative" fetch of the Metacritic scraper, a
    candidate whose score is 5 or 6 is skipped by the filter, no review it
    returns has such a score, and no row accepted by [main] has one. *)
Theorem neutral_band_excluded (sentiment : string) :
  sentiment = "positive" \/ sentiment = "negative" ->
  (forall game num d rest st score,
     rd_score d = Some score -> 4 < score < 7 ->
     scan_divs game sentiment num (d :: rest) st = scan_divs game sentiment num rest st) /\
  (forall remote game_url game num tr lg r,
     r ∈ (scrape_reviews_by_sentiment remote game_url game sentiment num tr lg).1.1.1 ->
     ~ (4 < s_user_score r < 7)) /\
  (forall pd game_ids remote fs r,
     r ∈ (main_with pd game_ids remote fs).1.2 -> ~ (4 < user_score r < 7)).
Proof.
  intros Hs. split; [|split].
  - intros game num d rest st score Hd Hband. by apply (scan_divs_skip _ _ _ _ _ _ score).
  - intros remote url game num tr lg r Hr.
    destruct (scrape_reviews_ext remote url game sentiment num tr lg)
      as (new & dups & tr' & lg' & E & _ & Ha).
    rewrite E in Hr. simpl in Hr.
    rewrite Forall_forall in Ha. destruct (Ha r Hr) as [Hp Hn].
    destruct Hs as [-> | ->]; [specialize (Hp eq_refl) | specialize (Hn eq_refl)]; lia.
  - intros pd game_ids remote fs r Hr.
    destruct (metacritic_main_shape pd game_ids remote fs) as (new & flow & E & _ & Hb).
    rewrite E in Hr. simpl in Hr. rewrite Forall_forall in Hb. by apply Hb.
Qed.

(** A page with one neutral and one favourable review. *)
Definition sample_page : list ReviewDiv :=
  [ {| rd_score := Some 5; rd_quote := Some "Middling, neither here nor there.";
       rd_author := Some "bob"; rd_date := Some "Jan 1, 2024" |};
    {| rd_score := Some 9; rd_quote := Some "A wonderful game, start to finish.";
       rd_author := Some "alice"; rd_date := Some "Jan 2, 2024" |} ].

Definition sample_site : Remote :=
  {| game_page := fun _ _ => true; user_reviews := fun _ _ => Some sample_page |}.

(** C5 at the "positive" fetch. *)
Lemma neutral_band_excluded_witness :
  (forall game num d rest st score,
     rd_score d = Some score -> 4 < score < 7 ->
     scan_divs game "positive" num (d :: rest) st = scan_divs game "positive" num rest st) /\
  (forall remote game_url game num tr lg r,
     r ∈ (scrape_reviews_by_sentiment remote game_url game "positive" num tr lg).1.1.1 ->
     ~ (4 < s_user_score r < 7)) /\
  (forall pd game_ids remote fs r,
     r ∈ (main_with pd game_ids remote fs).1.2 -> ~ (4 < user_score r < 7)).
Proof. apply (neutral_band_excluded "positive"). by left. Defined.

(** The prior table of the failing run of C2: 2,499 rows. *)
Definition nearly_full : gmap string (list Row) :=
  {[ INPUT_FILE :=
       replicate 2499
         {| game_name := "Hades"; app_id := 1145360; author := "carol";
            review_text := "Could not put it down."; user_score := 10;
            voted_up := true; date := "Jan 3, 2024" |} ]}.

(** C2 fails on the Metacritic scraper.  With 2,499 rows persisted the
    planner of [main] gives both categories a quota of 0, and
    [scrape_reviews_by_sentiment] called with [num_reviews = 0] still
    returns the first acceptable review of the page: the test that stops
    the loop comes after the append.  The run accepts one row for the
    first game against a quota of 0. *)
Theorem metacritic_quota_exceeded :
  positive_per_game ((TARGET_TOTAL - 2499) / len GAME_IDS) = 0 /\
  negative_per_game ((TARGET_TOTAL - 2499) / len GAME_IDS) = 0 /\
  len (scrape_reviews_by_sentiment sample_site
         (game_url_of "Insurgency Sandstorm") "Insurgency Sandstorm" "positive" 0 ∅ []).1.1.1
    = 1 /\
  (main plain_reader sample_site nearly_full).1.2
    = [ {| game_name := "Insurgency Sandstorm"; app_id := 412020; author := "alice";
           review_text := "A wonderful game, start to finish."; user_score := 9;
           voted_up := true; date := "Jan 2, 2024" |} ].
Proof. by vm_compute. Qed.

End MetacriticClaims.

(** ** The Steam collector of steam_scr3.py *)

Section Steam3Facts.
Import Py Pandas SteamAPI Steam3.

(** The identity key of a row. *)
Definition key (r : Review) : string * string := (user_id r, game_name r).

(** The row [r] was built from the raw review [raw]. *)
Definition from_raw (raw : RawReview) (r : Review) : Prop :=
  rr_steamid raw = Some (user_id r) /\ rr_voted_up raw = Some (voted_up r).

(** [raw] is in a page that [remote] serves for [app] and [rtype]. *)
Definition served (remote : Remote) (app : Z) (rtype : string) (raw : RawReview) : Prop :=
  exists lg c ok batch next,
    appreviews remote lg {| q_app_id := app; q_review_type := rtype; q_cursor := c |}
      = Page ok batch next /\ raw ∈ batch.

(** Where an accepted row comes from. *)
Definition origin (remote : Remote) (app : Z) (game rtype : string) (r : Review) : Prop :=
  game_name r = game /\ app_id r = app /\
  exists raw, served remote app rtype raw /\ from_raw raw r.

Lemma len_app {A} (l1 l2 : list A) : len (l1 ++ l2) = len l1 + len l2.
Proof. unfold len. rewrite length_app. lia. Qed.

Lemma len_nonneg {A} (l : list A) : 0 <= len l.
Proof. unfold len. lia. Qed.

Lemma process_batch_ext game app md n batch : forall st,
  exists new,
    reviews (process_batch game app md n batch st).1 = reviews st ++ new /\
    fresh (tracker st) (key <$> new) (tracker (process_batch game app md n batch st).1) /\
    Forall (fun r => game_name r = game /\ app_id r = app /\
                     exists raw, raw ∈ batch /\ from_raw raw r) new /\
    cursor (process_batch game app md n batch st).1 = cursor st /\
    pages_checked (process_batch game app md n batch st).1 = pages_checked st /\
    log (process_batch game app md n batch st).1 = log st /\
    (len (reviews st) < n -> len (reviews st ++ new) <= n).
Proof.
  induction batch as [|raw rest IH]; intros st.
  { exists []. simpl. rewrite app_nil_r.
    split; [done|]. split; [apply fresh_nil|]. split; [constructor|].
    repeat split; lia. }
  assert (Hstop : exists new : list Review,
    reviews st = reviews st ++ new /\ fresh (tracker st) (key <$> new) (tracker st) /\
    Forall (fun r => game_name r = game /\ app_id r = app /\
                     exists raw0, raw0 ∈ raw :: rest /\ from_raw raw0 r) new /\
    cursor st = cursor st /\ pages_checked st = pages_checked st /\ log st = log st /\
    (len (reviews st) < n -> len (reviews st ++ new) <= n)).
  { exists []. rewrite app_nil_r.
    split; [done|]. split; [apply fresh_nil|]. split; [constructor|].
    repeat split; lia. }
  assert (Hnext : forall st0 : Loop,
    reviews st0 = reviews st -> tracker st0 = tracker st -> cursor st0 = cursor st ->
    pages_checked st0 = pages_checked st -> log st0 = log st ->
    exists new : list Review,
      reviews (process_batch game app md n rest st0).1 = reviews st ++ new /\
      fresh (tracker st) (key <$> new) (tracker (process_batch game app md n rest st0).1) /\
      Forall (fun r => game_name r = game /\ app_id r = app /\
                       exists raw0, raw0 ∈ raw :: rest /\ from_raw raw0 r) new /\
      cursor (process_batch game app md n rest st0).1 = cursor st /\
      pages_checked (process_batch game app md n rest st0).1 = pages_checked st /\
      log (process_batch game app md n rest st0).1 = log st /\
      (len (reviews st) < n -> len (reviews st ++ new) <= n)).
  { intros st0 Hr Ht Hc Hp Hl.
    destruct (IH st0) as (new & E & Hf & Ho & Hc' & Hp' & Hl' & Hb).
    exists new. rewrite <- Hr, <- Ht, <- Hc, <- Hp, <- Hl.
    split; [done|]. split; [done|]. split; [|done].
    eapply Forall_impl; [exact Ho|]. intros r (? & ? & raw0 & ? & ?).
    split; [done|]. split; [done|]. exists raw0. split; [by right | done]. }
  simpl.
  destruct (rr_steamid raw) as [user|] eqn:Hid; [|exact Hstop].
  destruct (is_duplicate (tracker st) user game) eqn:Hdup; [by apply Hnext|].
  destruct (count_words (default "" (rr_review raw)) <? 5); [by apply Hnext|].
  destruct (rr_voted_up raw) as [up|] eqn:Hup; [|exact Hstop].
  destruct (rr_votes_up raw) as [helpful|]; [|exact Hstop].
  destruct (rr_votes_funny raw) as [funny|]; [|exact Hstop].
  destruct (rr_timestamp_created raw) as [stamp|]; [|exact Hstop].
  apply bool_decide_eq_false in Hdup.
  match goal with |- context [reviews st ++ [?x]] => set (row := x) end.
  assert (Hrow : game_name row = game /\ app_id row = app /\
                 exists raw0, raw0 ∈ raw :: rest /\ from_raw raw0 row).
  { split; [done|]. split; [done|]. exists raw. split; [by left | by split]. }
  match goal with |- context [process_batch _ _ _ _ rest ?s] => set (st' := s) end.
  destruct (n <=? len (reviews st ++ [row])) eqn:Hfull.
  - exists [row]. simpl. split; [done|]. split; [by apply fresh_one|].
    split; [by constructor|]. repeat split; try done.
    intros Hlt. rewrite len_app. unfold len in *. simpl. lia.
  - apply Z.leb_gt in Hfull.
    destruct (IH st') as (new & E & Hf & Ho & Hc' & Hp' & Hl' & Hb).
    exists (row :: new). rewrite E, Hc', Hp', Hl'. simpl.
    split; [by rewrite <- app_assoc|]. split; [|split].
    + apply (fresh_app (tracker st) [key row] (tracker st') (key <$> new));
        [by apply fresh_one | exact Hf].
    + constructor; [done|].
      eapply Forall_impl; [exact Ho|]. intros r (? & ? & raw0 & ? & ?).
      split; [done|]. split; [done|]. exists raw0. split; [by right | done].
    + repeat split; try done. intros _.
      specialize (Hb Hfull). simpl in Hb. by rewrite <- app_assoc in Hb.
Qed.

Lemma scrape_pages_ext remote app game rtype n md fuel : forall st st',
  scrape_pages fuel remote app game rtype n md st = Some st' ->
  exists new extra,
    reviews st' = reviews st ++ new /\
    fresh (tracker st) (key <$> new) (tracker st') /\
    Forall (origin remote app game rtype) new /\
    log st' = log st ++ extra /\
    (len (reviews st) <= Z.max 0 n -> len (reviews st') <= Z.max 0 n).
Proof.
  assert (Hnil : forall (st st0 : Loop) extra,
    reviews st0 = reviews st -> tracker st0 = tracker st -> log st0 = log st ++ extra ->
    exists (new : list Review) extra0,
      reviews st0 = reviews st ++ new /\ fresh (tracker st) (key <$> new) (tracker st0) /\
      Forall (origin remote app game rtype) new /\ log st0 = log st ++ extra0 /\
      (len (reviews st) <= Z.max 0 n -> len (reviews st0) <= Z.max 0 n)).
  { intros st st0 extra Hr Ht Hl. exists [], extra. rewrite app_nil_r, Hr, Ht.
    split; [done|]. split; [apply fresh_nil|]. split; [constructor | done]. }
  induction fuel as [|fuel IH]; intros st st' H; simpl in H;
    destruct ((len (reviews st) <? n) && (pages_checked st <? max_pages)) eqn:Hcond;
    try discriminate;
    try (injection H as <-; apply (Hnil st st []); [done | done | by rewrite app_nil_r]).
  apply andb_true_iff in Hcond as [Hlt%Z.ltb_lt _].
  set (q := {| q_app_id := app; q_review_type := rtype; q_cursor := cursor st |}) in *.
  destruct (appreviews remote (log st) q) as [|ok batch next] eqn:Hresp.
  { injection H as <-. by apply (Hnil st _ [q]). }
  destruct ok; [|injection H as <-; by apply (Hnil st _ [q])].
  destruct batch as [|raw rest]; [injection H as <-; by apply (Hnil st _ [q])|].
  match type of H with context [process_batch _ _ _ _ _ ?s] => set (st0 := s) in * end.
  destruct (process_batch_ext game app md n (raw :: rest) st0)
    as (new & E & Hf & Ho & Hc & Hp & Hl & Hb).
  destruct (process_batch game app md n (raw :: rest) st0) as [st1 flow].
  simpl in E, Hf, Hc, Hp, Hl.
  assert (Ho' : Forall (origin remote app game rtype) new).
  { eapply Forall_impl; [exact Ho|]. intros r (? & ? & raw0 & Hin & ?).
    split; [done|]. split; [done|]. exists raw0. split; [|done].
    by exists (log st), (cursor st), true, (raw :: rest), next. }
  assert (Hlen : len (reviews st1) <= Z.max 0 n).
  { rewrite E. simpl. specialize (Hb Hlt). simpl in Hb. lia. }
  destruct flow.
  - destruct (bool_decide (default "" next = "") || bool_decide (default "" next = "*")).
    + injection H as <-. simpl. exists new, [q]. by rewrite Hl.
    + apply IH in H as (more & extra & E' & Hf' & Ho2 & Hl' & Hb'). simpl in *.
      exists (new ++ more), (q :: extra). rewrite E', E, Hl', Hl. simpl.
      split; [by rewrite <- app_assoc|]. split; [|split; [|split]].
      * rewrite fmap_app. by eapply fresh_app.
      * by apply Forall_app.
      * by rewrite <- app_assoc.
      * intros _. rewrite <- E, <- E'. apply Hb'. lia.
  - injection H as <-. exists new, [q]. by rewrite Hl.
Qed.

(** The page loop always ends, and within the page ceiling. *)
Lemma scrape_pages_total remote app game rtype n md fuel : forall st,
  (Z.to_nat (max_pages - pages_checked st) < fuel)%nat ->
  exists st',
    scrape_pages fuel remote app game rtype n md st = Some st' /\
    (length (log st') <= length (log st) + Z.to_nat (max_pages - pages_checked st))%nat.
Proof.
  induction fuel as [|fuel IH]; intros st Hfuel; [lia|]. simpl.
  destruct ((len (reviews st) <? n) && (pages_checked st <? max_pages)) eqn:Hcond;
    [|exists st; split; [done | lia]].
  apply andb_true_iff in Hcond as [_ Hpages%Z.ltb_lt].
  set (q := {| q_app_id := app; q_review_type := rtype; q_cursor := cursor st |}).
  assert (Hone : forall st0 : Loop, log st0 = log st ++ [q] ->
    exists st', Some st0 = Some st' /\
      (length (log st') <= length (log st) + Z.to_nat (max_pages - pages_checked st))%nat).
  { intros st0 Hl. exists st0. split; [done|]. rewrite Hl, length_app. simpl. lia. }
  destruct (appreviews remote (log st) q) as [|ok batch next]; [by apply Hone|].
  destruct ok; [|by apply Hone].
  destruct batch as [|raw rest]; [by apply Hone|].
  match goal with |- context [process_batch _ _ _ _ _ ?s] => set (st0 := s) end.
  destruct (process_batch_ext game app md n (raw :: rest) st0)
    as (new & _ & _ & _ & _ & Hp & Hl & _).
  destruct (process_batch game app md n (raw :: rest) st0) as [st1 flow].
  simpl in Hp, Hl.
  destruct flow; [|by apply Hone].
  destruct (bool_decide (default "" next = "") || bool_decide (default "" next = "*"));
    [by apply Hone|].
  match goal with |- context [scrape_pages fuel _ _ _ _ _ _ ?s] => set (st2 := s) end.
  destruct (IH st2) as (st' & E & Hlog).
  { simpl. rewrite Hp. lia. }
  exists st'. split; [done|]. simpl in Hlog. rewrite Hl, Hp, length_app in Hlog.
  simpl in Hlog. lia.
Qed.

(** [_scrape_by_type] returns, with keys that were fresh, within the
    quota and within the page ceiling. *)
Lemma scrape_by_type_ext remote app game rtype n md tr lg :
  exists revs tr' extra,
    scrape_by_type remote app game rtype n md tr lg = Some (revs, tr', lg ++ extra) /\
    fresh tr (key <$> revs) tr' /\
    Forall (origin remote app game rtype) revs /\
    len revs <= Z.max 0 n /\
    (length extra <= Z.to_nat max_pages)%nat.
Proof.
  unfold scrape_by_type.
  set (st := {| reviews := []; cursor := "*"; pages_checked := 0;
                duplicates_found := 0; tracker := tr; log := lg |}).
  destruct (scrape_pages_total remote app game rtype n md (S (Z.to_nat max_pages)) st)
    as (st' & E & Hlog); [simpl; lia|].
  rewrite E. simpl.
  apply scrape_pages_ext in E as (new & extra & Hr & Hf & Ho & Hl & Hb).
  simpl in Hr, Hf, Hl, Hb. exists new, (tracker st'), extra.
  rewrite Hr, Hl. split; [done|]. split; [done|]. split; [done|]. split.
  - rewrite <- Hr. apply Hb. unfold len. simpl. lia.
  - rewrite Hl, length_app in Hlog. simpl in Hlog. lia.
Qed.

Lemma scrape_game_ext remote app game s lg :
  exists pos neg s' extra,
    scrape_game remote app game s lg = Some (pos ++ neg, s', lg ++ extra) /\
    fresh (existing_reviews s) (key <$> pos ++ neg) (existing_reviews s') /\
    Forall (origin remote app game "positive") pos /\
    Forall (origin remote app game "negative") neg /\
    len pos <= need_positive (calculate_needed s game) /\
    len neg <= need_negative (calculate_needed s game) /\
    target_per_game s' = target_per_game s /\
    (forall g, current s' g =
       if decide (g = game)
       then ((current s game).1 + len pos, (current s game).2 + len neg)
       else current s g) /\
    (length extra <= 2 * Z.to_nat max_pages)%nat.
Proof.
  unfold scrape_game.
  assert (Hnp : 0 <= need_positive (calculate_needed s game))
    by (unfold calculate_needed; simpl; lia).
  assert (Hnn : 0 <= need_negative (calculate_needed s game))
    by (unfold calculate_needed; simpl; lia).
  remember (calculate_needed s game) as needed eqn:Hneeded. clear Hneeded.
  destruct (bool_decide (need_positive needed = 0) && bool_decide (need_negative needed = 0)).
  { exists [], [], s, []. simpl.
    split; [by rewrite app_nil_r|]. split; [apply fresh_nil|].
    split; [constructor|]. split; [constructor|].
    split; [unfold len; simpl; lia|]. split; [unfold len; simpl; lia|].
    split; [done|]. split; [|lia].
    intros g. destruct (decide (g = game)) as [->|]; [|done].
    destruct (current s game) as [a b]. simpl. unfold len. simpl. f_equal; lia. }
  set (md := appdetails remote lg app).
  assert (Hpos : exists pos tr1 extra1,
    (if 0 <? need_positive needed
     then scrape_by_type remote app game "positive" (need_positive needed) md
            (existing_reviews s) lg
     else Some ([], existing_reviews s, lg)) = Some (pos, tr1, lg ++ extra1) /\
    fresh (existing_reviews s) (key <$> pos) tr1 /\
    Forall (origin remote app game "positive") pos /\
    len pos <= need_positive needed /\ (length extra1 <= Z.to_nat max_pages)%nat).
  { destruct (0 <? need_positive needed).
    - destruct (scrape_by_type_ext remote app game "positive" (need_positive needed) md
                  (existing_reviews s) lg) as (pos & tr1 & e1 & E & Hf & Ho & Hb & Hl).
      exists pos, tr1, e1. split; [done|]. split; [done|]. split; [done|]. split; [lia | done].
    - exists [], (existing_reviews s), []. rewrite app_nil_r.
      split; [done|]. split; [apply fresh_nil|]. split; [constructor|].
      split; [unfold len; simpl; lia | simpl; lia]. }
  destruct Hpos as (pos & tr1 & e1 & -> & Hf1 & Ho1 & Hb1 & Hl1). simpl.
  assert (Hneg : exists neg tr2 extra2,
    (if 0 <? need_negative needed
     then scrape_by_type remote app game "negative" (need_negative needed) md
            tr1 (lg ++ e1)
     else Some ([], tr1, lg ++ e1)) = Some (neg, tr2, (lg ++ e1) ++ extra2) /\
    fresh tr1 (key <$> neg) tr2 /\
    Forall (origin remote app game "negative") neg /\
    len neg <= need_negative needed /\ (length extra2 <= Z.to_nat max_pages)%nat).
  { destruct (0 <? need_negative needed).
    - destruct (scrape_by_type_ext remote app game "negative" (need_negative needed) md
                  tr1 (lg ++ e1)) as (neg & tr2 & e2 & E & Hf & Ho & Hb & Hl).
      exists neg, tr2, e2. split; [done|]. split; [done|]. split; [done|]. split; [lia | done].
    - exists [], tr1, []. rewrite app_nil_r.
      split; [done|]. split; [apply fresh_nil|]. split; [constructor|].
      split; [unfold len; simpl; lia | simpl; lia]. }
  destruct Hneg as (neg & tr2 & e2 & -> & Hf2 & Ho2 & Hb2 & Hl2). simpl.
  eexists pos, neg, _, (e1 ++ e2). rewrite app_assoc.
  split; [reflexivity|]. simpl.
  split; [rewrite fmap_app; by eapply fresh_app|].
  split; [done|]. split; [done|]. split; [done|]. split; [done|]. split; [done|].
  split; [|rewrite length_app; change (Z.to_nat max_pages) with 50%nat in Hl1, Hl2; lia].
  intros g. unfold current. simpl.
  destruct (decide (g = game)) as [->|Hne].
  - rewrite lookup_insert_eq. by destruct (game_stats s !! game).
  - by rewrite lookup_insert_ne.
Qed.

(** Where a row collected by a run comes from. *)
Definition collected (remote : Remote) (r : Review) : Prop :=
  exists app rtype,
    (rtype = "positive" \/ rtype = "negative") /\ origin remote app (game_name r) rtype r.

(** The positive and negative rows of [game] in a table. *)
Definition tally (rows : list Review) (game : string) : Z * Z :=
  let game_data := filter (fun r => game_name r = game) rows in
  let pos_count := len (filter (fun r => voted_up r = true) game_data) in
  (pos_count, len game_data - pos_count).

Definition plus2 (a b : Z * Z) : Z * Z := (a.1 + b.1, a.2 + b.2).

(** A raw review with every field the scraper reads, a real user id, and
    the vote that its listing promises. *)
Definition well_formed (rtype : string) (raw : RawReview) : Prop :=
  (exists u, rr_steamid raw = Some u /\ u <> "N/A") /\
  rr_voted_up raw = Some (bool_decide (rtype = "positive")) /\
  is_Some (rr_votes_up raw) /\ is_Some (rr_votes_funny raw) /\
  is_Some (rr_timestamp_created raw).

Definition well_behaved (remote : Remote) : Prop :=
  forall app rtype raw,
    rtype = "positive" \/ rtype = "negative" ->
    served remote app rtype raw -> well_formed rtype raw.

Lemma origin_well_formed remote app game rtype r :
  well_behaved remote -> rtype = "positive" \/ rtype = "negative" ->
  origin remote app game rtype r ->
  game_name r = game /\ voted_up r = bool_decide (rtype = "positive") /\ user_id r <> "N/A".
Proof.
  intros Hwb Hrt (Hg & _ & raw & Hs & Hid & Hup).
  destruct (Hwb _ _ _ Hrt Hs) as ((u & Hu & Hna) & Hv & _).
  split; [done|]. split; [congruence|]. congruence.
Qed.

Lemma tally_nil g : tally [] g = (0, 0).
Proof. reflexivity. Qed.

Lemma tally_cons r rows g :
  tally (r :: rows) g =
  plus2 (if decide (game_name r = g)
         then (if voted_up r then (1, 0) else (0, 1)) else (0, 0))
        (tally rows g).
Proof.
  unfold tally, plus2. simpl. rewrite filter_cons.
  destruct (decide (game_name r = g)) as [Hg|Hg]; simpl; [|f_equal; lia].
  rewrite filter_cons. destruct (voted_up r); simpl.
  - destruct (decide (true = true)) as [_|?]; [|done]. unfold len. simpl. f_equal; lia.
  - destruct (decide (false = true)) as [?|_]; [done|]. unfold len. simpl. f_equal; lia.
Qed.

Lemma tally_app a b g : tally (a ++ b) g = plus2 (tally a g) (tally b g).
Proof.
  induction a as [|r a IH]; simpl.
  - unfold plus2, tally. simpl. done.
  - rewrite !tally_cons, IH. unfold plus2. simpl. f_equal; lia.
Qed.

Lemma tally_uniform rows game up g :
  Forall (fun r => game_name r = game /\ voted_up r = up) rows ->
  tally rows g =
  if decide (g = game) then (if up then (len rows, 0) else (0, len rows)) else (0, 0).
Proof.
  induction 1 as [|r rows [Hg Hup] _ IH].
  - rewrite tally_nil. destruct (decide (g = game)); [by destruct up | done].
  - rewrite tally_cons, IH, Hg, Hup. unfold plus2, len. simpl.
    destruct (decide (game = g)) as [<-|Hne].
    + destruct (decide (game = game)) as [_|?]; [|done].
      destruct up; simpl; f_equal; lia.
    + destruct (decide (g = game)) as [->|_]; [done|]. done.
Qed.

Lemma scrape_all_games_ext remote games : forall s lg,
  exists new s' extra,
    scrape_all_games remote games s lg = Some (new, s', lg ++ extra) /\
    fresh (existing_reviews s) (key <$> new) (existing_reviews s') /\
    Forall (collected remote) new /\
    target_per_game s' = target_per_game s /\
    (forall g, (current s g).1 <= (current s' g).1 /\ (current s g).2 <= (current s' g).2) /\
    (well_behaved remote -> forall g, current s' g = plus2 (current s g) (tally new g)) /\
    (length extra <= 2 * Z.to_nat max_pages * length games)%nat.
Proof.
  induction games as [|[app game] rest IH]; intros s lg.
  { exists [], s, []. simpl. rewrite app_nil_r.
    split; [done|]. split; [apply fresh_nil|]. split; [constructor|]. split; [done|].
    split; [intros g; lia|]. split; [|lia].
    intros _ g. unfold plus2. rewrite tally_nil. destruct (current s g). simpl. f_equal; lia. }
  simpl scrape_all_games.
  destruct (scrape_game_ext remote app game s lg)
    as (pos & neg & s1 & e1 & -> & Hf1 & Hp & Hn & _ & _ & Ht1 & Hc1 & Hl1).
  destruct (IH s1 (lg ++ e1)) as (more & s2 & e2 & E & Hf2 & Hcol & Ht2 & Hmono & Hc2 & Hl2).
  simpl. rewrite E. simpl.
  exists ((pos ++ neg) ++ more), s2, (e1 ++ e2). rewrite app_assoc.
  split; [done|]. split; [rewrite fmap_app; by eapply fresh_app|].
  split; [|split; [congruence|split; [|split]]].
  - apply Forall_app. split; [|done]. apply Forall_app. split.
    + eapply Forall_impl; [exact Hp|]. intros r Ho. exists app, "positive".
      split; [by left|]. destruct Ho as (Hg & ?). by rewrite Hg.
    + eapply Forall_impl; [exact Hn|]. intros r Ho. exists app, "negative".
      split; [by right|]. destruct Ho as (Hg & ?). by rewrite Hg.
  - intros g. destruct (Hmono g) as [H1 H2]. rewrite Hc1 in H1, H2.
    pose proof (len_nonneg pos). pose proof (len_nonneg neg).
    destruct (decide (g = game)) as [->|]; simpl in *; lia.
  - intros Hwb g. rewrite (Hc2 Hwb), Hc1, !tally_app.
    rewrite (tally_uniform pos game true g), (tally_uniform neg game false g).
    + unfold plus2. destruct (decide (g = game)) as [->|]; simpl.
      * f_equal; lia.
      * destruct (current s g). simpl. f_equal; lia.
    + eapply Forall_impl; [exact Hn|]. intros r Ho.
      destruct (origin_well_formed _ _ _ _ _ Hwb (or_intror eq_refl) Ho) as (? & ? & _).
      done.
    + eapply Forall_impl; [exact Hp|]. intros r Ho.
      destruct (origin_well_formed _ _ _ _ _ Hwb (or_introl eq_refl) Ho) as (? & ? & _).
      done.
  - rewrite length_app. change (length ((app, game) :: rest)) with (S (length rest)).
    change (Z.to_nat max_pages) with 50%nat in *. lia.
Qed.

(** The keys of the rows of a table that carry a real user id. *)
Definition real_keys (df : list Review) : list (string * string) :=
  key <$> filter (fun r => user_id r <> "N/A") df.

Lemma real_keys_app a b : real_keys (a ++ b) = real_keys a ++ real_keys b.
Proof. unfold real_keys. by rewrite filter_app, fmap_app. Qed.

(** The key that [__init__] tracks for a row as read, if it tracks one. *)
Definition loaded_key (row : Loaded) : option (string * string) :=
  match l_user_id row, l_game_name row with
  | Str user, Str game => if decide (user = "N/A") then None else Some (user, game)
  | _, _ => None
  end.

(** The keys tracked for a table as read. *)
Definition tracked (df : list Loaded) : list (string * string) := omap loaded_key df.

Lemma tracked_app a b : tracked (a ++ b) = tracked a ++ tracked b.
Proof. unfold tracked. by rewrite omap_app. Qed.

Lemma track_key tr row :
  track tr row = match loaded_key row with Some k => {[ k ]} ∪ tr | None => tr end.
Proof.
  unfold track, loaded_key.
  destruct (l_user_id row) as [user| |]; try done.
  destruct (l_game_name row) as [game| |]; try done.
  by destruct (decide (user = "N/A")).
Qed.

Lemma foldl_track_elem df : forall (tr : gset (string * string)) k,
  k ∈ foldl track tr df <-> k ∈ tr \/ k ∈ tracked df.
Proof.
  induction df as [|r df IH]; intros tr k; simpl.
  { unfold tracked. simpl. set_solver. }
  rewrite IH, track_key. unfold tracked. simpl.
  destruct (loaded_key r) as [k'|]; set_solver.
Qed.

Lemma init_tracker existing target k :
  k ∈ existing_reviews (init existing target) <-> k ∈ tracked (default [] existing).
Proof.
  destruct existing as [df|]; simpl.
  - rewrite foldl_track_elem. set_solver.
  - unfold tracked. simpl. set_solver.
Qed.

Lemma unique_elem l x : x ∈ unique l <-> x ∈ l.
Proof.
  induction l as [|y l IH]; simpl; [done|].
  rewrite !elem_of_cons, list_elem_of_filter, IH.
  destruct (decide (x = y)); naive_solver.
Qed.

Lemma foldl_insert_lookup (f : string -> Stats) l : forall (m : gmap string Stats) g,
  foldl (fun stats game => <[game := f game]> stats) m l !! g =
  if decide (g ∈ l) then Some (f g) else m !! g.
Proof.
  induction l as [|x l IH]; intros m g; simpl.
  { destruct (decide (g ∈ [])) as [H|_]; [by apply elem_of_nil in H | done]. }
  rewrite IH. destruct (decide (g ∈ l)) as [Hin|Hout].
  - destruct (decide (g ∈ x :: l)) as [_|Hn]; [done|]. exfalso. apply Hn. by right.
  - destruct (decide (g = x)) as [->|Hne].
    + rewrite lookup_insert_eq.
      destruct (decide (x ∈ x :: l)) as [_|Hn]; [done|]. exfalso. apply Hn. by left.
    + rewrite lookup_insert_ne by done.
      destruct (decide (g ∈ x :: l)) as [[?|?]%elem_of_cons|_]; done.
Qed.

(** The positive and negative rows of [game] in a table as read. *)
Definition tally_loaded (df : list Loaded) (game : string) : Z * Z :=
  (positive (stats_of df game), negative (stats_of df game)).

Lemma tally_loaded_cons r df g :
  tally_loaded (r :: df) g =
  plus2 (if decide (l_game_name r = Str g)
         then (if l_voted_up r then (1, 0) else (0, 1)) else (0, 0))
        (tally_loaded df g).
Proof.
  unfold tally_loaded, stats_of, plus2. simpl. rewrite filter_cons.
  destruct (decide (l_game_name r = Str g)) as [Hg|Hg]; simpl; [|f_equal; lia].
  rewrite filter_cons. destruct (l_voted_up r); simpl.
  - destruct (decide (true = true)) as [_|?]; [|done]. unfold len. simpl. f_equal; lia.
  - destruct (decide (false = true)) as [?|_]; [done|]. unfold len. simpl. f_equal; lia.
Qed.

Lemma tally_loaded_app a b g :
  tally_loaded (a ++ b) g = plus2 (tally_loaded a g) (tally_loaded b g).
Proof.
  induction a as [|r a IH]; simpl.
  - unfold plus2, tally_loaded. simpl. done.
  - rewrite !tally_loaded_cons, IH. unfold plus2. simpl. f_equal; lia.
Qed.

Lemma tally_loaded_absent df g : g ∉ names df -> tally_loaded df g = (0, 0).
Proof.
  induction df as [|r df IH]; intros Hg; [done|].
  rewrite tally_loaded_cons. unfold names in Hg. simpl in Hg.
  destruct (decide (l_game_name r = Str g)) as [E|_].
  - rewrite E in Hg. exfalso. apply Hg. apply list_elem_of_here.
  - rewrite IH; [done|]. intros Hin. apply Hg.
    destruct (l_game_name r); [by apply list_elem_of_further | done | done].
Qed.

Lemma init_current existing target g :
  current (init existing target) g = tally_loaded (default [] existing) g.
Proof.
  destruct existing as [df|]; [|done].
  unfold current. simpl. rewrite foldl_insert_lookup.
  destruct (decide (g ∈ unique (names df))) as [_|Hout]; [done|].
  rewrite lookup_empty. symmetry. apply tally_loaded_absent. by rewrite <- unique_elem.
Qed.

Lemma init_target existing target : target_per_game (init existing target) = target.
Proof. by destruct existing. Qed.

(** A frame of new rows is written as the rows themselves. *)
Lemma to_csv_loaded_of pd (new : list Review) : to_csv pd (loaded_of <$> new) = new.
Proof.
  unfold to_csv. cbv zeta.
  generalize (l_game_name <$> (loaded_of <$> new)) (l_price_usd <$> (loaded_of <$> new))
    (l_age_rating <$> (loaded_of <$> new)) (l_game_mode <$> (loaded_of <$> new))
    (l_genres <$> (loaded_of <$> new)) (l_user_id <$> (loaded_of <$> new))
    (l_review_text <$> (loaded_of <$> new)).
  intros c1 c2 c3 c4 c5 c6 c7.
  induction new as [|r new IH]; [done|].
  rewrite !fmap_cons, IH. f_equal. by destruct r.
Qed.

(** The table that [main] writes to [cleaned_reviews_updated.csv] over
    the rows of the prior file and the new rows. *)
Definition combined (pd : Reader) (prior new : list Review) : list Review :=
  to_csv pd (read_csv pd prior ++ (loaded_of <$> new)).

(** What [main] leaves behind. *)
Lemma steam_main_shape pd game_ids target remote answer fs :
  exists new tr',
    main_with pd game_ids target remote answer fs
      = Some (if decide (new = []) then (fs, Normal)
              else if decide (answer = "yes") then
                     match fs !! EXISTING_FILE with
                     | Some prior =>
                         (<[UPDATED_FILE := combined pd prior new]>
                            (<[OUTPUT_FILE := new]> fs), Normal)
                     | None => (<[OUTPUT_FILE := new]> fs, Raised)
                     end
                   else (<[OUTPUT_FILE := new]> fs, Normal)) /\
    (exists s' lg',
       scrape_all_games remote game_ids
         (init (read_csv pd <$> fs !! EXISTING_FILE) target) [] = Some (new, s', lg')) /\
    fresh (existing_reviews (init (read_csv pd <$> fs !! EXISTING_FILE) target))
      (key <$> new) tr' /\
    Forall (collected remote) new.
Proof.
  unfold main_with.
  destruct (scrape_all_games_ext remote game_ids
              (init (read_csv pd <$> fs !! EXISTING_FILE) target) [])
    as (new & s' & extra & E & Hf & Hcol & _).
  rewrite E. simpl. exists new, (existing_reviews s').
  split; [|split; [by eexists _, _ | done]].
  destruct new as [|r new]; [done|].
  replace (0 <? len (r :: new)) with true
    by (symmetry; apply Z.ltb_lt; unfold len; simpl; lia).
  rewrite to_csv_loaded_of.
  destruct (decide (r :: new = [])) as [?|_]; [done|].
  destruct (decide (answer = "yes")) as [->|Hno].
  - rewrite bool_decide_eq_true_2 by done.
    rewrite lookup_insert_ne by done. by destruct (fs !! EXISTING_FILE).
  - by rewrite bool_decide_eq_false_2.
Qed.

End Steam3Facts.

(** ** The persisted table *)

Section Persisted.
Import Py Pandas.

(** The keys of the rows of a Metacritic table that carry a real author. *)
Definition author_keys (df : list Metacritic.Row) : list (string * string) :=
  rkey <$> filter (fun r => Metacritic.author r <> "Anonymous") df.

(** The pairs that the Metacritic scraper tracks for the rows of a file,
    less those of the placeholder. *)
Definition signed_keys (pd : Reader) (rows : list Metacritic.Row) : list (string * string) :=
  filter (fun k => k.1 <> "Anonymous") (loaded_keys pd rows).

Lemma steam_keys_unique game_ids target remote (prior : option (list Steam3.Loaded))
    new s' lg' :
  Steam3.scrape_all_games remote game_ids (Steam3.init prior target) []
    = Some (new, s', lg') ->
  NoDup (tracked (default [] prior)) ->
  NoDup (tracked (default [] prior) ++ real_keys new).
Proof.
  intros E Hprior.
  destruct (scrape_all_games_ext remote game_ids (Steam3.init prior target) [])
    as (new0 & s0 & extra & E0 & Hf & _).
  rewrite E in E0. injection E0 as <- <- _.
  eapply fresh_NoDup; [exact Hf | done | |].
  - intros k Hk. by apply init_tracker.
  - unfold real_keys. apply fmap_sublist, sublist_filter.
Qed.

Lemma metacritic_keys_unique pd fs new tr' :
  fresh (Metacritic.existing_reviews (Metacritic.load_existing_reviews pd fs).1)
        (rkey <$> new) tr' ->
  NoDup (signed_keys pd (default [] (fs !! Metacritic.INPUT_FILE))) ->
  NoDup (signed_keys pd (default [] (fs !! Metacritic.INPUT_FILE)) ++ author_keys new).
Proof.
  intros Hf Hprior.
  eapply fresh_NoDup; [exact Hf | done | |].
  - intros k Hk. apply load_existing_tracker.
    unfold signed_keys in Hk. by apply list_elem_of_filter in Hk as [_ Hk].
  - unfold author_keys. apply fmap_sublist, sublist_filter.
Qed.

(** C1, as the code has it.  Neither collector looks for duplicates inside
    the prior table: it only keeps a new record away from the keys it
    tracks.  steam_scr3.py tracks a prior row when pandas has read its
    user id and its game name as texts and the id is not ['N/A'];
    the Metacritic scraper tracks every prior row, under [str()] of its
    author and game as read (placeholder ['Anonymous']).  When the keys
    tracked for the prior table are pairwise different, so are these keys
    together with the keys of the new rows that carry a real reviewer,
    all of which end in the table that the run writes. *)
Theorem persisted_keys_unique pd game_ids target remote answer
    (fs : gmap string (list Steam3.Review)) mgame_ids mremote
    (mfs : gmap string (list Metacritic.Row)) :
  NoDup (tracked (default [] (Steam3.read_csv pd <$> fs !! Steam3.EXISTING_FILE))) ->
  NoDup (signed_keys pd (default [] (mfs !! Metacritic.INPUT_FILE))) ->
  (exists new,
     Steam3.main_with pd game_ids target remote answer fs
       = Some (if decide (new = []) then (fs, Steam3.Normal)
               else if decide (answer = "yes") then
                      match fs !! Steam3.EXISTING_FILE with
                      | Some prior =>
                          (<[Steam3.UPDATED_FILE := combined pd prior new]>
                             (<[Steam3.OUTPUT_FILE := new]> fs), Steam3.Normal)
                      | None => (<[Steam3.OUTPUT_FILE := new]> fs, Steam3.Raised)
                      end
                    else (<[Steam3.OUTPUT_FILE := new]> fs, Steam3.Normal)) /\
     NoDup (tracked (default [] (Steam3.read_csv pd <$> fs !! Steam3.EXISTING_FILE))
              ++ real_keys new)) /\
  (exists new flow,
     Metacritic.main_with pd mgame_ids mremote mfs
       = (if decide (new = []) then mfs
          else <[Metacritic.OUTPUT_FILE := merged pd (mfs !! Metacritic.INPUT_FILE) new]> mfs,
          new, flow) /\
     NoDup (signed_keys pd (default [] (mfs !! Metacritic.INPUT_FILE)) ++ author_keys new)).
Proof.
  intros Hs Hm. split.
  - destruct (steam_main_shape pd game_ids target remote answer fs)
      as (new & tr' & E & (s' & lg' & Hrun) & _).
    exists new. split; [done|]. by eapply steam_keys_unique.
  - destruct (metacritic_main_shape pd mgame_ids mremote mfs)
      as (new & flow & E & (tr' & Hf) & _).
    exists new, flow. split; [done|]. by eapply metacritic_keys_unique.
Qed.

(** A Steam source that knows one game, with one review of it by [u2]. *)
Definition hades_only : SteamAPI.Remote :=
  SteamAPI.stateless
    (fun q =>
       if bool_decide (SteamAPI.q_app_id q = 1145360) then
         SteamAPI.Page true
           [ {| SteamAPI.rr_review := Some "plenty of fun for quite a while";
                SteamAPI.rr_steamid := Some "u2";
                SteamAPI.rr_voted_up := Some true;
                SteamAPI.rr_votes_up := Some 3;
                SteamAPI.rr_votes_funny := Some 0;
                SteamAPI.rr_timestamp_created := Some 1700000000 |} ] None
       else SteamAPI.Failed)
    (fun _ => None).

(** The row that a run against [hades_only] accepts. *)
Definition u2_row : Steam3.Review :=
  {| Steam3.game_name := "Hades"; Steam3.app_id := 1145360;
     Steam3.price_usd := "N/A"; Steam3.age_rating := "N/A";
     Steam3.game_mode := "N/A"; Steam3.genres := "N/A";
     Steam3.user_id := "u2";
     Steam3.review_text := "plenty of fun for quite a while";
     Steam3.voted_up := true; Steam3.votes_helpful := 3;
     Steam3.votes_funny := 0; Steam3.created := 1700000000 |}.

(** A prior Steam table of one row. *)
Definition one_prior : gmap string (list Steam3.Review) :=
  {[ Steam3.EXISTING_FILE := [row_of "Hades" "u1" true] ]}.

(** A prior Metacritic table of one row. *)
Definition one_row : gmap string (list Metacritic.Row) :=
  {[ Metacritic.INPUT_FILE :=
       [ {| Metacritic.game_name := "Hades"; Metacritic.app_id := 1145360;
            Metacritic.author := "carol";
            Metacritic.review_text := "Could not put it down.";
            Metacritic.user_score := 10; Metacritic.voted_up := true;
            Metacritic.date := "Jan 3, 2024" |} ] ]}.

(** C1 for a run of each collector over a prior table of one row, which
    each of them tracks. *)
Lemma persisted_keys_unique_witness :
  (exists new,
     Steam3.main_with plain_reader [(1145360, "Hades")] 104 hades_only "yes" one_prior
       = Some (if decide (new = []) then (one_prior, Steam3.Normal)
               else if decide ("yes" = "yes") then
                      match one_prior !! Steam3.EXISTING_FILE with
                      | Some prior =>
                          (<[Steam3.UPDATED_FILE := combined plain_reader prior new]>
                             (<[Steam3.OUTPUT_FILE := new]> one_prior), Steam3.Normal)
                      | None => (<[Steam3.OUTPUT_FILE := new]> one_prior, Steam3.Raised)
                      end
                    else (<[Steam3.OUTPUT_FILE := new]> one_prior, Steam3.Normal)) /\
     NoDup (tracked (default [] (Steam3.read_csv plain_reader
                                   <$> one_prior !! Steam3.EXISTING_FILE))
              ++ real_keys new)) /\
  (exists new flow,
     Metacritic.main_with plain_reader [(1145360, "Hades")] sample_site one_row
       = (if decide (new = []) then one_row
          else <[Metacritic.OUTPUT_FILE :=
                   merged plain_reader (one_row !! Metacritic.INPUT_FILE) new]> one_row,
          new, flow) /\
     NoDup (signed_keys plain_reader (default [] (one_row !! Metacritic.INPUT_FILE))
              ++ author_keys new)).
Proof.
  apply (persisted_keys_unique plain_reader [(1145360, "Hades")] 104 hades_only "yes"
           one_prior [(1145360, "Hades")] sample_site one_row).
  - apply (bool_decide_unpack _). by vm_compute.
  - apply (bool_decide_unpack _). by vm_compute.
Defined.

(** The prior table of the counterexample to C1: the same user twice. *)
Definition twice : gmap string (list Steam3.Review) :=
  {[ Steam3.EXISTING_FILE := [row_of "Hades" "u1" true; row_of "Hades" "u1" false] ]}.

(** C1, as stated, fails: a prior table that already holds a (reviewer,
    game) pair twice is written back with both rows, followed by the new
    one. *)
Lemma persisted_keys_unique_cex :
  (Steam3.main plain_reader hades_only "yes" twice
     ≫= fun out => (fun rows : list Steam3.Review => key <$> rows)
                     <$> out.1 !! Steam3.UPDATED_FILE)
    = Some [("u1", "Hades"); ("u1", "Hades"); ("u2", "Hades")] /\
  Forall (fun k => k.1 <> "N/A") [("u1", "Hades"); ("u1", "Hades"); ("u2", "Hades")] /\
  ~ NoDup [("u1", "Hades"); ("u1", "Hades"); ("u2", "Hades")].
Proof.
  split; [vm_compute; reflexivity|]. split.
  - apply (bool_decide_unpack _). by vm_compute.
  - intros H. apply (bool_decide_pack _) in H. by vm_compute in H.
Qed.

(** A Steam source that knows one game, with one review of it by a user
    whose id is a numeral, as the ids of Steam are. *)
Definition numbered : SteamAPI.Remote :=
  SteamAPI.stateless
    (fun q =>
       if bool_decide (SteamAPI.q_app_id q = 1145360)
          && bool_decide (SteamAPI.q_review_type q = "positive") then
         SteamAPI.Page true
           [ {| SteamAPI.rr_review := Some "plenty of fun for quite a while";
                SteamAPI.rr_steamid := Some "76561198000000001";
                SteamAPI.rr_voted_up := Some true;
                SteamAPI.rr_votes_up := Some 3;
                SteamAPI.rr_votes_funny := Some 0;
                SteamAPI.rr_timestamp_created := Some 1700000000 |} ] None
       else SteamAPI.Failed)
    (fun _ => None).

(** The tracker does not know a prior row whose user id pandas has read as
    a number: the row of user 76561198000000001 for Hades is in the prior
    file, no pair is tracked for it, the review of that user for that game
    is accepted again, and the combined table holds the pair twice. *)
Lemma numeral_ids_accepted_again :
  let prior := [row_of "Hades" "76561198000000001" true] in
  tracked (Steam3.read_csv plain_reader prior) = [] /\
  (Steam3.main plain_reader numbered "yes" {[ Steam3.EXISTING_FILE := prior ]}
     ≫= fun out => (fun rows : list Steam3.Review => key <$> rows)
                     <$> out.1 !! Steam3.UPDATED_FILE)
    = Some [("76561198000000001", "Hades"); ("76561198000000001", "Hades")].
Proof. split; vm_compute; reflexivity. Qed.

End Persisted.

(** ** The accumulator and writer *)

Section Writer.
Import Py Pandas.












End Writer.

(** ** Failures of the translation model *)

Section Fallback.
Import Py.

Lemma process_rows_length {Other : Type} unescape model (df : list (@TranslateOnly.Row Other)) :
  forall calls,
    length (TranslateOnly.process_rows unescape model calls df) = length df.
Proof.
  induction df as [|row rest IH]; intros calls; simpl; [done|].
  destruct (TranslateOnly.process_row unescape model calls row) as [new_row calls'].
  simpl. by rewrite IH.
Qed.

Lemma extract_opinions_length min_words max_words summarizer texts : forall sent,
  length (Pipeline.extract_opinions min_words max_words summarizer sent texts).1
    = length texts.
Proof.
  induction texts as [|text rest IH]; intros sent; simpl; [done|].
  repeat match goal with
         | |- context [if ?b then _ else _] => destruct b
         | |- context [Pipeline.extract_opinions _ _ _ ?s rest] =>
             specialize (IH s);
             destruct (Pipeline.extract_opinions min_words max_words summarizer s rest)
         end; simpl in *; by rewrite IH.
Qed.

Lemma results_of_failed (P : string -> Prop) i batch : forall j opinions,
  length opinions = length batch -> Forall P opinions ->
  Forall2 (fun text r => Pipeline.original r = text /\
                         Pipeline.translated r = Pipeline.TRANSLATION_ERROR /\
                         Pipeline.word_count r = count_words (Pipeline.final_opinion r) /\
                         P (Pipeline.final_opinion r))
    batch
    (Pipeline.results_of i j batch
       (replicate (length batch) Pipeline.TRANSLATION_ERROR) opinions).
Proof.
  induction batch as [|text rest IH]; intros j opinions Hlen Hall; simpl; [constructor|].
  destruct opinions as [|o opinions]; [done|].
  apply Forall_cons in Hall as [Ho Hall].
  constructor; [done|]. apply IH; [by injection Hlen | done].
Qed.

(** What opinion extraction makes of the marker of a failed translation:
    the marker itself, a text of one word, unless [max_words] is below 1
    and [min_words] is not above it, when the marker goes to the
    summariser as a text that is too long. *)
Definition marker_opinion (min_words max_words : Z)
    (summarizer : list string -> string -> option string) (opinion : string) : Prop :=
  (1 <= max_words \/ 1 < min_words -> opinion = Pipeline.TRANSLATION_ERROR) /\
  (max_words < 1 -> min_words <= 1 ->
   exists sent0,
     opinion = Pipeline.long_opinion max_words summarizer sent0 Pipeline.TRANSLATION_ERROR).

Lemma extract_markers min_words max_words summarizer n : forall sent,
  Forall (marker_opinion min_words max_words summarizer)
    (Pipeline.extract_opinions min_words max_words summarizer sent
       (replicate n Pipeline.TRANSLATION_ERROR)).1.
Proof.
  induction n as [|n IH]; intros sent; [constructor|].
  cbn [replicate Pipeline.extract_opinions].
  change (count_words Pipeline.TRANSLATION_ERROR) with 1.
  assert (Hsame : marker_opinion min_words max_words summarizer Pipeline.TRANSLATION_ERROR ->
    forall s,
      Forall (marker_opinion min_words max_words summarizer)
        (let '(opinions, sent') :=
           Pipeline.extract_opinions min_words max_words summarizer s
             (replicate n Pipeline.TRANSLATION_ERROR) in
         (Pipeline.TRANSLATION_ERROR :: opinions, sent')).1).
  { intros Hm s. specialize (IH s).
    destruct (Pipeline.extract_opinions min_words max_words summarizer s
                (replicate n Pipeline.TRANSLATION_ERROR)). by constructor. }
  destruct ((min_words <=? 1) && (1 <=? max_words)) eqn:Hin.
  { apply andb_true_iff in Hin as [H1%Z.leb_le H2%Z.leb_le].
    apply Hsame. split; [done | lia]. }
  destruct (1 <? min_words) eqn:Hlow.
  { apply Z.ltb_lt in Hlow. apply Hsame. split; [done | lia]. }
  apply Z.ltb_ge in Hlow.
  destruct (max_words <? 1) eqn:Hhigh.
  - apply Z.ltb_lt in Hhigh. specialize (IH (sent ++ [Pipeline.TRANSLATION_ERROR])).
    destruct (Pipeline.extract_opinions min_words max_words summarizer
                (sent ++ [Pipeline.TRANSLATION_ERROR])
                (replicate n Pipeline.TRANSLATION_ERROR)).
    constructor; [|done]. split; [lia|]. intros _ _. by exists sent.
  - apply Z.ltb_ge in Hhigh. apply andb_false_iff in Hin as [H%Z.leb_gt|H%Z.leb_gt]; lia.
Qed.

(** C8, as the code has it.  A failure of the translation model never
    leaves the loop that called it.  In translate_only.py the row whose
    translation raised keeps the text that was sent to the model, the
    review stripped of its markup, and the rows after it are processed as
    usual.  In pipeline.py every text of the batch whose translation
    raised gets the marker [[TRANSLATION_ERROR]] as its translation, its
    original is kept beside it, and it is the marker, not the original,
    that goes through opinion extraction: the final opinion is the
    marker, one word long (or what the summariser makes of the marker,
    when the word limits leave no room for one word); the batches after
    it are processed as usual. *)
Theorem translation_failure_contained {Other : Type} unescape model calls
    (row : @TranslateOnly.Row Other) rest original
    min_words max_words batch_size model' summarizer fuel i reviews calls' sent :
  TranslateOnly.review_text row = Some original ->
  blank original = false ->
  model calls [TranslateOnly.strip_html unescape original] = None ->
  reviews <> [] ->
  model' calls' (take (Z.to_nat batch_size) reviews) = None ->
  (let cleaned := TranslateOnly.strip_html unescape original in
   TranslateOnly.process_rows unescape model calls (row :: rest)
     = {| TranslateOnly.other := TranslateOnly.other row;
          TranslateOnly.review_text := Some cleaned |}
       :: TranslateOnly.process_rows unescape model (calls ++ [[cleaned]]) rest /\
   length (TranslateOnly.process_rows unescape model calls (row :: rest))
     = length (row :: rest)) /\
  (let batch := take (Z.to_nat batch_size) reviews in
   let markers := replicate (length batch) Pipeline.TRANSLATION_ERROR in
   let extracted := Pipeline.extract_opinions min_words max_words summarizer sent markers in
   exists failed,
     Pipeline.process_batches min_words max_words batch_size model' summarizer
       (S fuel) i reviews calls' sent
     = failed ++
       Pipeline.process_batches min_words max_words batch_size model' summarizer
         fuel (i + batch_size) (drop (Z.to_nat batch_size) reviews)
         (calls' ++ [batch]) extracted.2 /\
     failed = Pipeline.results_of i 0 batch markers extracted.1 /\
     Forall2 (fun text r =>
                Pipeline.original r = text /\
                Pipeline.translated r = Pipeline.TRANSLATION_ERROR /\
                Pipeline.word_count r = count_words (Pipeline.final_opinion r) /\
                marker_opinion min_words max_words summarizer (Pipeline.final_opinion r))
       batch failed).
Proof.
  intros Htext Hblank Hfail Hne Hfail'. split.
  - cbv zeta. split; [|apply process_rows_length].
    simpl. unfold TranslateOnly.process_row. by rewrite Htext, Hblank, Hfail.
  - cbv zeta. destruct reviews as [|r reviews]; [done|].
    unfold Pipeline.process_batches; fold Pipeline.process_batches.
    rewrite Hfail'.
    set (batch := take (Z.to_nat batch_size) (r :: reviews)).
    pose proof (extract_opinions_length min_words max_words summarizer
                  (replicate (length batch) Pipeline.TRANSLATION_ERROR) sent) as Hlen.
    pose proof (extract_markers min_words max_words summarizer (length batch) sent) as Hm.
    destruct (Pipeline.extract_opinions min_words max_words summarizer sent
                (replicate (length batch) Pipeline.TRANSLATION_ERROR)) as [opinions sent'].
    simpl in Hlen, Hm |- *. rewrite length_replicate in Hlen.
    eexists. split; [reflexivity|]. split; [reflexivity|]. by apply results_of_failed.
Qed.

(** C8 for a model that always raises. *)
Lemma translation_failure_contained_witness :
  (let cleaned := TranslateOnly.strip_html (fun s => s) "<p>not   bad</p>" in
   TranslateOnly.process_rows (fun s => s) (fun _ _ => None) []
     [ {| TranslateOnly.other := 7%nat;
          TranslateOnly.review_text := Some "<p>not   bad</p>" |} ]
     = {| TranslateOnly.other := 7%nat; TranslateOnly.review_text := Some cleaned |}
       :: TranslateOnly.process_rows (fun s => s) (fun _ _ => None) ([] ++ [[cleaned]]) [] /\
   length (TranslateOnly.process_rows (fun s => s) (fun _ _ => None) []
             [ {| TranslateOnly.other := 7%nat;
                  TranslateOnly.review_text := Some "<p>not   bad</p>" |} ])
     = length [ {| TranslateOnly.other := 7%nat;
                   TranslateOnly.review_text := Some "<p>not   bad</p>" |} ]) /\
  (let batch := take (Z.to_nat 2) ["one"; "two"; "three"] in
   let markers := replicate (length batch) Pipeline.TRANSLATION_ERROR in
   let extracted := Pipeline.extract_opinions 5 300 (fun _ _ => None) [] markers in
   exists failed,
     Pipeline.process_batches 5 300 2 (fun _ _ => None) (fun _ _ => None)
       (S 2) 0 ["one"; "two"; "three"] [] []
     = failed ++
       Pipeline.process_batches 5 300 2 (fun _ _ => None) (fun _ _ => None)
         2 (0 + 2) (drop (Z.to_nat 2) ["one"; "two"; "three"]) ([] ++ [batch]) extracted.2 /\
     failed = Pipeline.results_of 0 0 batch markers extracted.1 /\
     Forall2 (fun text r =>
                Pipeline.original r = text /\
                Pipeline.translated r = Pipeline.TRANSLATION_ERROR /\
                Pipeline.word_count r = count_words (Pipeline.final_opinion r) /\
                marker_opinion 5 300 (fun _ _ => None) (Pipeline.final_opinion r))
       batch failed).
Proof.
  apply (translation_failure_contained (fun s => s) (fun _ _ => None) []
           {| TranslateOnly.other := 7%nat;
              TranslateOnly.review_text := Some "<p>not   bad</p>" |} []
           "<p>not   bad</p>" 5 300 2 (fun _ _ => None) (fun _ _ => None) 2 0
           ["one"; "two"; "three"] [] []); done.
Defined.

(** C8, as stated, fails for pipeline.py: the fallback of a failed
    translation is the marker, not the original text, and the marker is
    also the opinion that ends in the output. *)
Lemma translation_failure_contained_cex :
  Pipeline.process_reviews 5 300 8 (fun _ _ => None) (fun _ _ => None) ["bad game"]
    = Some [ {| Pipeline.index := 0; Pipeline.original := "bad game";
                Pipeline.translated := "[TRANSLATION_ERROR]";
                Pipeline.final_opinion := "[TRANSLATION_ERROR]";
                Pipeline.word_count := 1 |} ] /\
  "[TRANSLATION_ERROR]" <> "bad game".
Proof. split; [reflexivity | done]. Qed.

End Fallback.

(** ** The page loop *)

Section Pages.
Import Py SteamAPI.

(** A review too short for steam_scr.py, with every field present. *)
Definition short_review : RawReview :=
  {| rr_review := Some "meh"; rr_steamid := Some "u9"; rr_voted_up := Some true;
     rr_votes_up := Some 0; rr_votes_funny := Some 0;
     rr_timestamp_created := Some 1700000000 |}.

(** A source whose every page holds one short review and a cursor. *)
Definition endless : Remote :=
  stateless (fun _ => Page true [short_review] (Some "next")) (fun _ => None).

Lemma fetch_pages_endless app rtype fuel : forall c lg,
  Steam1.fetch_pages fuel endless app rtype 11
    {| Steam1.reviews := []; Steam1.cursor := c; Steam1.log := lg |} = None.
Proof.
  induction fuel as [|fuel IH]; intros c lg; [done|].
  simpl. apply IH.
Qed.

(** C7 fails on steam_scr.py.  Its page loop has no ceiling: against a
    source whose pages never run out and never hold a long enough review,
    [fetch_reviews_by_type] is still asking for pages after any number of
    them.  Against the same source the loop of steam_scr3.py stops after
    its 50 pages. *)
Theorem steam1_fetch_unbounded :
  (forall fuel,
     Steam1.fetch_reviews_by_type fuel endless 570 "positive" 11 [] = None) /\
  (Steam3.scrape_by_type endless 570 "Dota 2" "positive" 11 None ∅ []
     ≫= fun out => Some (out.1.1, length out.2)) = Some ([], 50%nat).
Proof.
  split; [intros fuel; apply fetch_pages_endless | vm_compute; reflexivity].
Qed.

End Pages.

(** ** A second run over the table of the first *)

Section Rerun.
Import Py Pandas SteamAPI Steam3.

(** Two states of the page loop that differ at most in the duplicates
    counted. *)
Definition same_but_counter (a b : Loop) : Prop :=
  reviews b = reviews a /\ cursor b = cursor a /\ pages_checked b = pages_checked a /\
  tracker b = tracker a /\ log b = log a.

Lemma same_but_counter_refl a : same_but_counter a a.
Proof. by repeat split. Qed.

Lemma same_but_counter_trans a b c :
  same_but_counter a b -> same_but_counter b c -> same_but_counter a c.
Proof.
  intros (?&?&?&?&?) (?&?&?&?&?). repeat split; congruence.
Qed.

Lemma process_batch_tracker game app md n batch st :
  tracker st ⊆ tracker (process_batch game app md n batch st).1.
Proof.
  destruct (process_batch_ext game app md n batch st) as (new & _ & Hf & _).
  by eapply fresh_subseteq.
Qed.

(** A review that the tracker knows, or that is too short, is passed
    over. *)
Lemma process_batch_pass game app md n raw rest st u :
  rr_steamid raw = Some u ->
  (u, game) ∈ tracker st \/ (count_words (default "" (rr_review raw)) <? 5) = true ->
  exists st', same_but_counter st st' /\
    process_batch game app md n (raw :: rest) st = process_batch game app md n rest st'.
Proof.
  intros Hu Hskip. simpl. rewrite Hu.
  destruct (is_duplicate (tracker st) u game) eqn:Hdup.
  - eexists. split; [|reflexivity]. by repeat split.
  - destruct Hskip as [Hin | Hshort].
    + apply bool_decide_eq_false in Hdup. done.
    + rewrite Hshort. exists st. split; [apply same_but_counter_refl | done].
Qed.

(** A batch that the first run went through without filling its quota
    holds nothing for a run whose tracker knows all the first run has
    accepted. *)
Lemma process_batch_replay game app md n md2 n2 rtype batch : forall st st2,
  Forall (well_formed rtype) batch ->
  len (reviews (process_batch game app md n batch st).1) < n ->
  tracker (process_batch game app md n batch st).1 ⊆ tracker st2 ->
  (process_batch game app md n batch st).2 = Normal /\
  exists st2', process_batch game app md2 n2 batch st2 = (st2', Normal) /\
               same_but_counter st2 st2'.
Proof.
  induction batch as [|raw rest IH]; intros st st2 Hwf Hlen Hsub.
  { simpl. split; [done|]. exists st2. split; [done | apply same_but_counter_refl]. }
  inversion Hwf as [|? ? ((u & Hu & Hna) & Hup & [h Hh] & [f Hf] & [c Hc]) Hwf']; subst.
  assert (Hgo : forall st1 : Loop,
    process_batch game app md n (raw :: rest) st = process_batch game app md n rest st1 ->
    (u, game) ∈ tracker st1 \/ (count_words (default "" (rr_review raw)) <? 5) = true ->
    (process_batch game app md n (raw :: rest) st).2 = Normal /\
    exists st2', process_batch game app md2 n2 (raw :: rest) st2 = (st2', Normal) /\
                 same_but_counter st2 st2').
  { intros st1 E Hskip. rewrite E in Hlen, Hsub |- *.
    destruct (process_batch_pass game app md2 n2 raw rest st2 u Hu) as (st2a & Hs & ->).
    { destruct Hskip as [Hin|Hshort]; [left | by right].
      apply Hsub. by apply process_batch_tracker. }
    destruct (IH st1 st2a Hwf' Hlen) as (Hflow & st2' & E2 & Hs').
    { destruct Hs as (_ & _ & _ & -> & _). done. }
    split; [done|]. exists st2'. split; [done|]. by eapply same_but_counter_trans. }
  assert (Hcase :
    (exists st1 : Loop,
       process_batch game app md n (raw :: rest) st = process_batch game app md n rest st1 /\
       ((u, game) ∈ tracker st1 \/ (count_words (default "" (rr_review raw)) <? 5) = true)) \/
    n <= len (reviews (process_batch game app md n (raw :: rest) st).1)).
  { simpl. rewrite Hu, Hup, Hh, Hf, Hc.
    destruct (is_duplicate (tracker st) u game) eqn:Hdup.
    { apply bool_decide_eq_true in Hdup. left. eexists. split; [reflexivity|]. by left. }
    destruct (count_words (default "" (rr_review raw)) <? 5) eqn:Hshort.
    { left. exists st. split; [done | by right]. }
    match goal with |- context [process_batch _ _ _ _ rest ?s] => set (st' := s) end.
    match goal with |- context [if ?b then (st', Normal) else _] =>
      destruct b eqn:Hfull end.
    - right. by apply Z.leb_le in Hfull.
    - left. exists st'. split; [done|]. left. simpl. set_solver. }
  destruct Hcase as [(st1 & E & Hskip) | Hfull]; [by apply (Hgo st1) | lia].
Qed.

#[local] Arguments process_batch : simpl never.

(** Against a source that has not changed, a fetch that did not fill its
    quota in the first run finds nothing in a run whose tracker knows all
    the first run has accepted: it asks for the same pages and passes
    over every review in them. *)
Lemma scrape_pages_replay srv meta app game rtype n md n2 md2 fuel : forall st st' st2,
  well_behaved (stateless srv meta) -> rtype = "positive" \/ rtype = "negative" ->
  scrape_pages fuel (stateless srv meta) app game rtype n md st = Some st' ->
  len (reviews st') < n ->
  tracker st' ⊆ tracker st2 ->
  reviews st2 = [] -> 0 < n2 ->
  cursor st2 = cursor st -> pages_checked st2 = pages_checked st ->
  exists st2',
    scrape_pages fuel (stateless srv meta) app game rtype n2 md2 st2 = Some st2' /\
    reviews st2' = [] /\ tracker st2' = tracker st2.
Proof.
  induction fuel as [|fuel IH]; intros st st' st2 Hwb Hrt H Hlen Hsub Hr2 Hn2 Hc Hp;
    pose proof (scrape_pages_ext _ _ _ _ _ _ _ _ _ H) as (new & extra & Hrev & _);
    assert (Hlt : (len (reviews st) <? n) = true)
      by (apply Z.ltb_lt; rewrite Hrev, len_app in Hlen; pose proof (len_nonneg new); lia);
    assert (Hlt2 : (len (reviews st2) <? n2) = true)
      by (rewrite Hr2; by apply Z.ltb_lt);
    simpl in H |- *; rewrite Hlt in H; rewrite Hlt2, Hp; simpl in H |- *;
    destruct (pages_checked st <? max_pages) eqn:Hpages;
    try discriminate; try (by exists st2).
  rewrite Hc.
  set (q := {| q_app_id := app; q_review_type := rtype; q_cursor := cursor st |}) in *.
  set (st20 := {| reviews := reviews st2; cursor := cursor st;
                  pages_checked := pages_checked st;
                  duplicates_found := duplicates_found st2;
                  tracker := tracker st2; log := log st2 ++ [q] |}).
  assert (Hstop : exists st2' : Loop, Some st20 = Some st2' /\
            reviews st2' = [] /\ tracker st2' = tracker st2) by (by exists st20).
  destruct (srv q) as [|ok batch next] eqn:Hresp; [exact Hstop|].
  destruct ok; [|exact Hstop].
  destruct batch as [|raw rest]; [exact Hstop|]. clear Hstop.
  assert (Hwf : Forall (well_formed rtype) (raw :: rest)).
  { apply Forall_forall. intros raw0 Hin. apply (Hwb app rtype raw0 Hrt).
    by exists [], (cursor st), true, (raw :: rest), next. }
  match type of H with context [process_batch _ _ _ _ _ ?s] => set (st0 := s) in * end.
  pose proof (process_batch_ext game app md n (raw :: rest) st0)
    as (new1 & _ & _ & _ & _ & Hp1 & _).
  pose proof (process_batch_replay game app md n md2 n2 rtype (raw :: rest) st0 st20 Hwf)
    as Hreplay.
  destruct (process_batch game app md n (raw :: rest) st0) as [st1 flow] eqn:Epb.
  simpl in Hp1, Hreplay.
  assert (Hst1 : len (reviews st1) < n /\ tracker st1 ⊆ tracker st2).
  { destruct flow.
    - destruct (bool_decide (default "" next = "") || bool_decide (default "" next = "*")).
      + injection H as <-. done.
      + apply scrape_pages_ext in H as (more & ? & Hrev' & Hf' & _). simpl in Hrev', Hf'.
        split.
        * rewrite Hrev', len_app in Hlen. pose proof (len_nonneg more). lia.
        * apply fresh_subseteq in Hf'. set_solver.
    - injection H as <-. done. }
  destruct Hst1 as [Hlen1 Hsub1].
  destruct (Hreplay Hlen1 Hsub1) as (-> & st21 & -> & Hs1 & Hs2 & Hs3 & Hs4 & Hs5).
  simpl in Hs1, Hs2, Hs3, Hs4, Hs5.
  destruct (bool_decide (default "" next = "") || bool_decide (default "" next = "*")).
  - eexists. split; [reflexivity|]. simpl. by rewrite Hs1, Hs4.
  - match goal with |- context [scrape_pages fuel _ _ _ _ _ _ ?s] => set (st2n := s) end.
    match type of H with context [scrape_pages fuel _ _ _ _ _ _ ?s] =>
      set (st1n := s) in H end.
    destruct (IH st1n st' st2n Hwb Hrt H Hlen) as (st2' & E2 & Hr2' & Ht2'); simpl.
    + by rewrite Hs4.
    + by rewrite Hs1.
    + done.
    + done.
    + by rewrite Hs3, Hp1.
    + exists st2'. split; [done|]. split; [done|]. by rewrite Ht2'.
Qed.

Lemma scrape_by_type_replay srv meta app game rtype n md n2 md2 tr lg revs tr' lg' tr2 lg2 :
  well_behaved (stateless srv meta) -> rtype = "positive" \/ rtype = "negative" ->
  scrape_by_type (stateless srv meta) app game rtype n md tr lg = Some (revs, tr', lg') ->
  len revs < n -> tr' ⊆ tr2 -> 0 < n2 ->
  exists lg2',
    scrape_by_type (stateless srv meta) app game rtype n2 md2 tr2 lg2
      = Some ([], tr2, lg2').
Proof.
  unfold scrape_by_type. intros Hwb Hrt H Hlen Hsub Hn2.
  match type of H with context [scrape_pages ?f ?r ?a ?g ?t ?k ?m ?s] =>
    destruct (scrape_pages f r a g t k m s) as [st'|] eqn:E end; [|done].
  simpl in H. injection H as <- <- <-.
  match goal with |- context [scrape_pages _ _ _ _ _ _ _ ?s] => set (st2 := s) end.
  destruct (scrape_pages_replay srv meta app game rtype n md n2 md2 _ _ st' st2 Hwb Hrt E)
    as (st2' & -> & Hr & Ht); try done.
  simpl. rewrite Hr, Ht. by eexists.
Qed.

#[local] Arguments scrape_by_type : simpl never.

Lemma current_after s game target df tr pos neg g :
  current
    {| target_per_game := target; df_existing := df;
       existing_reviews := tr;
       game_stats :=
         <[game :=
             {| positive :=
                  positive (default {| positive := 0; negative := 0 |} (game_stats s !! game))
                  + pos;
                negative :=
                  negative (default {| positive := 0; negative := 0 |} (game_stats s !! game))
                  + neg |}]> (game_stats s) |} g
  = if decide (g = game) then ((current s game).1 + pos, (current s game).2 + neg)
    else current s g.
Proof.
  unfold current. simpl. destruct (decide (g = game)) as [->|Hne].
  - rewrite lookup_insert_eq. by destruct (game_stats s !! game).
  - by rewrite lookup_insert_ne.
Qed.

(** One category of [scrape_game] in the second run: skipped, or fetched
    without result. *)
Lemma category_replay srv meta app game rtype md md2 tr lg n revs tr1 lg1 n2 tr2 lg2 :
  well_behaved (stateless srv meta) -> rtype = "positive" \/ rtype = "negative" ->
  (if 0 <? n then scrape_by_type (stateless srv meta) app game rtype n md tr lg
   else Some ([], tr, lg)) = Some (revs, tr1, lg1) ->
  0 <= n -> (0 < n2 -> len revs < n) -> tr1 ⊆ tr2 ->
  exists lg2',
    (if 0 <? n2 then scrape_by_type (stateless srv meta) app game rtype n2 md2 tr2 lg2
     else Some ([], tr2, lg2)) = Some ([], tr2, lg2').
Proof.
  intros Hwb Hrt H Hn Hlen Hsub.
  destruct (0 <? n2) eqn:Hn2; [|by eexists].
  apply Z.ltb_lt in Hn2. specialize (Hlen Hn2).
  destruct (0 <? n) eqn:Hpos.
  - by eapply scrape_by_type_replay.
  - injection H as <- <- <-. unfold len in Hlen. simpl in Hlen.
    apply Z.ltb_ge in Hpos. lia.
Qed.

Lemma scrape_game_replay srv meta app game s lg new1 s1 lg1 s2 lg2 :
  well_behaved (stateless srv meta) ->
  scrape_game (stateless srv meta) app game s lg = Some (new1, s1, lg1) ->
  target_per_game s2 = target_per_game s ->
  existing_reviews s1 ⊆ existing_reviews s2 ->
  (current s1 game).1 <= (current s2 game).1 ->
  (current s1 game).2 <= (current s2 game).2 ->
  exists s2' lg2',
    scrape_game (stateless srv meta) app game s2 lg2 = Some ([], s2', lg2') /\
    target_per_game s2' = target_per_game s2 /\
    existing_reviews s2' = existing_reviews s2 /\
    forall g, current s2' g = current s2 g.
Proof.
  intros Hwb H Ht Hsub Hp Hq. unfold scrape_game in H |- *.
  unfold calculate_needed, target_pos, target_neg in H |- *. simpl in H |- *.
  rewrite Ht.
  set (t := target_per_game s / 2) in *.
  destruct (bool_decide (Z.max 0 (t - (current s2 game).1) = 0)
            && bool_decide (Z.max 0 (t - (current s2 game).2) = 0)) eqn:Hskip2.
  { by exists s2, lg2. }
  destruct (bool_decide (Z.max 0 (t - (current s game).1) = 0)
            && bool_decide (Z.max 0 (t - (current s game).2) = 0)) eqn:Hskip1.
  { injection H as <- <- <-.
    apply andb_true_iff in Hskip1 as [H1%bool_decide_eq_true H2%bool_decide_eq_true].
    apply andb_false_iff in Hskip2 as [H3%bool_decide_eq_false | H3%bool_decide_eq_false];
      lia. }
  match type of H with
  | (?P ≫= _) = _ => destruct P as [[[pos tr1] lga]|] eqn:EP; [|done]
  end.
  simpl in H.
  match type of H with
  | (?P ≫= _) = _ => destruct P as [[[neg tr2] lgb]|] eqn:EN; [|done]
  end.
  simpl in H. injection H as <- <- <-.
  rewrite current_after in Hp, Hq. simpl in Hsub.
  destruct (decide (game = game)) as [_|?]; [|done]. simpl in Hp, Hq.
  assert (Hsub1 : tr1 ⊆ tr2).
  { destruct (0 <? Z.max 0 (t - (current s game).2)).
    - destruct (scrape_by_type_ext (stateless srv meta) app game "negative"
                  (Z.max 0 (t - (current s game).2))
                  (meta app) tr1 lga)
        as (r & tr' & e & E & Hf & _).
      rewrite EN in E. injection E as <- <- _. by eapply fresh_subseteq.
    - by injection EN as <- <- <-. }
  pose proof (len_nonneg pos). pose proof (len_nonneg neg).
  destruct (category_replay srv meta app game "positive" _
              (meta app) _ _ _ _ _ _
              (Z.max 0 (t - (current s2 game).1)) (existing_reviews s2) lg2 Hwb
              (or_introl eq_refl) EP)
    as (lg2a & ->); [lia | lia | set_solver |].
  simpl.
  destruct (category_replay srv meta app game "negative" _
              (meta app) _ _ _ _ _ _
              (Z.max 0 (t - (current s2 game).2)) (existing_reviews s2) lg2a Hwb
              (or_intror eq_refl) EN)
    as (lg2b & ->); [lia | lia | set_solver |].
  simpl. eexists _, _. split; [reflexivity|]. simpl.
  split; [done|]. split; [done|].
  intros g. rewrite current_after. unfold len. simpl.
  destruct (decide (g = game)) as [->|]; [|done].
  destruct (current s2 game). simpl. f_equal; lia.
Qed.

Lemma scrape_all_games_replay srv meta games : forall s lg new s' lg' s2 lg2,
  well_behaved (stateless srv meta) ->
  scrape_all_games (stateless srv meta) games s lg = Some (new, s', lg') ->
  target_per_game s2 = target_per_game s ->
  existing_reviews s' ⊆ existing_reviews s2 ->
  (forall g, (current s' g).1 <= (current s2 g).1 /\ (current s' g).2 <= (current s2 g).2) ->
  exists s2' lg2',
    scrape_all_games (stateless srv meta) games s2 lg2 = Some ([], s2', lg2').
Proof.
  induction games as [|[app game] rest IH]; intros s lg new s' lg' s2 lg2 Hwb H Ht Hsub Hcur.
  { by exists s2, lg2. }
  simpl in H |- *.
  destruct (scrape_game (stateless srv meta) app game s lg) as [[[n1 s1] lga]|] eqn:EG;
    [|done].
  simpl in H.
  destruct (scrape_all_games (stateless srv meta) rest s1 lga) as [[[more sf] lgb]|] eqn:ER;
    [|done].
  simpl in H. injection H as <- <- <-.
  destruct (scrape_game_ext (stateless srv meta) app game s lg)
    as (pos & neg & s1' & e1 & E1 & _ & _ & _ & _ & _ & Ht1 & _).
  rewrite EG in E1. injection E1 as _ <- _.
  destruct (scrape_all_games_ext (stateless srv meta) rest s1 lga)
    as (more' & sf' & e2 & E2 & Hf2 & _ & _ & Hmono & _).
  rewrite ER in E2. injection E2 as _ <- _.
  apply fresh_subseteq in Hf2.
  destruct (scrape_game_replay srv meta app game s lg n1 s1 lga s2 lg2 Hwb EG Ht)
    as (s2a & lg2a & -> & Hta & Htra & Hca).
  { set_solver. }
  { destruct (Hmono game), (Hcur game). lia. }
  { destruct (Hmono game), (Hcur game). lia. }
  simpl.
  destruct (IH s1 lga more sf lgb s2a lg2a Hwb ER) as (s2' & lg2' & ->).
  { congruence. }
  { by rewrite Htra. }
  { intros g. rewrite Hca. apply Hcur. }
  simpl. by eexists _, _.
Qed.

(** A row as read none of whose texts is a missing-value token. *)
Definition clean (x : Loaded) : Prop :=
  (forall u, l_user_id x = Str u -> isna u = false) /\
  (forall g, l_game_name x = Str g -> isna g = false).

Lemma read_cell_clean text cell s : read_cell text cell = Str s -> isna s = false.
Proof.
  unfold read_cell. destruct (isna cell) eqn:E; [done|].
  destruct text; [|done]. by intros [= <-].
Qed.

Lemma read_csv_clean pd rows : Forall clean (read_csv pd rows).
Proof.
  unfold read_csv. cbv zeta. apply Forall_fmap, Forall_forall. intros r _.
  split; simpl; intros ?; apply read_cell_clean.
Qed.

Lemma loaded_of_clean (new : list Review) :
  Forall (fun r => isna (user_id r) = false /\ isna (game_name r) = false) new ->
  Forall clean (loaded_of <$> new).
Proof.
  intros H. apply Forall_fmap. eapply Forall_impl; [exact H|].
  intros r [Hu Hg]. split; simpl; by intros ? [= <-].
Qed.

(** [y] holds the id, the name and the vote of [x] wherever [x] holds a
    text. *)
Definition same_texts (x y : Loaded) : Prop :=
  (forall u, l_user_id x = Str u -> l_user_id y = Str u) /\
  (forall g, l_game_name x = Str g -> l_game_name y = Str g) /\
  l_voted_up y = l_voted_up x.

(** A table written and read again, its ids and names as texts. *)
Lemma reread pd (df : list Loaded) :
  as_text pd (user_id <$> to_csv pd df) = true ->
  as_text pd (game_name <$> to_csv pd df) = true ->
  Forall clean df ->
  Forall2 same_texts df (read_csv pd (to_csv pd df)).
Proof.
  intros Hu Hg Hclean. unfold read_csv at 1. cbv zeta. rewrite Hu, Hg.
  unfold to_csv. cbv zeta.
  generalize (l_game_name <$> df) (l_price_usd <$> df) (l_age_rating <$> df)
    (l_game_mode <$> df) (l_genres <$> df) (l_user_id <$> df) (l_review_text <$> df).
  intros c1 c2 c3 c4 c5 c6 c7. rewrite <- list_fmap_compose.
  apply Forall2_fmap_r, Forall_Forall2_diag.
  eapply Forall_impl; [exact Hclean|]. intros x [Hcu Hcg].
  split; [|split; [|done]]; simpl.
  - intros u E. rewrite E. simpl. unfold read_cell. by rewrite (Hcu u E).
  - intros g E. rewrite E. simpl. unfold read_cell. by rewrite (Hcg g E).
Qed.

Lemma tracked_same df df2 k :
  Forall2 same_texts df df2 -> k ∈ tracked df -> k ∈ tracked df2.
Proof.
  induction 1 as [|x y df df2 (Hu & Hg & _) _ IH]; [done|].
  unfold tracked. simpl. intros Hk.
  assert (Hxy : forall k', loaded_key x = Some k' -> loaded_key y = Some k').
  { unfold loaded_key. intros k'.
    destruct (l_user_id x) as [u| |] eqn:Eu; try done.
    destruct (l_game_name x) as [g| |] eqn:Eg; try done.
    by rewrite (Hu u eq_refl), (Hg g eq_refl). }
  destruct (loaded_key x) as [k'|] eqn:Ex.
  - rewrite (Hxy k' eq_refl). apply elem_of_cons in Hk as [->|Hk];
      [apply list_elem_of_here | apply list_elem_of_further; by apply IH].
  - destruct (loaded_key y); [apply list_elem_of_further|]; by apply IH.
Qed.

Lemma tally_same df df2 g :
  Forall2 same_texts df df2 ->
  (tally_loaded df g).1 <= (tally_loaded df2 g).1 /\
  (tally_loaded df g).2 <= (tally_loaded df2 g).2.
Proof.
  induction 1 as [|x y df df2 (_ & Hg & Hv) _ IH]; [done|].
  rewrite !tally_loaded_cons.
  destruct (tally_loaded df g) as [p q], (tally_loaded df2 g) as [p2 q2].
  simpl in IH. unfold plus2.
  destruct (decide (l_game_name x = Str g)) as [E|_].
  - rewrite (Hg g E), Hv. destruct (decide (Str g = Str g)) as [_|?]; [|done].
    destruct (l_voted_up x); simpl; lia.
  - destruct (decide (l_game_name y = Str g)); [destruct (l_voted_up y)|]; simpl; lia.
Qed.

Lemma tracked_loaded_of (new : list Review) : tracked (loaded_of <$> new) = real_keys new.
Proof.
  unfold tracked, real_keys. induction new as [|r new IH]; [done|].
  change (omap loaded_key (loaded_of <$> r :: new))
    with (match loaded_key (loaded_of r) with
          | Some k => k :: omap loaded_key (loaded_of <$> new)
          | None => omap loaded_key (loaded_of <$> new)
          end).
  rewrite IH, filter_cons. unfold loaded_key. simpl.
  destruct (decide (user_id r = "N/A")) as [E|E].
  - by destruct (decide (user_id r <> "N/A")).
  - by destruct (decide (user_id r <> "N/A")).
Qed.

Lemma tally_loaded_of (new : list Review) g : tally_loaded (loaded_of <$> new) g = tally new g.
Proof.
  induction new as [|r new IH]; [done|].
  rewrite fmap_cons, tally_loaded_cons, tally_cons, IH. simpl.
  destruct (decide (game_name r = g)) as [->|Hne].
  - by destruct (decide (Str g = Str g)).
  - destruct (decide (Str (game_name r) = Str g)) as [[= ?]|_]; done.
Qed.

(** The table that the first run leaves for a second one: the combined
    table, or the new rows alone when there was no prior file. *)
Definition persisted (pd : Reader) (prior : option (list Review)) (new : list Review)
  : list Review :=
  match prior with
  | Some rows => combined pd rows new
  | None => new
  end.

Lemma persisted_written pd prior new :
  persisted pd prior new
  = to_csv pd (default [] (read_csv pd <$> prior) ++ (loaded_of <$> new)).
Proof. destruct prior; simpl; [done|]. by rewrite to_csv_loaded_of. Qed.

(** The table of a first run, read by a second one with its ids and names
    as texts, makes the second scraper know every key and every count of
    the first. *)
Lemma init_over_first_run pd remote game_ids target prior new s' lg' :
  well_behaved remote ->
  scrape_all_games remote game_ids (init (read_csv pd <$> prior) target) []
    = Some (new, s', lg') ->
  as_text pd (user_id <$> persisted pd prior new) = true ->
  as_text pd (game_name <$> persisted pd prior new) = true ->
  Forall (fun r => isna (user_id r) = false /\ isna (game_name r) = false) new ->
  let s2 := init (Some (read_csv pd (persisted pd prior new))) target in
  target_per_game s2 = target_per_game (init (read_csv pd <$> prior) target) /\
  existing_reviews s' ⊆ existing_reviews s2 /\
  forall g, (current s' g).1 <= (current s2 g).1 /\ (current s' g).2 <= (current s2 g).2.
Proof.
  intros Hwb H Hu Hg Hnew s2.
  destruct (scrape_all_games_ext remote game_ids (init (read_csv pd <$> prior) target) [])
    as (new0 & s0 & extra & E & Hf & Hcol & _ & _ & Hcur & _).
  rewrite H in E. injection E as <- <- _.
  set (first := default [] (read_csv pd <$> prior)) in *.
  assert (Hsame : Forall2 same_texts (first ++ (loaded_of <$> new))
                    (read_csv pd (persisted pd prior new))).
  { rewrite persisted_written in Hu, Hg |- *. fold first in Hu, Hg |- *.
    apply reread; [done | done |]. apply Forall_app. split.
    - unfold first. destruct prior; [apply read_csv_clean | constructor].
    - by apply loaded_of_clean. }
  split; [by rewrite !init_target|]. split.
  - intros k Hk. unfold s2. apply init_tracker. simpl.
    apply (tracked_same _ _ _ Hsame). rewrite tracked_app, tracked_loaded_of.
    destruct Hf as (Hf & _). rewrite Hf in Hk. apply elem_of_union in Hk as [Hk|Hk].
    + apply elem_of_app. right. apply elem_of_list_to_set in Hk.
      apply list_elem_of_fmap in Hk as (r & -> & Hr).
      unfold real_keys. apply list_elem_of_fmap_2, list_elem_of_filter. split; [|done].
      rewrite Forall_forall in Hcol. destruct (Hcol r Hr) as (app & rtype & Hrt & Ho).
      by destruct (origin_well_formed _ _ _ _ _ Hwb Hrt Ho) as (_ & _ & ?).
    + apply elem_of_app. left. by apply (init_tracker (read_csv pd <$> prior) target).
  - intros g. rewrite (Hcur Hwb). unfold s2. rewrite !init_current. simpl.
    fold first. pose proof (tally_same _ _ g Hsame) as Hle.
    rewrite tally_loaded_app, tally_loaded_of in Hle. exact Hle.
Qed.

End Rerun.

Section Idempotence.
Import Py Pandas SteamAPI Steam3.

(** C4, as the code has it.  The collector of steam_scr3.py is idempotent
    against a source that has not changed and that serves, for each
    category, complete reviews of that category by users with a real id,
    provided that pandas reads the user ids and the game names of the
    table that the first run leaves as texts, and that no new id or name
    is a missing-value token: a second run over that table accepts
    nothing, and its [main] leaves every file as it is.  The Metacritic
    scraper plans the quotas of each run anew from the rows still
    missing; what a run of it never accepts is a candidate whose
    (author, game) pair it tracks for the table it has read. *)
Theorem second_run_accepts_nothing pd srv meta game_ids target prior new s' lg' :
  well_behaved (stateless srv meta) ->
  scrape_all_games (stateless srv meta) game_ids (init (read_csv pd <$> prior) target) []
    = Some (new, s', lg') ->
  as_text pd (user_id <$> persisted pd prior new) = true ->
  as_text pd (game_name <$> persisted pd prior new) = true ->
  Forall (fun r => isna (user_id r) = false /\ isna (game_name r) = false) new ->
  (exists s2 lg2,
     scrape_all_games (stateless srv meta) game_ids
       (init (Some (read_csv pd (persisted pd prior new))) target) []
     = Some ([], s2, lg2)) /\
  (forall answer (fs2 : gmap string (list Review)),
     fs2 !! EXISTING_FILE = Some (persisted pd prior new) ->
     main_with pd game_ids target (stateless srv meta) answer fs2 = Some (fs2, Normal)) /\
  (forall mgame_ids mremote (mfs : gmap string (list Metacritic.Row)) r,
     r ∈ (Metacritic.main_with pd mgame_ids mremote mfs).1.2 ->
     rkey r ∉ loaded_keys pd (default [] (mfs !! Metacritic.INPUT_FILE))).
Proof.
  intros Hwb H Hu Hg Hnew.
  destruct (init_over_first_run _ _ _ _ _ _ _ _ Hwb H Hu Hg Hnew) as (Ht & Hsub & Hcur).
  assert (Hrun2 : exists s2 lg2,
    scrape_all_games (stateless srv meta) game_ids
      (init (Some (read_csv pd (persisted pd prior new))) target) [] = Some ([], s2, lg2)).
  { eapply scrape_all_games_replay; [exact Hwb | exact H | exact Ht | exact Hsub |].
    exact Hcur. }
  split; [exact Hrun2|]. split.
  - intros answer fs2 Hfs2. destruct Hrun2 as (s2 & lg2 & E).
    unfold main_with. rewrite Hfs2.
    change (read_csv pd <$> Some (persisted pd prior new))
      with (Some (read_csv pd (persisted pd prior new))).
    rewrite E. reflexivity.
  - intros mgame_ids mremote mfs r Hr.
    destruct (metacritic_main_shape pd mgame_ids mremote mfs)
      as (mnew & flow & E & (tr' & _ & _ & Hfresh) & _).
    rewrite E in Hr. simpl in Hr. rewrite <- load_existing_tracker.
    apply Hfresh. by apply list_elem_of_fmap_2.
Qed.

(** A source with one favourable review, listed as such. *)
Definition favourable : Request -> Response :=
  fun q =>
    if bool_decide (q_review_type q = "positive") then
      Page true
        [ {| rr_review := Some "plenty of fun for quite a while";
             rr_steamid := Some "u2"; rr_voted_up := Some true;
             rr_votes_up := Some 3; rr_votes_funny := Some 0;
             rr_timestamp_created := Some 1700000000 |} ] None
    else Failed.

Lemma favourable_well_behaved : well_behaved (stateless favourable (fun _ => None)).
Proof.
  intros app rtype raw Hrt (lg & c & ok & batch & next & E & Hin).
  simpl in E. unfold favourable in E. simpl in E.
  destruct Hrt as [-> | ->]; simpl in E; [|discriminate].
  injection E as <- <- <-. apply list_elem_of_singleton in Hin as ->.
  split; [by exists "u2"|]. split; [done|]. by repeat split; eexists.
Qed.

(** C4 for a first run over a prior table of one row that accepts the one
    review of [favourable]. *)
Lemma second_run_accepts_nothing_witness :
  (exists s2 lg2,
     scrape_all_games (stateless favourable (fun _ => None)) [(1145360, "Hades")]
       (init (Some (read_csv plain_reader
                      (persisted plain_reader (Some [row_of "Hades" "u1" true]) [u2_row])))
             104) []
     = Some ([], s2, lg2)) /\
  (forall answer (fs2 : gmap string (list Review)),
     fs2 !! EXISTING_FILE
       = Some (persisted plain_reader (Some [row_of "Hades" "u1" true]) [u2_row]) ->
     main_with plain_reader [(1145360, "Hades")] 104 (stateless favourable (fun _ => None))
       answer fs2
     = Some (fs2, Normal)) /\
  (forall mgame_ids mremote (mfs : gmap string (list Metacritic.Row)) r,
     r ∈ (Metacritic.main_with plain_reader mgame_ids mremote mfs).1.2 ->
     rkey r ∉ loaded_keys plain_reader (default [] (mfs !! Metacritic.INPUT_FILE))).
Proof.
  eapply (second_run_accepts_nothing plain_reader favourable (fun _ => None)
            [(1145360, "Hades")] 104 (Some [row_of "Hades" "u1" true]) [u2_row]).
  - exact favourable_well_behaved.
  - vm_compute. reflexivity.
  - vm_compute. reflexivity.
  - vm_compute. reflexivity.
  - repeat constructor.
Defined.

(** A Metacritic page of 26 favourable reviews by 26 authors. *)
Definition crowded_page : list Metacritic.ReviewDiv :=
  (fun i =>
     {| Metacritic.rd_score := Some 9;
        Metacritic.rd_quote := Some "A wonderful game, start to finish.";
        Metacritic.rd_author := Some (String (ascii_of_nat (65 + i)) "");
        Metacritic.rd_date := Some "Jan 2, 2024" |}) <$> seq 0 26.

(** A site that knows one game, with that page of reviews. *)
Definition celeste_only : Metacritic.Remote :=
  {| Metacritic.game_page :=
       fun _ url => bool_decide (url = "https://www.metacritic.com/game/celeste/");
     Metacritic.user_reviews := fun _ _ => Some crowded_page |}.

(** C4, as stated, fails for the Metacritic scraper.  The first run takes
    11 of the 26 reviews of the page, its quota for the category; the
    second run, over the table of the first and against the same page,
    takes 11 more. *)
Lemma second_run_accepts_nothing_cex :
  let first := Metacritic.main plain_reader celeste_only ∅ in
  let second :=
    Metacritic.main plain_reader celeste_only {[ Metacritic.INPUT_FILE := first.1.2 ]} in
  first.1.1 !! Metacritic.OUTPUT_FILE = Some first.1.2 /\
  Metacritic.author <$> first.1.2
    = ["A"; "B"; "C"; "D"; "E"; "F"; "G"; "H"; "I"; "J"; "K"] /\
  Metacritic.author <$> second.1.2
    = ["L"; "M"; "N"; "O"; "P"; "Q"; "R"; "S"; "T"; "U"; "V"] /\
  second.1.2 <> [].
Proof.
  cbv zeta. split; [vm_compute; reflexivity|]. split; [vm_compute; reflexivity|].
  split; [vm_compute; reflexivity|]. by vm_compute.
Qed.

End Idempotence.

(** ** What holds of steam_scr3.py against any source *)

Section AnySource.
Import Py SteamAPI Steam3.

(** For every source, [scrape_game] returns, and the rows it accepted for
    a category, each built from a review served for that category, are
    no more than the planner asked for. *)
Theorem steam3_quota_respected remote app game s lg :
  exists pos neg s' extra,
    scrape_game remote app game s lg = Some (pos ++ neg, s', lg ++ extra) /\
    Forall (origin remote app game "positive") pos /\
    Forall (origin remote app game "negative") neg /\
    len pos <= need_positive (calculate_needed s game) /\
    len neg <= need_negative (calculate_needed s game).
Proof.
  destruct (scrape_game_ext remote app game s lg)
    as (pos & neg & s' & extra & E & _ & Hp & Hn & Hbp & Hbn & _).
  by exists pos, neg, s', extra.
Qed.

(** For every source, [_scrape_by_type] returns after 50 page requests at
    most, with no more rows than its target. *)
Theorem steam3_page_ceiling remote app game rtype n md tr lg :
  exists revs tr' extra,
    scrape_by_type remote app game rtype n md tr lg = Some (revs, tr', lg ++ extra) /\
    (length extra <= 50)%nat /\
    len revs <= Z.max 0 n.
Proof.
  destruct (scrape_by_type_ext remote app game rtype n md tr lg)
    as (revs & tr' & extra & E & _ & _ & Hb & Hl).
  exists revs, tr', extra. split; [done|]. split; [|done].
  by change (Z.to_nat max_pages) with 50%nat in Hl.
Qed.

(** For every source, the rows accepted in a run have pairwise different
    (user, game) keys, none of them known to the tracker when the run
    began: a review that comes again on a later page is passed over. *)
Theorem steam3_run_keys_fresh remote game_ids s lg :
  exists new s' extra,
    scrape_all_games remote game_ids s lg = Some (new, s', lg ++ extra) /\
    NoDup (key <$> new) /\
    forall r, r ∈ new -> key r ∉ existing_reviews s.
Proof.
  destruct (scrape_all_games_ext remote game_ids s lg)
    as (new & s' & extra & E & (_ & Hnd & Hfresh) & _).
  exists new, s', extra. split; [done|]. split; [done|].
  intros r Hr. apply Hfresh. by apply list_elem_of_fmap_2.
Qed.

(** A page without reviews ends the fetch at once, with what was accepted
    so far: no row is added, the tracker is as it was, and no further
    page is requested. *)
Theorem empty_page_ends_fetch remote app game rtype n md fuel st next :
  len (reviews st) < n -> pages_checked st < max_pages ->
  appreviews remote (log st)
    {| q_app_id := app; q_review_type := rtype; q_cursor := cursor st |}
    = Page true [] next ->
  exists st',
    scrape_pages (S fuel) remote app game rtype n md st = Some st' /\
    reviews st' = reviews st /\ tracker st' = tracker st /\
    log st' = log st ++ [{| q_app_id := app; q_review_type := rtype;
                            q_cursor := cursor st |}].
Proof.
  intros Hn Hp Hresp. simpl.
  rewrite (proj2 (Z.ltb_lt _ _) Hn), (proj2 (Z.ltb_lt _ _) Hp), Hresp. simpl.
  by eexists.
Qed.

(** A source whose pages hold no review. *)
Definition hollow : Remote :=
  stateless (fun _ => Page true [] (Some "next")) (fun _ => None).

(** The fetch of ten reviews against [hollow] ends with its first page. *)
Lemma empty_page_ends_fetch_witness :
  exists st',
    scrape_pages (S 50) hollow 570 "Dota 2" "positive" 10 None
      {| reviews := []; cursor := "*"; pages_checked := 0; duplicates_found := 0;
         tracker := ∅; log := [] |} = Some st' /\
    reviews st' = [] /\ tracker st' = ∅ /\
    log st' = [] ++ [{| q_app_id := 570; q_review_type := "positive"; q_cursor := "*" |}].
Proof.
  apply (empty_page_ends_fetch hollow 570 "Dota 2" "positive" 10 None 50
           {| reviews := []; cursor := "*"; pages_checked := 0; duplicates_found := 0;
              tracker := ∅; log := [] |} (Some "next")); done.
Defined.

End AnySource.

(** ** More on steam_scr3.py *)

Section Steam3Setup.
Import Py Pandas SteamAPI Steam3.

Lemma length_filter_split {A} (P : A -> Prop) `{!forall x, Decision (P x)} (l : list A) :
  (length (filter P l) + length (filter (fun x => ~ P x) l) = length l)%nat.
Proof.
  induction l as [|x l IH]; [done|].
  rewrite !filter_cons. destruct (decide (P x)) as [Hp|Hp].
  - destruct (decide (~ P x)); [done|]. simpl. lia.
  - destruct (decide (~ P x)); [|done]. simpl. lia.
Qed.

Lemma filter_voted_down (l : list Review) :
  filter (fun r => ~ voted_up r = true) l = filter (fun r => voted_up r = false) l.
Proof.
  induction l as [|r l IH]; [done|].
  rewrite !filter_cons, IH. destruct (voted_up r).
  - destruct (decide (~ true = true)) as [?|_]; [done|].
    by destruct (decide (true = false)).
  - destruct (decide (~ false = true)) as [_|Hn]; [|by destruct Hn].
    by destruct (decide (false = false)).
Qed.

Lemma read_cell_str text cell s :
  read_cell text cell = Str s <-> text = true /\ isna cell = false /\ cell = s.
Proof.
  unfold read_cell. destruct (isna cell); [naive_solver|].
  destruct text; naive_solver.
Qed.

Lemma tracked_read pd (rows : list Review) user game :
  (user, game) ∈ tracked (read_csv pd rows) <->
  as_text pd (user_id <$> rows) = true /\ as_text pd (game_name <$> rows) = true /\
  isna user = false /\ isna game = false /\
  exists r, r ∈ rows /\ user_id r = user /\ game_name r = game.
Proof.
  unfold tracked, read_csv. cbv zeta.
  rewrite list_elem_of_omap. split.
  - intros (x & Hx & Hk). apply list_elem_of_fmap in Hx as (r & -> & Hr).
    unfold loaded_key in Hk. simpl in Hk.
    destruct (read_cell (as_text pd (user_id <$> rows)) (user_id r)) as [u| |] eqn:Eu;
      try done.
    destruct (read_cell (as_text pd (game_name <$> rows)) (game_name r)) as [g| |] eqn:Eg;
      try done.
    destruct (decide (u = "N/A")); [done|]. injection Hk as -> ->.
    apply read_cell_str in Eu as (Htu & Hnu & <-).
    apply read_cell_str in Eg as (Htg & Hng & <-).
    split; [done|]. split; [done|]. split; [done|]. split; [done|]. by exists r.
  - intros (Htu & Htg & Hnu & Hng & r & Hr & <- & <-).
    eexists. split; [by apply list_elem_of_fmap_2|].
    unfold loaded_key. simpl.
    rewrite (proj2 (read_cell_str _ _ (user_id r))) by done.
    rewrite (proj2 (read_cell_str _ _ (game_name r))) by done.
    destruct (decide (user_id r = "N/A")) as [E|_]; [|done].
    rewrite E in Hnu. done.
Qed.

Lemma tally_read pd (rows : list Review) game :
  tally_loaded (read_csv pd rows) game
  = if as_text pd (game_name <$> rows) && negb (isna game) then tally rows game else (0, 0).
Proof.
  unfold read_csv. cbv zeta.
  generalize (as_text pd (game_name <$> rows)) (as_text pd (price_usd <$> rows))
    (as_text pd (age_rating <$> rows)) (as_text pd (game_mode <$> rows))
    (as_text pd (genres <$> rows)) (as_text pd (user_id <$> rows))
    (as_text pd (review_text <$> rows)).
  intros tg t2 t3 t4 t5 t6 t7.
  induction rows as [|r rows IH].
  { by destruct (tg && negb (isna game)). }
  rewrite fmap_cons, tally_loaded_cons, IH. cbn [l_game_name l_voted_up].
  destruct (decide (read_cell tg (game_name r) = Str game)) as [E|E].
  - apply read_cell_str in E as (-> & Hna & <-). rewrite Hna. simpl.
    rewrite tally_cons. by destruct (decide (game_name r = game_name r)).
  - destruct (tg && negb (isna game)) eqn:Hb; [|done].
    apply andb_true_iff in Hb as [-> Hna%negb_true_iff].
    rewrite tally_cons. destruct (decide (game_name r = game)) as [<-|_]; [|done].
    exfalso. apply E. by apply read_cell_str.
Qed.

(** What [__init__] reads off the prior file.  A (user, game) pair is a
    duplicate for the new scraper exactly when some row of the file has
    that user and that game, pandas has read the user ids and the game
    names of the file as texts, and neither the user nor the game is a
    missing-value token (['N/A'] is one); so a file whose user ids are
    read as numbers makes no pair a duplicate.  The statistics of a game
    are the numbers of its rows voted up and voted down when the names
    are read as texts and the game's is no missing-value token, and zero
    both otherwise.  Without a prior file nothing is a duplicate and
    every count is zero. *)
Theorem init_reads_prior_table pd (rows : list Review) (target : Z) :
  let s := init (Some (read_csv pd rows)) target in
  target_per_game s = target /\
  (forall user game,
     is_duplicate (existing_reviews s) user game = true <->
     as_text pd (user_id <$> rows) = true /\ as_text pd (game_name <$> rows) = true /\
     isna user = false /\ isna game = false /\
     exists r, r ∈ rows /\ user_id r = user /\ game_name r = game) /\
  (as_text pd (user_id <$> rows) = false ->
   forall user game, is_duplicate (existing_reviews s) user game = false) /\
  (forall game,
     current s game
     = if as_text pd (game_name <$> rows) && negb (isna game) then
         (len (filter (fun r => voted_up r = true)
                 (filter (fun r => game_name r = game) rows)),
          len (filter (fun r => voted_up r = false)
                 (filter (fun r => game_name r = game) rows)))
       else (0, 0)) /\
  (forall user game, is_duplicate (existing_reviews (init None target)) user game = false) /\
  (forall game, current (init None target) game = (0, 0)).
Proof.
  cbv zeta.
  assert (Hdup : forall user game,
    is_duplicate (existing_reviews (init (Some (read_csv pd rows)) target)) user game = true
    <-> as_text pd (user_id <$> rows) = true /\ as_text pd (game_name <$> rows) = true /\
        isna user = false /\ isna game = false /\
        exists r, r ∈ rows /\ user_id r = user /\ game_name r = game).
  { intros user game. unfold is_duplicate. rewrite bool_decide_eq_true.
    rewrite (init_tracker (Some (read_csv pd rows)) target). apply tracked_read. }
  split; [done|]. split; [exact Hdup|]. split; [|split; [|split]].
  - intros Hnum user game.
    destruct (is_duplicate (existing_reviews (init (Some (read_csv pd rows)) target))
                user game) eqn:E; [|done].
    apply Hdup in E as (Ht & _). congruence.
  - intros game. rewrite (init_current (Some (read_csv pd rows)) target). simpl.
    rewrite tally_read. destruct (as_text pd (game_name <$> rows) && negb (isna game)); [|done].
    unfold tally. simpl. f_equal.
    set (data := filter (fun r => game_name r = game) rows).
    pose proof (length_filter_split (fun r => voted_up r = true) data) as H.
    rewrite filter_voted_down in H. unfold len. lia.
  - intros user game. unfold is_duplicate. simpl. by apply bool_decide_eq_false_2.
  - done.
Qed.

(** After [scrape_game] the plan for the game is the old plan less what
    was collected, in each category; the plan of every other game is as
    it was; and a count that was within its target stays within it. *)
Theorem scrape_game_updates_plan remote app game s lg :
  exists pos neg s' lg',
    scrape_game remote app game s lg = Some (pos ++ neg, s', lg') /\
    need_positive (calculate_needed s' game)
      = need_positive (calculate_needed s game) - len pos /\
    need_negative (calculate_needed s' game)
      = need_negative (calculate_needed s game) - len neg /\
    (forall other, other <> game -> calculate_needed s' other = calculate_needed s other) /\
    (current s' game).1 <= Z.max (current s game).1 (target_pos s) /\
    (current s' game).2 <= Z.max (current s game).2 (target_neg s).
Proof.
  destruct (scrape_game_ext remote app game s lg)
    as (pos & neg & s' & extra & E & _ & _ & _ & Hp & Hn & Ht & Hcur & _).
  exists pos, neg, s', (lg ++ extra). split; [done|].
  pose proof (len_nonneg pos). pose proof (len_nonneg neg).
  unfold calculate_needed, target_pos, target_neg in *. simpl in *.
  rewrite Ht. pose proof (Hcur game) as Hg.
  destruct (decide (game = game)) as [_|?]; [|done]. rewrite Hg. simpl.
  split; [lia|]. split; [lia|]. split; [|lia].
  intros other Hne. specialize (Hcur other).
  destruct (decide (other = game)) as [?|_]; [done|]. by rewrite Hcur.
Qed.

(** For every source a whole run ends, after at most 100 page requests
    per game of the list, and every row it returns was built from a
    review that the source served for the row's game and category. *)
Theorem scrape_all_games_ends remote game_ids s lg :
  exists new s' extra,
    scrape_all_games remote game_ids s lg = Some (new, s', lg ++ extra) /\
    (length extra <= 100 * length game_ids)%nat /\
    target_per_game s' = target_per_game s /\
    Forall (collected remote) new.
Proof.
  destruct (scrape_all_games_ext remote game_ids s lg)
    as (new & s' & extra & E & _ & Hcol & Ht & _ & _ & Hl).
  exists new, s', extra. split; [done|]. split; [|done].
  by change (Z.to_nat max_pages) with 50%nat in Hl.
Qed.

End Steam3Setup.

Section Steam3Rows.
Import Py Pandas SteamAPI Steam3.

(** What [_scrape_by_type] puts in a row besides the review's own
    fields. *)
Definition row_ok (game : string) (app : Z) (md : option Metadata) (r : Review) : Prop :=
  game_name r = game /\ app_id r = app /\
  5 <= count_words (review_text r) /\
  price_usd r = meta_get m_price_usd md /\ age_rating r = meta_get m_age_rating md /\
  game_mode r = meta_get m_game_mode md /\ genres r = meta_get m_genres md.

Lemma process_batch_rows game app md n batch : forall st,
  Forall (row_ok game app md) (reviews st) ->
  Forall (row_ok game app md) (reviews (process_batch game app md n batch st).1).
Proof.
  induction batch as [|raw rest IH]; intros st Hst; [done|]. simpl.
  destruct (rr_steamid raw) as [user|]; [|done].
  destruct (is_duplicate (tracker st) user game); [by apply IH|].
  destruct (count_words (default "" (rr_review raw)) <? 5) eqn:Hwords; [by apply IH|].
  destruct (rr_voted_up raw) as [up|]; [|done].
  destruct (rr_votes_up raw) as [helpful|]; [|done].
  destruct (rr_votes_funny raw) as [funny|]; [|done].
  destruct (rr_timestamp_created raw) as [stamp|]; [|done].
  apply Z.ltb_ge in Hwords.
  match goal with |- context [process_batch _ _ _ _ rest ?s] => set (st' := s) end.
  assert (Hst' : Forall (row_ok game app md) (reviews st')).
  { apply Forall_app. split; [done|]. constructor; [|constructor]. by repeat split. }
  match goal with |- context [if ?b then _ else _] => destruct b end; [done | by apply IH].
Qed.

Lemma scrape_pages_rows remote app game rtype n md fuel : forall st st',
  scrape_pages fuel remote app game rtype n md st = Some st' ->
  Forall (row_ok game app md) (reviews st) ->
  Forall (row_ok game app md) (reviews st').
Proof.
  induction fuel as [|fuel IH]; intros st st' H Hst; simpl in H;
    destruct ((len (reviews st) <? n) && (pages_checked st <? max_pages));
    try discriminate; try (by injection H as <-).
  match type of H with context [appreviews ?r ?l ?q] =>
    destruct (appreviews r l q) as [|ok batch next] end; [by injection H as <-|].
  destruct ok; [|by injection H as <-].
  destruct batch as [|raw rest]; [by injection H as <-|].
  match type of H with context [process_batch _ _ _ _ _ ?s] =>
    pose proof (process_batch_rows game app md n (raw :: rest) s Hst) as Hrows;
    destruct (process_batch game app md n (raw :: rest) s) as [st1 flow] end.
  simpl in Hrows. destruct flow; [|by injection H as <-].
  destruct (bool_decide (default "" next = "") || bool_decide (default "" next = "*")).
  - by injection H as <-.
  - by apply IH in H.
Qed.

(** For every source, every row that [_scrape_by_type] returns carries the
    name and id of the game, a review text of at least five words, and the
    four metadata values of the game, ['N/A'] each when the metadata fetch
    gave nothing; and the user of every returned row is a duplicate for
    the tracker that the fetch leaves behind. *)
Theorem scrape_by_type_rows remote app game rtype n md tr lg :
  exists revs tr' lg',
    scrape_by_type remote app game rtype n md tr lg = Some (revs, tr', lg') /\
    Forall (row_ok game app md) revs /\
    (md = None ->
     Forall (fun r => price_usd r = "N/A" /\ age_rating r = "N/A" /\
                      game_mode r = "N/A" /\ genres r = "N/A") revs) /\
    Forall (fun r => is_duplicate tr' (user_id r) game = true) revs.
Proof.
  destruct (scrape_by_type_ext remote app game rtype n md tr lg)
    as (revs & tr' & extra & E & Hf & Ho & _).
  exists revs, tr', (lg ++ extra). split; [done|].
  assert (Hrows : Forall (row_ok game app md) revs).
  { unfold scrape_by_type in E.
    match type of E with context [scrape_pages ?f ?r ?a ?g ?t ?k ?m ?s] =>
      destruct (scrape_pages f r a g t k m s) as [st'|] eqn:Epages end; [|done].
    simpl in E. injection E as <- _ _.
    by apply (scrape_pages_rows _ _ _ _ _ _ _ _ _ Epages). }
  split; [done|]. split.
  - intros ->. eapply Forall_impl; [exact Hrows|].
    by intros r (_ & _ & _ & ? & ? & ? & ?).
  - apply Forall_forall. intros r Hr. unfold is_duplicate.
    apply bool_decide_eq_true. eapply fresh_elem; [exact Hf|].
    rewrite Forall_forall in Ho. destruct (Ho r Hr) as (Hg & _).
    rewrite <- Hg. by apply (list_elem_of_fmap_2 key).
Qed.

(** [main] never writes the prior file, so a run of [main] over the files
    that an earlier run has left starts from the same prior table, plan
    and tracker as the earlier run; and unless the operator answers yes it
    writes only [steam_additional_reviews.csv]. *)
Theorem steam_main_keeps_prior_file pd game_ids target remote answer
    (fs : gmap string (list Review)) :
  exists fs' flow,
    main_with pd game_ids target remote answer fs = Some (fs', flow) /\
    fs' !! EXISTING_FILE = fs !! EXISTING_FILE /\
    init (read_csv pd <$> fs' !! EXISTING_FILE) target
      = init (read_csv pd <$> fs !! EXISTING_FILE) target /\
    (answer <> "yes" ->
     flow = Normal /\ forall path, path <> OUTPUT_FILE -> fs' !! path = fs !! path).
Proof.
  destruct (steam_main_shape pd game_ids target remote answer fs) as (new & tr' & E & _).
  rewrite E. destruct (decide (new = [])) as [_|_].
  { eexists _, _. split; [reflexivity|]. by repeat split. }
  assert (Hout : forall v : list Review,
            <[OUTPUT_FILE := v]> fs !! EXISTING_FILE = fs !! EXISTING_FILE)
    by (intros v; by rewrite lookup_insert_ne).
  destruct (decide (answer = "yes")) as [->|Hno].
  - destruct (fs !! EXISTING_FILE) as [prior|] eqn:Hprior.
    + eexists _, _. split; [reflexivity|].
      assert (Hsame : <[UPDATED_FILE := combined pd prior new]> (<[OUTPUT_FILE := new]> fs)
                        !! EXISTING_FILE = Some prior).
      { rewrite lookup_insert_ne by done. by rewrite Hout. }
      rewrite Hsame. by repeat split.
    + eexists _, _. split; [reflexivity|]. rewrite Hout. by repeat split.
  - eexists _, _. split; [reflexivity|]. rewrite Hout.
    split; [done|]. split; [done|]. intros _. split; [done|].
    intros path Hpath. by rewrite lookup_insert_ne.
Qed.

(** Started without a prior file, a run that collected rows and whose
    operator answers yes writes the new rows and then fails on reading
    the prior file back: nothing is combined. *)
Theorem steam_main_fresh_start pd game_ids target remote
    (fs : gmap string (list Review)) new s' lg' :
  fs !! EXISTING_FILE = None ->
  scrape_all_games remote game_ids (init None target) [] = Some (new, s', lg') ->
  new <> [] ->
  main_with pd game_ids target remote "yes" fs = Some (<[OUTPUT_FILE := new]> fs, Raised).
Proof.
  intros Hfs Hrun Hnew.
  destruct (steam_main_shape pd game_ids target remote "yes" fs)
    as (new0 & tr' & E & (s0 & lg0 & Hrun0) & _).
  rewrite Hfs in Hrun0, E.
  change (read_csv pd <$> None) with (@None (list Loaded)) in Hrun0.
  rewrite Hrun in Hrun0. injection Hrun0 as <- _ _.
  rewrite E. destruct (decide (new = [])) as [?|_]; [done|].
  by destruct (decide ("yes" = "yes")).
Qed.

End Steam3Rows.

Section Steam3Start.
Import Py Pandas SteamAPI Steam3.

(** A run against [hades_only] that starts without files. *)
Lemma steam_main_fresh_start_witness :
  main_with plain_reader [(1145360, "Hades")] 104 hades_only "yes" ∅
    = Some (<[OUTPUT_FILE := [u2_row]]> ∅, Raised).
Proof.
  eapply (steam_main_fresh_start plain_reader [(1145360, "Hades")] 104 hades_only ∅
            [u2_row]).
  - done.
  - vm_compute. reflexivity.
  - done.
Defined.

End Steam3Start.

(** ** What holds of steam_scr.py *)

Section Steam1Facts.
Import Py SteamAPI.

(** What [fetch_reviews_by_type] lets through. *)
Definition long_enough (app : Z) (r : Steam1.Review) : Prop :=
  Steam1.app_id r = app /\ (10 < String.length (Steam1.review_text r))%nat.

Lemma steam1_batch_ext app n batch : forall st,
  exists new,
    Steam1.reviews (Steam1.process_batch app n batch st).1 = Steam1.reviews st ++ new /\
    Forall (long_enough app) new /\
    Steam1.cursor (Steam1.process_batch app n batch st).1 = Steam1.cursor st /\
    Steam1.log (Steam1.process_batch app n batch st).1 = Steam1.log st /\
    (len (Steam1.reviews st) < n -> len (Steam1.reviews st ++ new) <= n).
Proof.
  induction batch as [|raw rest IH]; intros st.
  { exists []. simpl. rewrite app_nil_r. split; [done|]. split; [constructor|].
    split; [done|]. split; [done|]. lia. }
  assert (Hstop : exists new : list Steam1.Review,
    Steam1.reviews st = Steam1.reviews st ++ new /\ Forall (long_enough app) new /\
    Steam1.cursor st = Steam1.cursor st /\ Steam1.log st = Steam1.log st /\
    (len (Steam1.reviews st) < n -> len (Steam1.reviews st ++ new) <= n)).
  { exists []. rewrite app_nil_r. split; [done|]. split; [constructor|].
    split; [done|]. split; [done|]. lia. }
  simpl.
  destruct (10 <? Z.of_nat (String.length (default "" (rr_review raw)))) eqn:Hlong;
    [|apply IH].
  destruct (rr_steamid raw) as [user|]; [|exact Hstop].
  destruct (rr_voted_up raw) as [up|]; [|exact Hstop].
  destruct (rr_votes_up raw) as [helpful|]; [|exact Hstop].
  destruct (rr_votes_funny raw) as [funny|]; [|exact Hstop].
  destruct (rr_timestamp_created raw) as [stamp|]; [|exact Hstop].
  apply Z.ltb_lt in Hlong.
  match goal with |- context [Steam1.reviews st ++ [?x]] => set (row := x) end.
  assert (Hrow : long_enough app row) by (split; [done | simpl; lia]).
  match goal with |- context [Steam1.process_batch _ _ rest ?s] => set (st' := s) end.
  match goal with |- context [if ?b then (st', _) else _] => destruct b eqn:Hfull end.
  - exists [row]. simpl. split; [done|]. split; [by constructor|].
    split; [done|]. split; [done|]. intros Hlt. rewrite len_app. unfold len in *.
    simpl. lia.
  - apply Z.leb_gt in Hfull.
    destruct (IH st') as (new & E & Ho & Hc & Hl & Hb).
    exists (row :: new). rewrite E, Hc, Hl. simpl.
    split; [by rewrite <- app_assoc|]. split; [by constructor|].
    split; [done|]. split; [done|]. intros _.
    specialize (Hb Hfull). simpl in Hb. by rewrite <- app_assoc in Hb.
Qed.

Lemma steam1_pages_ext remote app rtype n fuel : forall st st',
  Steam1.fetch_pages fuel remote app rtype n st = Some st' ->
  exists new extra,
    Steam1.reviews st' = Steam1.reviews st ++ new /\
    Forall (long_enough app) new /\
    Steam1.log st' = Steam1.log st ++ extra /\ (length extra <= fuel)%nat /\
    (len (Steam1.reviews st) <= Z.max 0 n -> len (Steam1.reviews st') <= Z.max 0 n).
Proof.
  assert (Hnil : forall (st st0 : Steam1.Loop) extra k,
    Steam1.reviews st0 = Steam1.reviews st -> Steam1.log st0 = Steam1.log st ++ extra ->
    (length extra <= k)%nat ->
    exists (new : list Steam1.Review) extra0,
      Steam1.reviews st0 = Steam1.reviews st ++ new /\ Forall (long_enough app) new /\
      Steam1.log st0 = Steam1.log st ++ extra0 /\ (length extra0 <= k)%nat /\
      (len (Steam1.reviews st) <= Z.max 0 n -> len (Steam1.reviews st0) <= Z.max 0 n)).
  { intros st st0 extra k Hr Hl Hk. exists [], extra. rewrite app_nil_r, Hr.
    split; [done|]. split; [constructor|]. by repeat split. }
  induction fuel as [|fuel IH]; intros st st' H; simpl in H;
    destruct (len (Steam1.reviews st) <? n) eqn:Hcond;
    try discriminate;
    try (injection H as <-; apply (Hnil st st []); [done | by rewrite app_nil_r | simpl; lia]).
  apply Z.ltb_lt in Hcond.
  set (q := {| q_app_id := app; q_review_type := rtype; q_cursor := Steam1.cursor st |}) in *.
  destruct (appreviews remote (Steam1.log st) q) as [|ok batch next].
  { injection H as <-. apply (Hnil st _ [q]); [done | done | simpl; lia]. }
  destruct ok; [|injection H as <-; apply (Hnil st _ [q]); [done | done | simpl; lia]].
  destruct batch as [|raw rest];
    [injection H as <-; apply (Hnil st _ [q]); [done | done | simpl; lia]|].
  match type of H with context [Steam1.process_batch _ _ _ ?s] => set (st0 := s) in * end.
  destruct (steam1_batch_ext app n (raw :: rest) st0) as (new & E & Ho & Hc & Hl & Hb).
  destruct (Steam1.process_batch app n (raw :: rest) st0) as [st1 flow].
  simpl in E, Hc, Hl.
  assert (Hlen : len (Steam1.reviews st1) <= Z.max 0 n).
  { rewrite E. simpl. specialize (Hb Hcond). simpl in Hb. lia. }
  destruct flow.
  - destruct (bool_decide (default "" next = "")).
    + injection H as <-. simpl. exists new, [q]. rewrite Hl.
      split; [done|]. split; [done|]. split; [done|]. split; [simpl; lia | done].
    + apply IH in H as (more & extra & E' & Ho' & Hl' & Hk & Hb'). simpl in *.
      exists (new ++ more), (q :: extra). rewrite E', E, Hl', Hl. simpl.
      split; [by rewrite <- app_assoc|]. split; [by apply Forall_app|].
      split; [by rewrite <- app_assoc|]. split; [lia|].
      intros _. rewrite <- E, <- E'. apply Hb'. lia.
  - injection H as <-. exists new, [q]. rewrite Hl.
    split; [done|]. split; [done|]. split; [done|]. split; [simpl; lia | done].
Qed.

Lemma length_fmap_len {A B} (f : A -> B) (l : list A) : Py.len (f <$> l) = Py.len l.
Proof. unfold Py.len. by rewrite length_fmap. Qed.

Lemma steam1_fetch_within_quota_aux fuel remote app rtype n lg st' :
  Steam1.fetch_reviews_by_type fuel remote app rtype n lg = Some st' ->
  len (Steam1.reviews st') <= Z.max 0 n /\
  Forall (long_enough app) (Steam1.reviews st').
Proof.
  unfold Steam1.fetch_reviews_by_type. intros H.
  apply steam1_pages_ext in H as (new & extra & E & Ho & Hl & Hk & Hb).
  simpl in E, Hl, Hb. rewrite E. split; [|done].
  rewrite <- E. apply Hb. unfold len. simpl. lia.
Qed.

(** Whenever [fetch_reviews_by_type] returns, it returns at most
    [num_reviews] reviews (none for a quota that is not positive), each of
    the game asked for and with a text of more than ten characters, after
    no more page requests than the pages it was given. *)
Theorem steam1_fetch_within_quota fuel remote app rtype n lg st' :
  Steam1.fetch_reviews_by_type fuel remote app rtype n lg = Some st' ->
  len (Steam1.reviews st') <= Z.max 0 n /\
  Forall (long_enough app) (Steam1.reviews st') /\
  exists extra, Steam1.log st' = lg ++ extra /\ (length extra <= fuel)%nat.
Proof.
  unfold Steam1.fetch_reviews_by_type. intros H.
  apply steam1_pages_ext in H as (new & extra & E & Ho & Hl & Hk & Hb).
  simpl in E, Hl, Hb. rewrite E. split; [|split; [done | by exists extra]].
  rewrite <- E. apply Hb. unfold len. simpl. lia.
Qed.

(** A response after which the page loop of steam_scr.py stops. *)
Definition last_page (resp : Response) : Prop :=
  match resp with
  | Failed => True
  | Page ok batch next => ok = false \/ batch = [] \/ default "" next = ""
  end.

Lemma steam1_pages_total remote app rtype n k fuel : forall st,
  (forall lg q, (k <= length lg)%nat -> last_page (appreviews remote lg q)) ->
  (k - length (Steam1.log st) < fuel)%nat ->
  exists st', Steam1.fetch_pages fuel remote app rtype n st = Some st'.
Proof.
  induction fuel as [|fuel IH]; intros st Hlast Hfuel; [lia|]. simpl.
  destruct (len (Steam1.reviews st) <? n); [|by eexists].
  set (q := {| q_app_id := app; q_review_type := rtype; q_cursor := Steam1.cursor st |}).
  pose proof (Hlast (Steam1.log st) q) as Hq.
  destruct (appreviews remote (Steam1.log st) q) as [|ok batch next]; [by eexists|].
  destruct ok; [|by eexists]. destruct batch as [|raw rest]; [by eexists|].
  match goal with |- context [Steam1.process_batch _ _ _ ?s] => set (st0 := s) end.
  destruct (steam1_batch_ext app n (raw :: rest) st0) as (new & _ & _ & _ & Hl & _).
  destruct (Steam1.process_batch app n (raw :: rest) st0) as [st1 flow].
  simpl in Hl. destruct flow; [|by eexists].
  destruct (bool_decide (default "" next = "")) eqn:Hnext; [by eexists|].
  apply bool_decide_eq_false in Hnext.
  apply IH; [done|]. simpl. rewrite Hl, length_app. simpl.
  destruct (decide (k <= length (Steam1.log st))%nat) as [Hk|Hk]; [|lia].
  destruct (Hq Hk) as [?|[?|?]]; done.
Qed.

(** The loop of steam_scr.py ends once the source does: when every
    response from the [k]-th request on is a failure, unsuccessful, empty
    or without cursor, [fetch_reviews_by_type] returns within [k + 1]
    page requests. *)
Theorem steam1_fetch_ends_with_source remote app rtype n k :
  (forall lg q, (k <= length lg)%nat -> last_page (appreviews remote lg q)) ->
  exists st',
    Steam1.fetch_reviews_by_type (S k) remote app rtype n [] = Some st' /\
    (length (Steam1.log st') <= S k)%nat.
Proof.
  intros Hlast. unfold Steam1.fetch_reviews_by_type.
  destruct (steam1_pages_total remote app rtype n k (S k)
              {| Steam1.reviews := []; Steam1.cursor := "*"; Steam1.log := [] |} Hlast)
    as (st' & E); [simpl; lia|].
  exists st'. split; [done|].
  apply steam1_pages_ext in E as (_ & extra & _ & _ & Hl & Hk & _).
  simpl in Hl. by rewrite Hl.
Qed.

End Steam1Facts.

Section Steam1Run.
Import Py SteamAPI Steam1Main.

(** A row of [steam_reviews.csv] for one of the games of the table. *)
Definition listed (games : list (Z * string)) (r : Row) : Prop :=
  (app_id r, game_name r) ∈ games /\ (10 < String.length (review_text r))%nat.

Lemma listed_mono games games' r :
  (forall g, g ∈ games -> g ∈ games') -> listed games r -> listed games' r.
Proof. intros Hsub [Hin Hlen]. split; [by apply Hsub | done]. Qed.

Lemma steam1_games_loop_ext fuel remote p n games : forall all lg all' lg',
  games_loop fuel remote p n games all lg = Some (all', lg') ->
  exists new,
    all' = all ++ new /\
    len new <= len games * (Z.max 0 p + Z.max 0 n) /\
    Forall (listed games) new.
Proof.
  induction games as [|[app game] rest IH]; intros all lg all' lg' H; simpl in H.
  { injection H as <- <-. exists []. rewrite app_nil_r. split; [done|].
    split; [unfold len; simpl; lia | constructor]. }
  destruct (Steam1.fetch_reviews_by_type fuel remote app "positive" p lg)
    as [pos|] eqn:Hpos; [|discriminate]. simpl in H.
  destruct (Steam1.fetch_reviews_by_type fuel remote app "negative" n (Steam1.log pos))
    as [neg|] eqn:Hneg; [|discriminate]. simpl in H.
  apply steam1_fetch_within_quota_aux in Hpos as (Hp & Hpo).
  apply steam1_fetch_within_quota_aux in Hneg as (Hn & Hno).
  apply IH in H as (more & -> & Hlen & Hall).
  eexists. split; [by rewrite <- app_assoc|]. split.
  - rewrite len_app, length_fmap_len, len_app.
    replace (len ((app, game) :: rest)) with (1 + len rest) by (unfold len; simpl; lia).
    lia.
  - apply Forall_app. split.
    + apply Forall_fmap, Forall_app. split.
      * eapply Forall_impl; [exact Hpo|]. intros r [Ha Hl]. split; [|done].
        simpl. rewrite Ha. apply list_elem_of_here.
      * eapply Forall_impl; [exact Hno|]. intros r [Ha Hl]. split; [|done].
        simpl. rewrite Ha. apply list_elem_of_here.
    + eapply Forall_impl; [exact Hall|]. intros r. apply listed_mono.
      intros g Hg. by apply list_elem_of_further.
Qed.

(** Whenever [main] of steam_scr.py comes to its end, it either wrote
    nothing (an empty table of games or no review at all: the run raised
    before [to_csv]) or wrote to [steam_reviews.csv], and to no other
    file, a table that is not empty, has at most 2500 rows, and whose
    every row belongs to a game of the table and has a text of more than
    ten characters. *)
Theorem steam1_main_within_total fuel game_ids remote (fs fs' : gmap string (list Row)) flow :
  main_with fuel game_ids remote fs = Some (fs', flow) ->
  match flow with
  | Raised => fs' = fs
  | Normal =>
      exists rows,
        fs' = <[OUTPUT_FILE := rows]> fs /\ rows <> [] /\
        len rows <= Steam1.TOTAL_REVIEWS /\ Forall (listed game_ids) rows
  end.
Proof.
  unfold main_with. intros H.
  destruct (bool_decide (len game_ids = 0)) eqn:Hzero; [by injection H as <- <-|].
  apply bool_decide_eq_false in Hzero.
  match type of H with context [games_loop _ _ ?p ?n _ _ _] =>
    destruct (games_loop fuel remote p n game_ids [] []) as [[all lg]|] eqn:Hloop
  end; [|discriminate].
  simpl in H. apply steam1_games_loop_ext in Hloop as (new & E & Hlen & Hall).
  simpl in E. subst new.
  destruct all as [|row rows]; injection H as <- <-; [done|].
  exists (row :: rows). split; [done|]. split; [done|]. split; [|done].
  etransitivity; [exact Hlen|].
  pose proof (len_nonneg game_ids) as Hn.
  unfold Steam1.negative_per_game, Steam1.positive_per_game, Steam1.reviews_per_game,
    Steam1.TOTAL_REVIEWS.
  set (n := len game_ids) in *.
  assert (Hr : 0 <= 2500 / n) by (apply Z.div_pos; lia).
  assert (Hp : 0 <= 2500 / n / 2) by (apply Z.div_pos; lia).
  assert (Hq : 2500 / n / 2 <= 2500 / n) by (apply Z.div_le_upper_bound; lia).
  pose proof (Z.mul_div_le 2500 n ltac:(lia)).
  rewrite !Z.max_r by lia. lia.
Qed.

End Steam1Run.

Section Steam1Samples.
Import Py SteamAPI Steam1Main.

(** What steam_scr.py keeps of the review that [hades_only] serves. *)
Definition u2_review : Steam1.Review :=
  {| Steam1.app_id := 1145360; Steam1.user_id := "u2";
     Steam1.review_text := "plenty of fun for quite a while";
     Steam1.voted_up := true; Steam1.votes_helpful := 3; Steam1.votes_funny := 0;
     Steam1.created := 1700000000 |}.

Definition first_page (rtype : string) : Request :=
  {| q_app_id := 1145360; q_review_type := rtype; q_cursor := "*" |}.

(** The fetch of five positive reviews of Hades from [hades_only]. *)
Lemma steam1_fetch_within_quota_witness :
  len [u2_review] <= Z.max 0 5 /\
  Forall (long_enough 1145360) [u2_review] /\
  exists extra, [first_page "positive"] = [] ++ extra /\ (length extra <= 1)%nat.
Proof.
  exact (steam1_fetch_within_quota 1 hades_only 1145360 "positive" 5 []
           {| Steam1.reviews := [u2_review]; Steam1.cursor := "";
              Steam1.log := [first_page "positive"] |} eq_refl).
Defined.

(** [hades_only] never hands out a cursor, so its first page is the last. *)
Lemma steam1_fetch_ends_with_source_witness :
  exists st',
    Steam1.fetch_reviews_by_type 1 hades_only 1145360 "positive" 5 [] = Some st' /\
    (length (Steam1.log st') <= 1)%nat.
Proof.
  apply (steam1_fetch_ends_with_source hades_only 1145360 "positive" 5 0).
  intros lg q _. simpl. destruct (bool_decide (q_app_id q = 1145360)); simpl; auto.
Defined.

(** The row of [steam_reviews.csv] for [u2_review]: no metadata is known. *)
Definition u2_line : Row :=
  add_details "Hades" None u2_review.

(** A run of [main] over Hades alone: [hades_only] serves the review under
    either category, and both copies are written. *)
Lemma steam1_main_within_total_witness :
  exists rows,
    <[OUTPUT_FILE := [u2_line; u2_line]]> (∅ : gmap string (list Row))
      = <[OUTPUT_FILE := rows]> ∅ /\
    rows <> [] /\ len rows <= Steam1.TOTAL_REVIEWS /\
    Forall (listed [(1145360, "Hades")]) rows.
Proof.
  apply (steam1_main_within_total 1 [(1145360, "Hades")] hades_only ∅
           (<[OUTPUT_FILE := [u2_line; u2_line]]> ∅) Normal).
  vm_compute. reflexivity.
Defined.

End Steam1Samples.

(** ** What holds of the Metacritic scraper for every site *)

Section MetacriticPages.
Import Py Metacritic.

(** What every accepted review shows. *)
Definition kept (sentiment : string) (r : Scraped) : Prop :=
  (10 < String.length (s_review_text r))%nat /\
  s_voted_up r = (7 <=? s_user_score r) /\
  accepted_as sentiment r.

Lemma scan_divs_bound game sentiment num divs : forall st,
  Forall (kept sentiment) (reviews st) -> 0 <= duplicates_skipped st ->
  len (reviews st) < Z.max 1 num ->
  let st' := scan_divs game sentiment num divs st in
  Forall (kept sentiment) (reviews st') /\ 0 <= duplicates_skipped st' /\
  len (reviews st') <= Z.max 1 num.
Proof.
  induction divs as [|d rest IH]; intros st Hk Hd Hlen; simpl.
  { split; [done|]. split; [done|]. lia. }
  destruct (rd_score d) as [score|]; [|by apply IH].
  destruct (bool_decide (sentiment = "positive") && (score <? 7)) eqn:Hpos; [by apply IH|].
  destruct (bool_decide (sentiment = "negative") && (4 <? score)) eqn:Hneg; [by apply IH|].
  destruct (rd_quote d) as [text|]; [|by apply IH].
  destruct (Z.of_nat (String.length text) <=? 10) eqn:Hshort; [by apply IH|].
  apply Z.leb_gt in Hshort.
  destruct (is_duplicate (tracker st) (default "Anonymous" (rd_author d)) game).
  { apply IH; simpl; [done | lia | done]. }
  match goal with |- context [reviews st ++ [?x]] => set (row := x) end.
  assert (Hrow : kept sentiment row).
  { split; [simpl; lia|]. split; [done|]. split; intros ->; simpl.
    - rewrite bool_decide_eq_true_2 in Hpos by done. simpl in Hpos.
      apply Z.ltb_ge in Hpos. lia.
    - rewrite bool_decide_eq_true_2 in Hneg by done. simpl in Hneg.
      apply Z.ltb_ge in Hneg. lia. }
  assert (Hall : Forall (kept sentiment) (reviews st ++ [row]))
    by (apply Forall_app; split; [done | by constructor]).
  assert (Hone : len (reviews st ++ [row]) = len (reviews st) + 1)
    by (rewrite len_app; unfold len; simpl; lia).
  match goal with |- context [if ?b then _ else _] => destruct b eqn:Hfull end.
  - simpl. split; [done|]. split; [done|]. lia.
  - apply Z.leb_gt in Hfull. simpl in Hfull. apply IH; simpl; [done | done | lia].
Qed.

(** For every answer of the site, [scrape_reviews_by_sentiment] makes one
    request, for the one listing page of the game, and returns at most
    [max(1, num_reviews)] reviews of it; each has a text of more than ten
    characters, a score on the side asked for, and [voted_up] set exactly
    when the score is 7 or more. *)
Theorem metacritic_one_page remote game_url game sentiment num tr lg :
  exists new dups tr',
    scrape_reviews_by_sentiment remote game_url game sentiment num tr lg
      = (new, dups, tr', lg ++ [Get (reviews_url_of game_url)]) /\
    len new <= Z.max 1 num /\ 0 <= dups /\ Forall (kept sentiment) new /\
    (user_reviews remote lg (reviews_url_of game_url) = None ->
       new = [] /\ dups = 0 /\ tr' = tr).
Proof.
  unfold scrape_reviews_by_sentiment.
  destruct (user_reviews remote lg (reviews_url_of game_url)) as [divs|].
  - destruct (scan_divs_bound game sentiment num divs
                {| reviews := []; duplicates_skipped := 0; tracker := tr |})
      as (Hk & Hd & Hlen); simpl; [constructor | lia | unfold len; simpl; lia |].
    eexists _, _, _. split; [reflexivity|]. by repeat (split; [done|]).
  - exists [], 0, tr. split; [done|]. split; [unfold len; simpl; lia|].
    split; [lia|]. split; [constructor | done].
Qed.

(** The characters of a Metacritic slug. *)
Definition slug_ok (c : ascii) : bool :=
  let n := N_of_ascii c in
  ((97 <=? n) && (n <=? 122) || (48 <=? n) && (n <=? 57) || (n =? 45))%N.

Lemma slug_char_ok c : Forall (fun d => slug_ok d = true) (slug_char c).
Proof.
  assert (H : forallb slug_ok (slug_char c) = true)
    by (destruct c as [[] [] [] [] [] [] [] []]; vm_compute; reflexivity).
  apply Forall_forall. intros d Hd. apply list_elem_of_In in Hd.
  by apply (proj1 (forallb_forall _ _) H).
Qed.

Lemma slug_ok_plain c : slug_ok c = true -> c <> "?"%char.
Proof. intros H ->. by vm_compute in H. Qed.

Lemma append_assoc (a b c : string) : (a +:+ b) +:+ c = a +:+ (b +:+ c).
Proof.
  induction a as [|x a IH]; [done|].
  change (String x ((a +:+ b) +:+ c) = String x (a +:+ (b +:+ c))). by rewrite IH.
Qed.

Lemma contains_char_app c a b :
  contains_char c (a +:+ b) = contains_char c a || contains_char c b.
Proof. unfold contains_char. by rewrite list_ascii_of_string_app, existsb_app. Qed.

Lemma contains_char_none c (l : list ascii) :
  Forall (fun d => d <> c) l -> contains_char c (string_of_list_ascii l) = false.
Proof.
  unfold contains_char. rewrite list_ascii_of_string_of_list_ascii.
  induction 1 as [|d l Hd _ IH]; simpl; [done|].
  by rewrite bool_decide_eq_false_2, IH.
Qed.

(** For every game name, the page that [search_metacritic] probes is
    [https://www.metacritic.com/game/<slug>/] with a slug of lower-case
    letters, digits and hyphens only, so the listing requested for it is
    always [<page>user-reviews/?platform=pc]: the [&platform=pc] form is
    never sent. *)
Theorem metacritic_listing_url game :
  exists slug,
    Forall (fun c => slug_ok c = true) (list_ascii_of_string slug) /\
    game_url_of game = "https://www.metacritic.com/game/" +:+ slug +:+ "/" /\
    reviews_url_of (game_url_of game)
      = "https://www.metacritic.com/game/" +:+ slug +:+ "/user-reviews/?platform=pc".
Proof.
  set (chars := flat_map slug_char (list_ascii_of_string game)).
  assert (Hok : Forall (fun c => slug_ok c = true) chars).
  { apply Forall_flat_map, Forall_forall. intros c _. apply slug_char_ok. }
  exists (string_of_list_ascii chars).
  rewrite list_ascii_of_string_of_list_ascii. split; [done|]. split; [done|].
  unfold reviews_url_of, game_url_of. fold chars.
  rewrite !contains_char_app, contains_char_none.
  - simpl. by rewrite !append_assoc.
  - eapply Forall_impl; [exact Hok|]. intros c. apply slug_ok_plain.
Qed.

End MetacriticPages.

Section MetacriticRun.
Import Py Pandas Metacritic.

Lemma scrape_reviews_len remote game_url game sentiment num tr lg :
  len (scrape_reviews_by_sentiment remote game_url game sentiment num tr lg).1.1.1
    <= Z.max 1 num.
Proof.
  unfold scrape_reviews_by_sentiment.
  destruct (user_reviews remote lg (reviews_url_of game_url)) as [divs|]; simpl.
  - apply (scan_divs_bound game sentiment num divs
             {| reviews := []; duplicates_skipped := 0; tracker := tr |});
      simpl; [constructor | lia | unfold len; simpl; lia].
  - unfold len. simpl. lia.
Qed.

Lemma games_loop_bound remote target p q games : forall all dups tr lg,
  len all < target ->
  len (games_loop remote target p q games all dups tr lg).1.1.1
    < target + (Z.max 1 p + Z.max 1 q).
Proof.
  induction games as [|[app game] rest IH]; intros all dups tr lg Hlt; simpl; [lia|].
  destruct (game_page remote lg (game_url_of game)); [|by apply IH].
  pose proof (scrape_reviews_len remote (game_url_of game) game "positive" p tr
                (lg ++ [Get (game_url_of game)])) as Hp.
  destruct (scrape_reviews_by_sentiment remote (game_url_of game) game "positive" p tr
              (lg ++ [Get (game_url_of game)])) as [[[pos pd] tr1] lg1].
  pose proof (scrape_reviews_len remote (game_url_of game) game "negative" q tr1 lg1) as Hq.
  destruct (scrape_reviews_by_sentiment remote (game_url_of game) game "negative" q tr1 lg1)
    as [[[neg nd] tr2] lg2].
  simpl in Hp, Hq.
  match goal with |- context [if ?b then _ else _] => destruct b eqn:Hfull end.
  - simpl. rewrite len_app, length_fmap_len, len_app. lia.
  - apply Z.leb_gt in Hfull. by apply IH.
Qed.

(** [main] of the Metacritic scraper stops at the total of 2500 only
    between games.  With a prior table of 2500 rows or more it accepts
    nothing and writes no file; with a shorter one, prior and new rows
    together stay below [2500 + max(2, reviews_per_game)]. *)
Theorem metacritic_total_overshoot pd game_ids remote (fs : gmap string (list Row)) :
  0 < len game_ids ->
  (TARGET_TOTAL <= len (default [] (fs !! INPUT_FILE)) ->
     main_with pd game_ids remote fs = (fs, [], Normal)) /\
  (len (default [] (fs !! INPUT_FILE)) < TARGET_TOTAL ->
     len (default [] (fs !! INPUT_FILE)) + len (main_with pd game_ids remote fs).1.2
       < TARGET_TOTAL
         + Z.max 2 ((TARGET_TOTAL - len (default [] (fs !! INPUT_FILE))) / len game_ids)).
Proof.
  intros Hgames. unfold main_with.
  set (prior := default [] (fs !! INPUT_FILE)).
  destruct (load_existing_reviews pd fs) as [g n0] eqn:Hload.
  assert (E : n0 = len prior).
  { unfold load_existing_reviews in Hload. unfold prior.
    destruct (fs !! INPUT_FILE) as [rows|]; injection Hload as _ <-; [|done].
    unfold read_csv, len. cbv zeta. simpl. by rewrite length_fmap. }
  subst n0. split.
  - intros Hfull. by rewrite (proj2 (Z.leb_le _ _)) by lia.
  - intros Hroom.
    set (n := len game_ids) in *. set (r := (TARGET_TOTAL - len prior) / n).
    assert (Hr : 0 <= r) by (apply Z.div_pos; lia).
    assert (Hm : Z.max 1 (positive_per_game r) + Z.max 1 (negative_per_game r)
                 <= Z.max 2 r).
    { unfold negative_per_game, positive_per_game.
      assert (0 <= r / 2) by (apply Z.div_pos; lia).
      assert (r / 2 <= r) by (apply Z.div_le_upper_bound; lia).
      destruct (decide (r < 2)) as [Hsmall|Hbig].
      - assert (r / 2 = 0) as -> by (apply Z.div_small; lia). lia.
      - assert (1 <= r / 2) by (apply Z.div_le_lower_bound; lia).
        assert (r / 2 < r) by (apply Z.div_lt; lia). lia. }
    rewrite (proj2 (Z.leb_gt _ _)) by lia.
    rewrite bool_decide_eq_false_2 by (fold n; lia). fold n. fold r.
    pose proof (games_loop_bound remote (TARGET_TOTAL - len prior)
                  (positive_per_game r) (negative_per_game r) game_ids [] 0
                  (existing_reviews g) (log g)) as Hb.
    destruct (games_loop remote (TARGET_TOTAL - len prior) (positive_per_game r)
                (negative_per_game r) game_ids [] 0 (existing_reviews g) (log g))
      as [[[new dups] tr'] lg'].
    simpl in Hb. specialize (Hb ltac:(change (0 < TARGET_TOTAL - len prior); lia)).
    destruct (0 <? len new); simpl; [lia|]. change (len (@nil Row)) with 0. lia.
Qed.

Lemma NoDup_constant {A} (k : A) (l : list A) :
  NoDup l -> Forall (fun x => x = k) l -> (length l <= 1)%nat.
Proof.
  intros Hn Hall. destruct l as [|x [|y l]]; simpl; [lia | lia |].
  exfalso. apply NoDup_cons in Hn as [Hx _].
  apply Forall_cons in Hall as [-> Hall]. apply Forall_cons in Hall as [-> _].
  apply Hx. apply list_elem_of_here.
Qed.

Lemma loaded_keys_text pd (rows : list Row) r :
  r ∈ rows ->
  as_text pd (author <$> rows) = true -> as_text pd (game_name <$> rows) = true ->
  isna (author r) = false -> isna (game_name r) = false ->
  (author r, game_name r) ∈ loaded_keys pd rows.
Proof.
  intros Hr Ha Hg Hna Hng. unfold loaded_keys, read_csv. cbv zeta.
  rewrite <- list_fmap_compose. apply list_elem_of_fmap. exists r. split; [|done].
  unfold tracked_pair, read_cell. simpl. by rewrite Ha, Hg, Hna, Hng.
Qed.

(** A review without author is recorded, and tracked, under 'Anonymous'.
    So in whatever a run of [main] accepts, at most one row of a game
    reads 'Anonymous', and none does when the run tracks such a pair for
    the prior table: that is when the prior table has such a row for the
    game, pandas reads its authors and game names as texts, and the
    game's name is no missing-value token. *)
Theorem metacritic_one_unsigned_review pd game_ids remote (fs : gmap string (list Row)) game :
  let unsigned := filter (fun r => author r = "Anonymous" /\ game_name r = game) in
  len (unsigned (main_with pd game_ids remote fs).1.2) <= 1 /\
  (("Anonymous", game) ∈ loaded_keys pd (default [] (fs !! INPUT_FILE)) ->
     unsigned (main_with pd game_ids remote fs).1.2 = []) /\
  (as_text pd (author <$> default [] (fs !! INPUT_FILE)) = true ->
   as_text pd (game_name <$> default [] (fs !! INPUT_FILE)) = true ->
   isna game = false ->
   unsigned (default [] (fs !! INPUT_FILE)) <> [] ->
     unsigned (main_with pd game_ids remote fs).1.2 = []).
Proof.
  intros unsigned.
  destruct (metacritic_main_shape pd game_ids remote fs)
    as (new & flow & -> & (tr' & Hfresh) & _). simpl.
  destruct Hfresh as (_ & Hnd & Hnew).
  assert (Hkeys : Forall (fun k => k = ("Anonymous", game)) (rkey <$> unsigned new)).
  { apply Forall_fmap, Forall_forall. intros r Hr.
    apply list_elem_of_filter in Hr as [[Ha Hg] _]. unfold rkey. simpl.
    by rewrite Ha, Hg. }
  assert (Htracked : ("Anonymous", game) ∈ loaded_keys pd (default [] (fs !! INPUT_FILE)) ->
                     unsigned new = []).
  { intros Htr. apply load_existing_tracker in Htr.
    destruct (unsigned new) as [|r more] eqn:Hun; [done|]. exfalso.
    assert (Hr : r ∈ unsigned new) by (rewrite Hun; apply list_elem_of_here).
    apply list_elem_of_filter in Hr as [[Ha' Hg'] Hr].
    apply (Hnew ("Anonymous", game)); [|done].
    apply list_elem_of_fmap. exists r. split; [|done]. unfold rkey. by rewrite Ha', Hg'. }
  split; [|split; [exact Htracked|]].
  - assert (Hsub : NoDup (rkey <$> unsigned new)).
    { eapply sublist_NoDup; [exact Hnd|]. apply fmap_sublist, sublist_filter. }
    pose proof (NoDup_constant _ _ Hsub Hkeys) as Hlen.
    rewrite length_fmap in Hlen. unfold len. lia.
  - intros Hat Hgt Hng Hprior. apply Htracked.
    destruct (unsigned (default [] (fs !! INPUT_FILE))) as [|old rest] eqn:Hold; [done|].
    assert (Hin : old ∈ unsigned (default [] (fs !! INPUT_FILE)))
      by (rewrite Hold; apply list_elem_of_here).
    apply list_elem_of_filter in Hin as [[Ha Hg] Hin].
    rewrite <- Ha, <- Hg. apply loaded_keys_text; [done | done | done | | by rewrite Hg].
    by rewrite Ha.
Qed.

End MetacriticRun.

Section MetacriticSamples.
Import Py Pandas Metacritic.

(** A first run over Hades alone against [sample_site]. *)
Lemma metacritic_total_overshoot_witness :
  (TARGET_TOTAL <= len (default [] ((∅ : gmap string (list Row)) !! INPUT_FILE)) ->
     main_with plain_reader [(1145360, "Hades")] sample_site ∅ = (∅, [], Normal)) /\
  (len (default [] ((∅ : gmap string (list Row)) !! INPUT_FILE)) < TARGET_TOTAL ->
     len (default [] ((∅ : gmap string (list Row)) !! INPUT_FILE))
       + len (main_with plain_reader [(1145360, "Hades")] sample_site ∅).1.2
       < TARGET_TOTAL
         + Z.max 2 ((TARGET_TOTAL
                     - len (default [] ((∅ : gmap string (list Row)) !! INPUT_FILE)))
                    / len [(1145360, "Hades")])).
Proof.
  apply (metacritic_total_overshoot plain_reader [(1145360, "Hades")] sample_site ∅).
  reflexivity.
Defined.

End MetacriticSamples.

(** ** What holds of translate_only.py for every model *)

Section Translation.
Import Py TranslateOnly.

Context {Other : Type}.
Variable unescape : string -> string.
Variable model : list (list string) -> list string -> option (list string).

(** The batch that [process_dataframe] sends to the model for a row, if
    it sends one. *)
Definition request_of (row : @Row Other) : option (list string) :=
  match review_text row with
  | None => None
  | Some text => if blank text then None else Some [strip_html unescape text]
  end.

(** The batches sent for a list of rows, in order. *)
Definition requests (rows : list (@Row Other)) : list (list string) :=
  omap request_of rows.

(** The review column of a row after [process_dataframe], given the
    batches sent before it. *)
Definition translated_cell (calls : list (list string)) (row : @Row Other) : option string :=
  match review_text row with
  | None => None
  | Some text =>
      if blank text then Some text
      else
        match model calls [strip_html unescape text] with
        | Some (translation :: _) => Some translation
        | _ => Some (strip_html unescape text)
        end
  end.

Lemma process_row_spec calls (row : @Row Other) :
  other (process_row unescape model calls row).1 = other row /\
  review_text (process_row unescape model calls row).1 = translated_cell calls row /\
  (process_row unescape model calls row).2 = calls ++ requests [row].
Proof.
  unfold process_row, translated_cell, requests, request_of. simpl.
  destruct (review_text row) as [text|] eqn:Htext; simpl.
  - destruct (blank text); simpl.
    + by rewrite app_nil_r.
    + split; [done|]. split; [|done].
      by destruct (model calls [strip_html unescape text]) as [[|t ts]|].
  - by rewrite app_nil_r.
Qed.

Lemma requests_snoc (rows : list (@Row Other)) row :
  requests (rows ++ [row]) = requests rows ++ requests [row].
Proof. unfold requests. by rewrite omap_app. Qed.

Lemma process_rows_lookup (df : list (@Row Other)) : forall calls k row,
  df !! k = Some row ->
  exists new,
    process_rows unescape model calls df !! k = Some new /\
    other new = other row /\
    review_text new = translated_cell (calls ++ requests (take k df)) row.
Proof.
  induction df as [|first rest IH]; intros calls k row Hk; [done|].
  simpl. destruct (process_row_spec calls first) as (Ho & Ht & Hc).
  destruct (process_row unescape model calls first) as [new calls'] eqn:Hrow.
  simpl in Ho, Ht, Hc. destruct k as [|k]; simpl in Hk |- *.
  - injection Hk as <-. exists new. split; [done|]. split; [done|].
    unfold requests. simpl. by rewrite app_nil_r.
  - destruct (IH calls' k row Hk) as (new' & Hl & Ho' & Ht').
    exists new'. split; [done|]. split; [done|].
    rewrite Ht', Hc. f_equal. rewrite <- app_assoc. f_equal.
    unfold requests. simpl. by destruct (request_of first).
Qed.

(** [process_dataframe] works row by row and keeps the shape of the
    table.  The result has as many rows as the input; row [k] keeps its
    other columns; a missing or blank review is left as it is and is not
    sent to the model; any other review is replaced by the model's first
    translation of its stripped text, or by the stripped text itself when
    the model raises or returns nothing.  The model sees exactly the
    stripped non-blank reviews of the rows above, one per call. *)
Theorem process_dataframe_rowwise (df : list (@Row Other)) k row :
  df !! k = Some row ->
  length (process_dataframe unescape model df) = length df /\
  exists new,
    process_dataframe unescape model df !! k = Some new /\
    other new = other row /\
    review_text new = translated_cell (requests (take k df)) row.
Proof.
  intros Hk. split; [apply process_rows_length|].
  destruct (process_rows_lookup df [] k row Hk) as (new & Hl & Ho & Ht).
  by exists new.
Qed.

(** Tag removal leaves a text without ["<"] as it is. *)
Lemma sub_tags_plain cs :
  Forall (fun c => c <> "<"%char) cs -> sub_tags None cs = cs.
Proof.
  induction 1 as [|c cs Hc _ IH]; simpl; [done|].
  by rewrite bool_decide_eq_false_2, IH.
Qed.

(** An opened tag that is never closed stays in the text. *)
Lemma sub_tags_open cs : forall buf,
  Forall (fun c => c <> ">"%char) cs ->
  sub_tags (Some buf) cs = "<"%char :: buf ++ cs.
Proof.
  induction cs as [|c cs IH]; intros buf Hcs; simpl.
  - by rewrite app_nil_r.
  - apply Forall_cons in Hcs as [Hc Hcs].
    rewrite bool_decide_eq_false_2 by done. rewrite IH by done.
    by rewrite <- app_assoc.
Qed.

Lemma sub_tags_again cs : forall tag,
  Forall (fun c => c <> ">"%char) (default [] tag) ->
  sub_tags None (sub_tags tag cs) = sub_tags tag cs.
Proof.
  induction cs as [|c cs IH]; intros [buf|] Hbuf; simpl in *.
  - by rewrite sub_tags_open.
  - done.
  - destruct (bool_decide (c = ">"%char)) eqn:Hc.
    + destruct buf as [|b buf]; simpl; by rewrite (IH None).
    + apply bool_decide_eq_false in Hc. apply (IH (Some (buf ++ [c]))). simpl.
      apply Forall_app. split; [done | by constructor].
  - destruct (bool_decide (c = "<"%char)) eqn:Hc.
    + by apply (IH (Some [])).
    + apply bool_decide_eq_false in Hc. simpl.
      rewrite bool_decide_eq_false_2 by done. by rewrite (IH None).
Qed.

(** The tag removal of [strip_html] is complete: applied to its own
    output it changes nothing, so no [<...>] tag is left behind, and a
    text without ["<"] passes unchanged. *)
Theorem sub_tags_idempotent (cs : list ascii) :
  sub_tags None (sub_tags None cs) = sub_tags None cs /\
  (Forall (fun c => c <> "<"%char) cs -> sub_tags None cs = cs).
Proof.
  split; [by apply (sub_tags_again cs None) | apply sub_tags_plain].
Qed.

(** What [strip_html] returns is normalised: it is the single-space join
    of its own words, so splitting and joining it again gives it back. *)
Theorem strip_html_normalised (text : string) :
  join " " (split (strip_html unescape text)) = strip_html unescape text.
Proof.
  unfold strip_html.
  set (s := unescape (string_of_list_ascii (sub_tags None (list_ascii_of_string text)))).
  pose proof (split_join_split s (length (split s))) as H.
  rewrite firstn_all in H. by rewrite H.
Qed.

End Translation.

(** ** What holds of pipeline.py for every model *)

Section Batches.
Import Py Pipeline.

Variable min_words max_words batch_size : Z.
Variable model : list (list string) -> list string -> option (list string).
Variable summarizer : list string -> string -> option string.

(** A result that stands at its place: its index is that of its original
    in [reviews], counted from [i], and its word count is that of its
    opinion. *)
Definition placed (i : Z) (reviews : list string) (r : Result) : Prop :=
  i <= index r /\
  reviews !! Z.to_nat (index r - i) = Some (original r) /\
  word_count r = count_words (final_opinion r).

Lemma results_of_inv i batch : forall j translations opinions,
  Forall (fun r => index r < i + j + len batch /\ placed (i + j) batch r)
    (results_of i j batch translations opinions) /\
  Sorted.StronglySorted Z.lt (index <$> results_of i j batch translations opinions).
Proof.
  induction batch as [|o batch IH]; intros j ts ops; simpl.
  { split; constructor. }
  destruct ts as [|t ts]; [split; constructor|].
  destruct ops as [|p ops]; [split; constructor|].
  destruct (IH (j + 1) ts ops) as (Hall & Hsorted).
  assert (Hlen : len (o :: batch) = 1 + len batch) by (unfold len; simpl; lia).
  pose proof (len_nonneg batch) as Hnn.
  split.
  - constructor.
    + unfold placed. simpl. rewrite Hlen.
      replace (i + j - (i + j)) with 0 by lia. simpl.
      split; [lia|]. split; [lia|]. done.
    + eapply Forall_impl; [exact Hall|]. intros r (Hlt & Hle & Hat & Hwc).
      rewrite Hlen. split; [lia|]. split; [lia|]. split; [|done].
      replace (Z.to_nat (index r - (i + j)))
        with (S (Z.to_nat (index r - (i + (j + 1))))) by lia.
      done.
  - simpl. constructor; [done|].
    apply Forall_fmap. eapply Forall_impl; [exact Hall|].
    intros r (_ & Hle & _). simpl. lia.
Qed.

Lemma process_batches_inv fuel : forall i reviews calls sent,
  0 < batch_size ->
  Forall (placed i reviews)
    (process_batches min_words max_words batch_size model summarizer
       fuel i reviews calls sent) /\
  Sorted.StronglySorted Z.lt
    (index <$> process_batches min_words max_words batch_size model summarizer
                 fuel i reviews calls sent).
Proof.
  induction fuel as [|fuel IH]; intros i reviews calls sent Hbs; simpl.
  { split; constructor. }
  destruct reviews as [|first rest]; [split; constructor|].
  set (reviews := first :: rest).
  set (batch := take (Z.to_nat batch_size) reviews).
  set (ts := match model calls batch with
             | Some ts => ts
             | None => replicate (length batch) TRANSLATION_ERROR
             end).
  destruct (extract_opinions min_words max_words summarizer sent ts) as [ops sent'].
  destruct (results_of_inv i batch 0 ts ops) as (Hhead & Hhs).
  destruct (IH (i + batch_size) (drop (Z.to_nat batch_size) reviews)
              (calls ++ [batch]) sent' Hbs) as (Htail & Hts).
  assert (Hshort : len batch <= batch_size).
  { unfold len, batch. pose proof (firstn_le_length (Z.to_nat batch_size) reviews). lia. }
  split.
  - apply Forall_app. split.
    + eapply Forall_impl; [exact Hhead|]. intros r (Hlt & Hle & Hat & Hwc).
      split; [lia|]. split; [|done].
      replace (i + 0) with i in Hat by lia.
      apply lookup_take_Some in Hat as [Hat _]. done.
    + eapply Forall_impl; [exact Htail|]. intros r (Hle & Hat & Hwc).
      split; [lia|]. split; [|done].
      rewrite lookup_drop in Hat.
      replace (Z.to_nat (index r - i))
        with (Z.to_nat batch_size + Z.to_nat (index r - (i + batch_size)))%nat by lia.
      done.
  - rewrite fmap_app. apply sorting.StronglySorted_app_2; [|done|done].
    intros x1 x2 H1 H2.
    apply list_elem_of_fmap in H1 as (r1 & -> & H1).
    apply list_elem_of_fmap in H2 as (r2 & -> & H2).
    rewrite Forall_forall in Hhead. rewrite Forall_forall in Htail.
    destruct (Hhead r1 H1) as (Hlt & _). destruct (Htail r2 H2) as (Hle & _). lia.
Qed.

(** Whatever the models do, every result of [process_reviews] stands for
    one review: its index is the position of its original in the input,
    its word count is that of its final opinion, and the results come in
    strictly increasing index order, so no review is reported twice. *)
Theorem process_reviews_indexed (reviews : list string) (results : list Result) :
  process_reviews min_words max_words batch_size model summarizer reviews = Some results ->
  Forall (placed 0 reviews) results /\ Sorted.StronglySorted Z.lt (index <$> results).
Proof.
  unfold process_reviews. intros H.
  destruct (bool_decide (batch_size = 0)) eqn:Hzero; [discriminate|].
  apply bool_decide_eq_false in Hzero.
  destruct (batch_size <? 0) eqn:Hneg; [discriminate|].
  apply Z.ltb_ge in Hneg.
  destruct (process_batches_inv (length reviews) 0 reviews [] [] ltac:(lia)) as (Hall & Hs).
  destruct (process_batches min_words max_words batch_size model summarizer
              (length reviews) 0 reviews [] []) as [|r rs]; [discriminate|].
  by injection H as <-.
Qed.

Lemma results_of_full i batch : forall j translations opinions,
  length translations = length batch -> length opinions = length batch ->
  original <$> results_of i j batch translations opinions = batch /\
  index <$> results_of i j batch translations opinions = seqZ (i + j) (len batch).
Proof.
  induction batch as [|o batch IH]; intros j ts ops Hts Hops.
  { done. }
  destruct ts as [|t ts]; [discriminate|]. destruct ops as [|p ops]; [discriminate|].
  simpl in Hts, Hops. destruct (IH (j + 1) ts ops) as (Ho & Hi); [lia | lia |].
  cbn [results_of]. rewrite !fmap_cons, Ho, Hi. cbn [original index]. split; [done|].
  rewrite (seqZ_cons (i + j)) by (unfold len; simpl; lia).
  f_equal. f_equal; unfold len; simpl; lia.
Qed.

Lemma process_batches_full fuel : forall i reviews calls sent,
  0 < batch_size ->
  (forall calls batch ts, model calls batch = Some ts -> length ts = length batch) ->
  (length reviews <= fuel)%nat ->
  original <$> process_batches min_words max_words batch_size model summarizer
                 fuel i reviews calls sent = reviews /\
  index <$> process_batches min_words max_words batch_size model summarizer
              fuel i reviews calls sent = seqZ i (len reviews).
Proof.
  induction fuel as [|fuel IH]; intros i reviews calls sent Hbs Hmodel Hfuel.
  { destruct reviews; [done | simpl in Hfuel; lia]. }
  destruct reviews as [|first rest]; [done|].
  cbn [process_batches].
  set (reviews := first :: rest) in *.
  set (batch := take (Z.to_nat batch_size) reviews).
  set (ts := match model calls batch with
             | Some ts => ts
             | None => replicate (length batch) TRANSLATION_ERROR
             end).
  assert (Hts : length ts = length batch).
  { unfold ts. destruct (model calls batch) as [ts'|] eqn:Hm.
    - by apply (Hmodel calls).
    - apply length_replicate. }
  pose proof (extract_opinions_length min_words max_words summarizer ts sent) as Hops.
  destruct (extract_opinions min_words max_words summarizer sent ts) as [ops sent'].
  simpl in Hops.
  destruct (results_of_full i batch 0 ts ops) as (Ho & Hi); [done | lia |].
  assert (Hrest : (length (drop (Z.to_nat batch_size) reviews) <= fuel)%nat).
  { rewrite length_drop. unfold reviews in *. simpl in *. lia. }
  destruct (IH (i + batch_size) (drop (Z.to_nat batch_size) reviews)
              (calls ++ [batch]) sent' Hbs Hmodel Hrest) as (Ho' & Hi').
  rewrite !fmap_app, Ho, Hi, Ho', Hi'. split; [apply take_drop|].
  replace (i + 0) with i by lia.
  destruct (decide (Z.to_nat batch_size <= length reviews)%nat) as [Hle|Hgt].
  - assert (E : len batch = batch_size).
    { unfold len, batch. rewrite length_take_le by done. lia. }
    assert (E' : len reviews = batch_size + len (drop (Z.to_nat batch_size) reviews)).
    { unfold len. rewrite length_drop. lia. }
    rewrite E, E'. symmetry. apply seqZ_app; [lia | apply len_nonneg].
  - assert (Hnone : drop (Z.to_nat batch_size) reviews = [])
      by (apply drop_ge; lia).
    rewrite Hnone. unfold batch. rewrite take_ge by lia.
    change (len (@nil string)) with 0. rewrite app_nil_r. done.
Qed.

(** With a positive batch size and a translation model that, when it
    answers, answers with one translation per text, [process_reviews]
    returns one result per review, in input order and numbered from 0,
    whether or not some batches fail: the batches cover the whole list. *)
Theorem process_reviews_complete (reviews : list string) :
  0 < batch_size -> reviews <> [] ->
  (forall calls batch ts, model calls batch = Some ts -> length ts = length batch) ->
  exists results,
    process_reviews min_words max_words batch_size model summarizer reviews = Some results /\
    original <$> results = reviews /\
    index <$> results = seqZ 0 (len reviews).
Proof.
  intros Hbs Hne Hmodel. unfold process_reviews.
  rewrite bool_decide_eq_false_2 by lia.
  rewrite (proj2 (Z.ltb_ge _ _)) by lia.
  destruct (process_batches_full (length reviews) 0 reviews [] [] Hbs Hmodel (le_n _))
    as (Ho & Hi).
  destruct (process_batches min_words max_words batch_size model summarizer
              (length reviews) 0 reviews [] []) as [|r rs].
  - simpl in Ho. by subst reviews.
  - by eexists.
Qed.

Lemma results_of_opinions (P : string -> Prop) i batch : forall j translations opinions,
  Forall P opinions ->
  Forall (fun r => P (final_opinion r)) (results_of i j batch translations opinions).
Proof.
  induction batch as [|o batch IH]; intros j ts ops Hops; simpl; [constructor|].
  destruct ts as [|t ts]; [constructor|]. destruct ops as [|p ops]; [constructor|].
  apply Forall_cons in Hops as [Hp Hops]. constructor; [done | by apply IH].
Qed.

Lemma process_batches_bounded fuel : forall i reviews calls sent,
  0 <= max_words -> min_words <= max_words ->
  Forall (fun r => count_words (final_opinion r) <= max_words)
    (process_batches min_words max_words batch_size model summarizer
       fuel i reviews calls sent).
Proof.
  induction fuel as [|fuel IH]; intros i reviews calls sent Hmax Hmin; simpl; [constructor|].
  destruct reviews as [|first rest]; [constructor|].
  set (reviews := first :: rest).
  set (batch := take (Z.to_nat batch_size) reviews).
  set (ts := match model calls batch with
             | Some ts => ts
             | None => replicate (length batch) TRANSLATION_ERROR
             end).
  pose proof (extract_opinions_each min_words max_words summarizer ts sent Hmax Hmin) as Heach.
  destruct (extract_opinions min_words max_words summarizer sent ts) as [ops sent'].
  simpl in Heach. apply Forall_app. split; [|by apply IH].
  apply (results_of_opinions (fun p => count_words p <= max_words)).
  clear -Heach. induction Heach as [|t p ts ops (Hb & _) _ IH]; by constructor.
Qed.

End Batches.

Section CsvFacts.
Import Py PipelineCsv.

Context {Other : Type}.
Variable model : list (list string) -> list string -> option (list string).
Variable summarizer : list string -> string -> option string.

Lemma zip_with_rows (R : @Row Other -> @Updated Other -> Prop) f (df : list (@Row Other)) :
  forall results : list Pipeline.Result,
    length results = length df ->
    (forall k row r, df !! k = Some row -> results !! k = Some r -> R row (f row r)) ->
    Forall2 R df (zip_with f df results).
Proof.
  induction df as [|row df IH]; intros [|r results] Hlen Hall; simpl in *;
    try discriminate; constructor.
  - by apply (Hall 0%nat).
  - apply IH; [lia|]. intros k row' r'. apply (Hall (S k)).
Qed.

(** [process_csv] with an output table, for a table that is not empty
    and a translation model that answers with one translation per text:
    the run succeeds, the table written has the rows of the table read,
    in order, each with its other columns, the review as read in
    [review_text_original], and a new review of at most 300 words whose
    word count stands in [word_count]; a missing review is sent to the
    pipeline as the empty text. *)
Theorem process_csv_updates_table (df : list (@Row Other)) :
  df <> [] ->
  (forall calls batch ts, model calls batch = Some ts -> length ts = length batch) ->
  exists results table,
    process_csv model summarizer df true = Some (results, Some table) /\
    Pipeline.original <$> results = (fun row => default "" (review_text row)) <$> df /\
    Forall2
      (fun row u =>
         kept u = other row /\ review_text_original u = review_text row /\
         word_count u = count_words (new_review_text u) /\ word_count u <= MAX_WORDS)
      df table.
Proof.
  intros Hne Hmodel. unfold process_csv, Pipeline.process_reviews.
  set (reviews := (fun row => default "" (review_text row)) <$> df).
  assert (Hreviews : reviews <> []) by (unfold reviews; by destruct df).
  change (bool_decide (BATCH_SIZE = 0)) with false.
  change (BATCH_SIZE <? 0) with false. cbv iota.
  destruct (process_batches_full MIN_WORDS MAX_WORDS BATCH_SIZE model summarizer
              (length reviews) 0 reviews [] [] ltac:(done) Hmodel (le_n _)) as (Horig & _).
  pose proof (process_batches_bounded MIN_WORDS MAX_WORDS BATCH_SIZE model summarizer
                (length reviews) 0 reviews [] [] ltac:(done) ltac:(done)) as Hbound.
  destruct (process_batches_inv MIN_WORDS MAX_WORDS BATCH_SIZE model summarizer
              (length reviews) 0 reviews [] [] ltac:(done)) as (Hplaced & _).
  destruct (Pipeline.process_batches MIN_WORDS MAX_WORDS BATCH_SIZE model summarizer
              (length reviews) 0 reviews [] []) as [|first rest] eqn:Hrun.
  { simpl in Horig. by rewrite <- Horig in Hreviews. }
  set (results := first :: rest) in *. simpl.
  assert (Hlen : length results = length df).
  { rewrite <- (length_fmap Pipeline.original results), Horig. unfold reviews.
    by rewrite length_fmap. }
  rewrite bool_decide_eq_true_2 by done.
  eexists _, _. split; [reflexivity|]. split; [done|].
  apply zip_with_rows; [done|]. intros k row r Hrow Hr. simpl.
  split; [done|]. split; [done|].
  rewrite Forall_forall in Hplaced. rewrite Forall_forall in Hbound.
  assert (Hin : r ∈ results) by (by eapply list_elem_of_lookup_2).
  destruct (Hplaced r Hin) as (_ & _ & Hwc). specialize (Hbound r Hin).
  rewrite Hwc. done.
Qed.

End CsvFacts.

Section ArabicSamples.
Import Py.

(** A translation model that answers with the texts it was given, and a
    summariser that always raises. *)
Definition echo : list (list string) -> list string -> option (list string) :=
  fun _ batch => Some batch.
Definition mute : list string -> string -> option string :=
  fun _ _ => None.

Lemma echo_lengths calls batch ts : echo calls batch = Some ts -> length ts = length batch.
Proof. intros H. by injection H as <-. Qed.

(** A table of two rows, the second with markup around its review. *)
Definition two_rows : list (@TranslateOnly.Row nat) :=
  [ {| TranslateOnly.other := 7%nat; TranslateOnly.review_text := None |};
    {| TranslateOnly.other := 8%nat;
       TranslateOnly.review_text := Some "<p>not   bad</p>" |} ].

Lemma process_dataframe_rowwise_witness :
  length (TranslateOnly.process_dataframe (fun s => s) echo two_rows) = length two_rows /\
  exists new,
    TranslateOnly.process_dataframe (fun s => s) echo two_rows !! 1%nat = Some new /\
    TranslateOnly.other new = 8%nat /\
    TranslateOnly.review_text new
      = translated_cell (fun s => s) echo (requests (fun s => s) (take 1 two_rows))
          {| TranslateOnly.other := 8%nat;
             TranslateOnly.review_text := Some "<p>not   bad</p>" |}.
Proof.
  apply (process_dataframe_rowwise (fun s => s) echo two_rows 1
           {| TranslateOnly.other := 8%nat;
              TranslateOnly.review_text := Some "<p>not   bad</p>" |}).
  reflexivity.
Defined.

(** The results of three one-word reviews in batches of two. *)
Definition three_results : list Pipeline.Result :=
  [ {| Pipeline.index := 0; Pipeline.original := "one"; Pipeline.translated := "one";
       Pipeline.final_opinion := "one"; Pipeline.word_count := 1 |};
    {| Pipeline.index := 1; Pipeline.original := "two"; Pipeline.translated := "two";
       Pipeline.final_opinion := "two"; Pipeline.word_count := 1 |};
    {| Pipeline.index := 2; Pipeline.original := "three"; Pipeline.translated := "three";
       Pipeline.final_opinion := "three"; Pipeline.word_count := 1 |} ].

Lemma process_reviews_indexed_witness :
  Forall (placed 0 ["one"; "two"; "three"]) three_results /\
  Sorted.StronglySorted Z.lt (Pipeline.index <$> three_results).
Proof.
  apply (process_reviews_indexed 5 300 2 echo mute ["one"; "two"; "three"] three_results).
  vm_compute. reflexivity.
Defined.

Lemma process_reviews_complete_witness :
  exists results,
    Pipeline.process_reviews 5 300 2 echo mute ["one"; "two"; "three"] = Some results /\
    Pipeline.original <$> results = ["one"; "two"; "three"] /\
    Pipeline.index <$> results = seqZ 0 (len ["one"; "two"; "three"]).
Proof.
  apply (process_reviews_complete 5 300 2 echo mute ["one"; "two"; "three"]).
  - lia.
  - done.
  - apply echo_lengths.
Defined.

(** A table of two rows, the second without review. *)
Definition two_reviews : list (@PipelineCsv.Row nat) :=
  [ {| PipelineCsv.other := 7%nat; PipelineCsv.review_text := Some "bad game" |};
    {| PipelineCsv.other := 8%nat; PipelineCsv.review_text := None |} ].

Lemma process_csv_updates_table_witness :
  exists results table,
    PipelineCsv.process_csv echo mute two_reviews true = Some (results, Some table) /\
    Pipeline.original <$> results
      = (fun row => default "" (PipelineCsv.review_text row)) <$> two_reviews /\
    Forall2
      (fun row u =>
         PipelineCsv.kept u = PipelineCsv.other row /\
         PipelineCsv.review_text_original u = PipelineCsv.review_text row /\
         PipelineCsv.word_count u = count_words (PipelineCsv.new_review_text u) /\
         PipelineCsv.word_count u <= PipelineCsv.MAX_WORDS)
      two_reviews table.
Proof.
  apply (process_csv_updates_table echo mute two_reviews).
  - done.
  - apply echo_lengths.
Defined.

End ArabicSamples.
